(** * Lithium market data fetcher: a shallow embedding of [data_fetcher.py]

    The Python module fetches two web pages, extracts prices from their
    visible text with regular expressions, fabricates a thirty day price
    history, asks a language model for a one line summary and writes the
    whole record to a JSON file.  Every collaborator of the module (the
    clock, the two HTTP fetches, the language model, the file system) is an
    explicit component of the [env]ironment or of the [world] state below;
    the functions of the class [LithiumMarketDataFetcher] are translated one
    by one on top of a small exception-and-state monad. *)

From Stdlib Require Import NArith ZArith QArith List String Ascii Bool.
From Stdlib Require Import Lia Lqa.
Import ListNotations.

Set Implicit Arguments.
Open Scope Z_scope.

(** ** Python strings

    A Python [str] is a sequence of Unicode code points.  String literals of
    the source are written as UTF-8 literals and decoded once and for all. *)

Definition char := N.
Definition pystr := list char.

Module Utf8.

Definition byte_of (a : ascii) : N := N_of_ascii a.

(** Payload of a continuation byte [10xxxxxx]. *)
Definition cont (a : ascii) : N := N.land (byte_of a) 63.

Fixpoint bytes (s : string) : list ascii :=
  match s with
  | EmptyString => []
  | String a s' => a :: bytes s'
  end.

(** Decoder for well-formed UTF-8; a truncated sequence at the very end is
    dropped (no literal of this development has one). *)
Fixpoint decode_bytes (fuel : nat) (l : list ascii) : pystr :=
  match fuel with
  | O => []
  | S fuel' =>
      match l with
      | [] => []
      | a :: l1 =>
          let b := byte_of a in
          if (b <? 128)%N then b :: decode_bytes fuel' l1
          else if (b <? 224)%N then
            match l1 with
            | a1 :: l2 =>
                (N.land b 31 * 64 + cont a1)%N :: decode_bytes fuel' l2
            | _ => []
            end
          else if (b <? 240)%N then
            match l1 with
            | a1 :: a2 :: l3 =>
                (N.land b 15 * 4096 + cont a1 * 64 + cont a2)%N
                  :: decode_bytes fuel' l3
            | _ => []
            end
          else
            match l1 with
            | a1 :: a2 :: a3 :: l4 =>
                (N.land b 7 * 262144 + cont a1 * 4096 + cont a2 * 64
                 + cont a3)%N :: decode_bytes fuel' l4
            | _ => []
            end
      end
  end.

Definition decode (s : string) : pystr :=
  decode_bytes (String.length s) (bytes s).

End Utf8.

(** [u"..."] in the comments below stands for [Utf8.decode "..."]. *)
Definition lit (s : string) : pystr := Utf8.decode s.

(** ** The Unicode character database

    [re]'s [\d] and [\s] on [str] patterns and [float()] consult CPython's
    Unicode tables; those tables are not part of this repository and are
    taken as a parameter.  [decimal c] is [Py_UNICODE_TODECIMAL] (the value
    of a character of category Nd), [isspace c] is [Py_UNICODE_ISSPACE]. *)

Class UnicodeData : Type := {
  decimal : char -> option Z;
  isspace : char -> bool;
  decimal_range : forall c d, decimal c = Some d -> 0 <= d <= 9
}.

Definition isdecimal `{UnicodeData} (c : char) : bool :=
  match decimal c with Some _ => true | None => false end.

(** A sample database: the ASCII digits and the full-width digits
    U+FF10..U+FF19 as decimals, and CPython's white space table. *)
Module SampleUnicode.

Definition sample_decimal (c : char) : option Z :=
  if ((48 <=? c) && (c <=? 57))%N then Some (Z.of_N c - 48)
  else if ((65296 <=? c) && (c <=? 65305))%N then Some (Z.of_N c - 65296)
  else None.

Definition sample_isspace (c : char) : bool :=
  (((9 <=? c) && (c <=? 13)) || ((28 <=? c) && (c <=? 32))
   || (c =? 133) || (c =? 160) || (c =? 5760)
   || ((8192 <=? c) && (c <=? 8202)) || (c =? 8232) || (c =? 8233)
   || (c =? 8239) || (c =? 8287) || (c =? 12288))%N.

Lemma sample_decimal_range c d : sample_decimal c = Some d -> 0 <= d <= 9.
Proof.
  unfold sample_decimal.
  destruct ((48 <=? c) && (c <=? 57))%N eqn:E1.
  - intros [= <-]. apply andb_prop in E1 as [A B].
    apply N.leb_le in A, B. lia.
  - destruct ((65296 <=? c) && (c <=? 65305))%N eqn:E2; [|discriminate].
    intros [= <-]. apply andb_prop in E2 as [A B].
    apply N.leb_le in A, B. lia.
Qed.

#[export] Instance ucd : UnicodeData :=
  {| decimal := sample_decimal;
     isspace := sample_isspace;
     decimal_range := sample_decimal_range |}.

End SampleUnicode.

(** ** Exceptions, standard output and the outside world *)

(** Exceptions derived from [Exception]: the only ones an
    [except Exception as e] clause intercepts.  [str(e)] is [exn_msg]. *)
Record exn : Type := Exception { exn_class : string; exn_msg : pystr }.

Inductive result (A : Type) : Type :=
| Ok (a : A)
| Raise (e : exn).
Arguments Ok {A} a.
Arguments Raise {A} e.

(** Python's [float]: every float this program computes is an integer below
    [2^17], the half of such an integer, or a copy of one of the literals
    [-0.5], [0.3], [0.0]; on those values binary64 addition, halving and
    subtraction are exact, so a float is modelled by the rational it
    denotes. *)
Definition float := Q.

(** [datetime]: the proleptic Gregorian ordinal of the day (1 is
    0001-01-01) and the time of the day. *)
Record datetime : Type := Datetime {
  toordinal : Z;
  hour : Z;
  minute : Z;
  second : Z;
  microsecond : Z
}.

(** What the language model is asked: the three values interpolated in the
    prompt template (the rest of the prompt is constant text). *)
Record prompt : Type := Prompt {
  prompt_battery_price : float;
  prompt_change : float;
  prompt_futures_price : float
}.

(** A path: its components, the last one first, so that the parent
    directory is the tail ([[]] is the root). *)
Definition path := list string.

(** The file system as far as [save_data] sees it: the directories that
    exist beside the root and the text files with their contents. *)
Record filesystem : Type := Filesystem {
  fs_dirs : list path;
  fs_files : list (path * pystr)
}.

(** The system calls behind [os.makedirs] and [open(..., 'w')]. *)
Inductive syscall : Type :=
| Mkdir (p : path)
| OpenForWriting (p : path)
| WriteText (p : path) (text : pystr).

(** The collaborators the program cannot control.
    - [clock n] is the value of the [n]-th call of [datetime.now()];
    - [http url] is the outcome of
      [BeautifulSoup(requests.get(url, ...).text, 'html.parser').get_text()]:
      either the visible text of the page or the exception raised on the way;
    - [llm p] is the outcome of
      [client.chat.completions.create(...).choices[0].message.content]:
      the content ([None] is possible) or the exception raised on the way;
    - [os_fault c] is the error, if any, with which the operating system
      refuses the system call [c] (permissions, read-only or full disk);
    - [write_failure p text] is the outcome of writing to the file [p] a
      text that UTF-8 cannot encode: the exception that the codec raises
      (its message names the character and its position in the piece
      being written) and the part of the text that is in the file
      afterwards (what [json.dump] had written before that piece). *)
Record env : Type := Env {
  clock : nat -> datetime;
  http : string -> result pystr;
  llm : prompt -> result (option pystr);
  os_fault : syscall -> option exn;
  write_failure : path -> pystr -> exn * pystr
}.

Record world : Type := World {
  stdout : list pystr;
  clock_reads : nat;
  disk : filesystem
}.

(** The monad of the program: read the environment, thread the world, and
    either return or raise.  The world is kept when an exception is raised:
    what was printed stays printed. *)
Definition M (A : Type) : Type := env -> world -> result A * world.

Definition ret {A} (a : A) : M A := fun _ w => (Ok a, w).

Definition bind {A B} (m : M A) (f : A -> M B) : M B :=
  fun e w =>
    match m e w with
    | (Ok a, w') => f a e w'
    | (Raise x, w') => (Raise x, w')
    end.

Definition raise {A} (x : exn) : M A := fun _ w => (Raise x, w).

(** [try: body except Exception as e: handler e] *)
Definition try_except {A} (body : M A) (handler : exn -> M A) : M A :=
  fun e w =>
    match body e w with
    | (Ok a, w') => (Ok a, w')
    | (Raise x, w') => handler x e w'
    end.

Definition lift {A} (r : result A) : M A := fun _ w => (r, w).

Declare Scope py_scope.
Delimit Scope py_scope with py.
Notation "x <- m ;; k" := (bind m (fun x => k))
  (at level 61, m at next level, right associativity) : py_scope.
Notation "m ;; k" := (bind m (fun _ => k))
  (at level 61, right associativity) : py_scope.
Open Scope py_scope.

(** [print(s)], on a standard output that takes the text: a UTF-8 stream
    takes every text without surrogate code points.  (Where a theorem is
    about a line made of text that comes from outside the program, it says
    by hypothesis that the text can be encoded.) *)
Definition print (s : pystr) : M unit :=
  fun _ w => (Ok tt, World (stdout w ++ [s]) (clock_reads w) (disk w)).

(** [datetime.now()] *)
Definition datetime_now : M datetime :=
  fun e w =>
    (Ok (clock e (clock_reads w)),
     World (stdout w) (S (clock_reads w)) (disk w)).

Definition http_get_text (url : string) : M pystr :=
  fun e w => (http e url, w).

Definition llm_complete (p : prompt) : M (option pystr) :=
  fun e w => (llm e p, w).

(** ** The parts of [datetime] the program calls *)

Module Datetime.

Definition MAXORDINAL : Z := 3652059.

Definition DI400Y : Z := 146097.
Definition DI100Y : Z := 36524.
Definition DI4Y : Z := 1461.

Definition is_leap (year : Z) : bool :=
  (year mod 4 =? 0) && (negb (year mod 100 =? 0) || (year mod 400 =? 0)).

Definition DAYS_IN_MONTH (month : Z) : Z :=
  match month with
  | 1 => 31 | 2 => 28 | 3 => 31 | 4 => 30 | 5 => 31 | 6 => 30
  | 7 => 31 | 8 => 31 | 9 => 30 | 10 => 31 | 11 => 30 | 12 => 31
  | _ => -1
  end.

Definition DAYS_BEFORE_MONTH (month : Z) : Z :=
  match month with
  | 1 => 0 | 2 => 31 | 3 => 59 | 4 => 90 | 5 => 120 | 6 => 151
  | 7 => 181 | 8 => 212 | 9 => 243 | 10 => 273 | 11 => 304 | 12 => 334
  | _ => -1
  end.

Definition b2z (b : bool) : Z := if b then 1 else 0.

(** [_ord2ymd]: ordinal to (year, month, day). *)
Definition ord2ymd (ordinal : Z) : Z * Z * Z :=
  let n := ordinal - 1 in
  let n400 := n / DI400Y in
  let n := n mod DI400Y in
  let year := n400 * 400 + 1 in
  let n100 := n / DI100Y in
  let n := n mod DI100Y in
  let n4 := n / DI4Y in
  let n := n mod DI4Y in
  let n1 := n / 365 in
  let n := n mod 365 in
  let year := year + n100 * 100 + n4 * 4 + n1 in
  if (n1 =? 4) || (n100 =? 4) then (year - 1, 12, 31)
  else
    let leapyear := (n1 =? 3) && (negb (n4 =? 24) || (n100 =? 3)) in
    let month := Z.shiftr (n + 50) 5 in
    let preceding := DAYS_BEFORE_MONTH month + b2z ((2 <? month) && leapyear) in
    if n <? preceding then
      let month := month - 1 in
      let preceding :=
        preceding - (DAYS_IN_MONTH month + b2z ((month =? 2) && leapyear)) in
      (year, month, n - preceding + 1)
    else (year, month, n - preceding + 1).

(** [n] written with exactly [width] decimal digits. *)
Fixpoint zero_padded (width : nat) (n : Z) : pystr :=
  match width with
  | O => []
  | S w => zero_padded w (n / 10) ++ [Z.to_N (48 + n mod 10)]
  end.

Definition hyphen : char := 45%N.

(** [d.strftime('%Y-%m-%d')], the year written with four digits: every
    platform does so from the year 1000 on (below, the C library decides
    whether the year is padded). *)
Definition strftime_Ymd (d : datetime) : pystr :=
  let '(y, m, dd) := ord2ymd (toordinal d) in
  zero_padded 4 y ++ [hyphen] ++ zero_padded 2 m ++ [hyphen]
  ++ zero_padded 2 dd.

(** [d.isoformat()] *)
Definition isoformat (d : datetime) : pystr :=
  strftime_Ymd d ++ [84%N] ++ zero_padded 2 (hour d) ++ [58%N]
  ++ zero_padded 2 (minute d) ++ [58%N] ++ zero_padded 2 (second d)
  ++ (if microsecond d =? 0 then []
      else [46%N] ++ zero_padded 6 (microsecond d)).

Definition overflow_error : exn :=
  Eval vm_compute in
    Exception "OverflowError" (lit "date value out of range").

(** [d - timedelta(days=i)]: the time of the day is kept; a date outside
    0001-01-01 .. 9999-12-31 raises [OverflowError]. *)
Definition sub_days (d : datetime) (i : Z) : result datetime :=
  let o := toordinal d - i in
  if (1 <=? o) && (o <=? MAXORDINAL)
  then Ok (Datetime o (hour d) (minute d) (second d) (microsecond d))
  else Raise overflow_error.

End Datetime.

(** [range(start, stop, step)] as the list it enumerates ([step] is not 0). *)
Definition range_length (start stop step : Z) : Z :=
  if 0 <? step then Z.max 0 ((stop - start + step - 1) / step)
  else Z.max 0 ((start - stop - step - 1) / (- step)).

Definition py_range (start stop step : Z) : list Z :=
  map (fun k => start + Z.of_nat k * step)
      (seq 0 (Z.to_nat (range_length start stop step))).

(** [for x in l: s = body x s] *)
Fixpoint for_each {A S : Type} (l : list A) (body : A -> S -> M S) (s : S)
  : M S :=
  match l with
  | [] => ret s
  | x :: l' => s' <- body x s ;; for_each l' body s'
  end.

(** ** History synthesizer *)

(** One entry of the history: [{'date': ..., 'price': ...}]; the price is a
    Python [int]. *)
Record history_point : Type := HistoryPoint {
  hp_date : pystr;
  hp_price : Z
}.

Definition base_price : Z := 80500.

(** The body of the loop of [generate_price_history]. *)
Definition history_step (i : Z) (history : list history_point)
  : M (list history_point) :=
  now <- datetime_now ;;
  d <- lift (Datetime.sub_days now i) ;;
  let date := Datetime.strftime_Ymd d in
  let price := base_price + (i mod 10) * 500 - 2000 in
  ret (history ++ [HistoryPoint date price]).

Definition generate_price_history : M (list history_point) :=
  for_each (py_range 30 0 (-1)) history_step [].

(** ** The parts of [re] the program calls

    A backtracking matcher in continuation-passing style for the fragment
    of the pattern language the two patterns of the program are written in:
    character classes, literals, concatenation, ordered alternation, greedy
    star, counted repetition and numbered capturing groups. *)

Module Re.

Inductive regex : Type :=
| Rdigit                          (* \d *)
| Rspace                          (* \s *)
| Rchar (c : char)                (* a literal character *)
| Rseq (r1 r2 : regex)            (* r1 r2 *)
| Ralt (r1 r2 : regex)            (* r1|r2 *)
| Rstar (r : regex)               (* r*, greedy *)
| Rrepeat (n : nat) (r : regex)   (* r{n} *)
| Rgroup (i : nat) (r : regex).   (* ( r ), the i-th group *)

(** The groups matched so far, most recent first. *)
Definition captures := list (nat * pystr).

(** [m.group(i)], with the empty string for a group that did not take part
    in the match, as [findall] reports it. *)
Fixpoint group (caps : captures) (i : nat) : pystr :=
  match caps with
  | [] => []
  | (j, s) :: rest => if Nat.eqb i j then s else group rest i
  end.

(** The loop of a greedy star: take one more iteration of [step] if it
    consumes something and the rest of the pattern then succeeds, else stop
    here.  [fuel] exceeds the length of the subject. *)
Definition star_loop {R : Type}
  (step : pystr -> captures -> (pystr -> captures -> option R) -> option R)
  (k : pystr -> captures -> option R)
  : nat -> pystr -> captures -> option R :=
  fix loop (fuel : nat) (s : pystr) (caps : captures) : option R :=
    match fuel with
    | O => k s caps
    | S fuel' =>
        match
          step s caps
            (fun s' caps' =>
               if (List.length s' <? List.length s)%nat
               then loop fuel' s' caps' else None)
        with
        | Some x => Some x
        | None => k s caps
        end
    end.

(** The loop of a counted repetition. *)
Definition repeat_loop {R : Type}
  (step : pystr -> captures -> (pystr -> captures -> option R) -> option R)
  (k : pystr -> captures -> option R)
  : nat -> pystr -> captures -> option R :=
  fix rep (n : nat) (s : pystr) (caps : captures) : option R :=
    match n with
    | O => k s caps
    | S n' => step s caps (rep n')
    end.

Section Engine.

Context `{UnicodeData}.

(** [rmatch r s caps k]: match [r] at the head of [s]; on success hand the
    rest of the subject and the groups to the continuation [k]; when [k]
    fails, backtrack into [r]. *)
Fixpoint rmatch {R : Type} (r : regex) (s : pystr) (caps : captures)
  (k : pystr -> captures -> option R) {struct r} : option R :=
  match r with
  | Rdigit =>
      match s with
      | c :: s' => if isdecimal c then k s' caps else None
      | [] => None
      end
  | Rspace =>
      match s with
      | c :: s' => if isspace c then k s' caps else None
      | [] => None
      end
  | Rchar a =>
      match s with
      | c :: s' => if N.eqb c a then k s' caps else None
      | [] => None
      end
  | Rseq r1 r2 =>
      rmatch r1 s caps (fun s' caps' => rmatch r2 s' caps' k)
  | Ralt r1 r2 =>
      match rmatch r1 s caps k with
      | Some x => Some x
      | None => rmatch r2 s caps k
      end
  | Rstar r1 => star_loop (rmatch r1) k (S (List.length s)) s caps
  | Rrepeat n r1 => repeat_loop (rmatch r1) k n s caps
  | Rgroup i r1 =>
      rmatch r1 s caps
        (fun s' caps' =>
           k s' ((i, firstn (List.length s - List.length s') s) :: caps'))
  end.

(** [pattern.match(s)] at the head of [s]: the rest of the subject after the
    match and the groups. *)
Definition match_at (r : regex) (s : pystr) : option (pystr * captures) :=
  rmatch r s [] (fun s' caps => Some (s', caps)).

(** The scan of [finditer]: try every position from left to right; after a
    match, go on behind it ([skip] characters are still to be jumped over). *)
Fixpoint scan (r : regex) (skip : nat) (s : pystr) : list captures :=
  match skip with
  | S n =>
      match s with
      | [] => []
      | _ :: t => scan r n t
      end
  | O =>
      match match_at r s with
      | Some (s', caps) =>
          caps ::
          match s with
          | [] => []
          | _ :: t => scan r (List.length s - List.length s' - 1) t
          end
      | None =>
          match s with
          | [] => []
          | _ :: t => scan r 0 t
          end
      end
  end.

(** [re.findall(r, s)]: the groups of every match, leftmost first.  For a
    pattern with several groups Python's tuple [(g1, ..., gn)] is read off
    with [group m 1 .. group m n]; for a pattern with one group the element
    is [group m 1]. *)
Definition findall (r : regex) (s : pystr) : list captures := scan r 0 s.

End Engine.

End Re.

(** ** [float()] and [str.strip()] *)

Section Builtins.

Context `{UnicodeData}.

Fixpoint decimal_value (acc : Z) (s : pystr) : option Z :=
  match s with
  | [] => Some acc
  | c :: s' =>
      match decimal c with
      | Some d => decimal_value (10 * acc + d) s'
      | None => None
      end
  end.

Definition value_error : exn :=
  Eval vm_compute in
    Exception "ValueError" (lit "could not convert string to float").

(** [float(s)] for [s] a non-empty string of decimal digits, the only
    strings the program converts.  Any other string is answered with
    [ValueError] (which is what Python does except for the signs, exponents
    and blanks that [float] also accepts and that [\d{5}] never captures). *)
Definition float_of_str (s : pystr) : result float :=
  match s with
  | [] => Raise value_error
  | _ =>
      match decimal_value 0 s with
      | Some n => Ok (inject_Z n)
      | None =>
          Raise value_error
      end
  end.

Fixpoint lstrip (s : pystr) : pystr :=
  match s with
  | c :: s' => if isspace c then lstrip s' else s
  | [] => []
  end.

(** [s.strip()] *)
Definition strip (s : pystr) : pystr := rev (lstrip (rev (lstrip s))).

End Builtins.

(** Truth value of a [str] or of a [list]: non-empty. *)
Definition truthy {A : Type} (l : list A) : bool :=
  match l with [] => false | _ :: _ => true end.

(** ** The file system calls behind [os.makedirs] and [open] *)

Definition file_exists_error : exn :=
  Eval vm_compute in
    Exception "FileExistsError" (lit "[Errno 17] File exists").
Definition file_not_found_error : exn :=
  Eval vm_compute in
    Exception "FileNotFoundError" (lit "[Errno 2] No such file or directory").
Definition not_a_directory_error : exn :=
  Eval vm_compute in
    Exception "NotADirectoryError" (lit "[Errno 20] Not a directory").
Definition is_a_directory_error : exn :=
  Eval vm_compute in
    Exception "IsADirectoryError" (lit "[Errno 21] Is a directory").
Definition path_eqb (p q : path) : bool :=
  if list_eq_dec string_dec p q then true else false.

Definition isdir (p : path) (fs : filesystem) : bool :=
  match p with
  | [] => true
  | _ => existsb (path_eqb p) (fs_dirs fs)
  end.

Definition isfile (p : path) (fs : filesystem) : bool :=
  existsb (fun f => path_eqb p (fst f)) (fs_files fs).

Definition path_exists (p : path) (fs : filesystem) : bool :=
  isdir p fs || isfile p fs.

(** [os.path.dirname] of a path without trailing slash. *)
Definition dirname (p : path) : path := tl p.

(** The components of a path string, split at the slashes. *)
Fixpoint components (s : string) (cur : string) (acc : path) : path :=
  let push := match cur with EmptyString => acc | _ => cur :: acc end in
  match s with
  | EmptyString => push
  | String a s' =>
      if Ascii.eqb a "/" then components s' EmptyString push
      else components s' (cur ++ String a EmptyString) acc
  end.

Definition path_of_string (s : string) : path := components s EmptyString [].

Definition read_file (p : path) (fs : filesystem) : option pystr :=
  match find (fun f => path_eqb p (fst f)) (fs_files fs) with
  | Some f => Some (snd f)
  | None => None
  end.

Definition set_file (p : path) (text : pystr) (fs : filesystem) : filesystem :=
  Filesystem (fs_dirs fs)
    ((p, text) :: filter (fun f => negb (path_eqb p (fst f))) (fs_files fs)).

Definition get_disk : M filesystem := fun _ w => (Ok (disk w), w).

Definition put_disk (fs : filesystem) : M unit :=
  fun _ w => (Ok tt, World (stdout w) (clock_reads w) fs).

Definition check_fault (c : syscall) : M unit :=
  fun e w =>
    match os_fault e c with
    | Some x => (Raise x, w)
    | None => (Ok tt, w)
    end.

(** [os.mkdir(p)] *)
Definition mkdir (p : path) : M unit :=
  check_fault (Mkdir p) ;;
  fs <- get_disk ;;
  if path_exists p fs then raise file_exists_error
  else if isdir (dirname p) fs
       then put_disk (Filesystem (p :: fs_dirs fs) (fs_files fs))
       else if path_exists (dirname p) fs then raise not_a_directory_error
            else raise file_not_found_error.

(** [os.makedirs(name, exist_ok=True)]: create the missing ancestors from
    the top, then the directory itself; an error of the last [mkdir] is
    dropped when the directory is there. *)
Fixpoint makedirs (name : path) : M unit :=
  match name with
  | [] => ret tt
  | _ :: head =>
      fs <- get_disk ;;
      if path_exists head fs then ret tt
      else
        try_except (makedirs head)
          (fun x =>
             if String.eqb (exn_class x) "FileExistsError" then ret tt
             else raise x)
  end ;;
  try_except (mkdir name)
    (fun x =>
       fs <- get_disk ;;
       if isdir name fs then ret tt else raise x).

(** Text that UTF-8 can encode: no surrogate code point. *)
Definition utf8_encodable (text : pystr) : bool :=
  forallb (fun c => (c <? 55296) || ((57343 <? c) && (c <=? 1114111)))%N text.

(** A write that breaks off: the exception is raised and the file keeps the
    part of the text that was written. *)
Definition fail_write (p : path) (text : pystr) : M unit :=
  fun e w =>
    let (x, written) := write_failure e p text in
    (Raise x,
     World (stdout w) (clock_reads w) (set_file p written (disk w))).

(** [with open(p, 'w', encoding='utf-8') as f: json.dump(data, f, ...)],
    where [text] is what [json.dump] writes: opening truncates the file;
    the text is written when it can be encoded and the system accepts
    it. *)
Definition write_text_file (p : path) (text : pystr) : M unit :=
  check_fault (OpenForWriting p) ;;
  fs <- get_disk ;;
  (if isdir p fs then raise is_a_directory_error
   else if isdir (dirname p) fs then put_disk (set_file p [] fs)
        else if path_exists (dirname p) fs then raise not_a_directory_error
             else raise file_not_found_error) ;;
  (if utf8_encodable text then ret tt else fail_write p text) ;;
  check_fault (WriteText p text) ;;
  fs <- get_disk ;;
  put_disk (set_file p text fs).

(** ** The parts of [json] the program calls *)

Module Json.

#[warnings="-register-all"]
Inductive json : Type :=
| JNull
| JBool (b : bool)
| JInt (n : Z)
| JFloat (x : float)
| JString (s : pystr)
| JArray (items : list json)
| JObject (members : list (pystr * json)).

(** The decimal digits of a natural number, most significant first. *)
Fixpoint digits_fuel (fuel : nat) (n : Z) (acc : pystr) : pystr :=
  match fuel with
  | O => acc
  | S fuel' =>
      let acc' := Z.to_N (48 + n mod 10) :: acc in
      if n / 10 =? 0 then acc' else digits_fuel fuel' (n / 10) acc'
  end.

Definition digits (n : Z) : pystr :=
  digits_fuel (S (Z.to_nat (Z.log2 n))) n [].

Definition minus_sign : char := 45%N.

(** [int.__repr__] *)
Definition int_repr (n : Z) : pystr :=
  (if n <? 0 then [minus_sign] else []) ++ digits (Z.abs n).

(** The least number of decimals, between 1 and 17, that writes [x]. *)
Fixpoint find_scale (fuel : nat) (k : nat) (x : Q) : nat :=
  match fuel with
  | O => k
  | S fuel' =>
      if (Qnum x * 10 ^ Z.of_nat k) mod Zpos (Qden x) =? 0 then k
      else find_scale fuel' (S k) x
  end.

(** [float.__repr__] in positional notation: the integer part, a point
    and at least one decimal.  (This is Python's output for the floats
    whose repr needs no exponent, which are the finite floats of magnitude
    between [1e-4] and [1e16], and zero.) *)
Definition float_repr (x : float) : pystr :=
  let k := find_scale 16 1 x in
  let scale := 10 ^ Z.of_nat k in
  let n := Z.abs (Qnum x) * scale / Zpos (Qden x) in
  (if Qnum x <? 0 then [minus_sign] else [])
  ++ digits (n / scale) ++ [46%N] ++ Datetime.zero_padded k (n mod scale).

Definition quote : char := 34%N.
Definition backslash : char := 92%N.

Definition hex_digit (n : N) : char :=
  if (n <? 10)%N then (48 + n)%N else (87 + n)%N.

(** [ESCAPE_DCT]: the replacement of a character inside a string when
    [ensure_ascii] is false; only the quote, the backslash and the control
    characters are escaped. *)
Definition escape_char (c : char) : pystr :=
  if (c =? 34)%N then [backslash; quote]
  else if (c =? 92)%N then [backslash; backslash]
  else if (c =? 10)%N then [backslash; 110%N]
  else if (c =? 13)%N then [backslash; 114%N]
  else if (c =? 9)%N then [backslash; 116%N]
  else if (c =? 8)%N then [backslash; 98%N]
  else if (c =? 12)%N then [backslash; 102%N]
  else if (c <? 32)%N then
    [backslash; 117%N; 48%N; 48%N; hex_digit (c / 16); hex_digit (c mod 16)]
  else [c].

(** [py_encode_basestring] *)
Definition encode_string (s : pystr) : pystr :=
  [quote] ++ flat_map escape_char s ++ [quote].

Definition newline_indent (level : nat) : pystr :=
  10%N :: repeat 32%N (2 * level).

(** [JSONEncoder(ensure_ascii=False, indent=2).encode], at nesting depth
    [level]. *)
Fixpoint encode (level : nat) (j : json) : pystr :=
  match j with
  | JNull => [110; 117; 108; 108]%N
  | JBool true => [116; 114; 117; 101]%N
  | JBool false => [102; 97; 108; 115; 101]%N
  | JInt n => int_repr n
  | JFloat x => float_repr x
  | JString s => encode_string s
  | JArray [] => [91; 93]%N
  | JArray (x :: items) =>
      [91%N] ++ newline_indent (S level) ++ encode (S level) x
      ++ (fix rest (l : list json) : pystr :=
            match l with
            | [] => []
            | y :: l' =>
                [44%N] ++ newline_indent (S level) ++ encode (S level) y
                ++ rest l'
            end) items
      ++ newline_indent level ++ [93%N]
  | JObject [] => [123; 125]%N
  | JObject ((k, v) :: members) =>
      [123%N] ++ newline_indent (S level)
      ++ encode_string k ++ [58; 32]%N ++ encode (S level) v
      ++ (fix rest (l : list (pystr * json)) : pystr :=
            match l with
            | [] => []
            | (k', v') :: l' =>
                [44%N] ++ newline_indent (S level)
                ++ encode_string k' ++ [58; 32]%N ++ encode (S level) v'
                ++ rest l'
            end) members
      ++ newline_indent level ++ [125%N]
  end.

(** [json.dumps(j, ensure_ascii=False, indent=2)] *)
Definition dumps (j : json) : pystr := encode 0 j.

(** The decoder.  [WHITESPACE] is blank, tab, line feed, carriage return. *)
Definition is_ws (c : char) : bool :=
  ((c =? 32) || (c =? 9) || (c =? 10) || (c =? 13))%N.

Fixpoint skip_ws (s : pystr) : pystr :=
  match s with
  | c :: s' => if is_ws c then skip_ws s' else s
  | [] => []
  end.

(** [[0-9]] *)
Definition is_digit (c : char) : bool := ((48 <=? c) && (c <=? 57))%N.

(** The longest run of digits at the head of [s], and what follows. *)
Fixpoint take_digits (s : pystr) : pystr * pystr :=
  match s with
  | c :: s' =>
      if is_digit c
      then let (d, r) := take_digits s' in (c :: d, r)
      else ([], s)
  | [] => ([], [])
  end.

Definition digits_to_Z (d : pystr) : Z :=
  fold_left (fun acc c => 10 * acc + (Z.of_N c - 48)) d 0.

(** The integer part of [NUMBER_RE]: [0|[1-9][0-9]*]. *)
Definition take_integer (s : pystr) : option (pystr * pystr) :=
  match s with
  | c :: s' =>
      if (c =? 48)%N then Some ([c], s')
      else if is_digit c then Some (take_digits s)
      else None
  | [] => None
  end.

(** The fraction of [NUMBER_RE]: [(\.[0-9]+)?]. *)
Definition take_fraction (s : pystr) : pystr * pystr :=
  match s with
  | c :: s' =>
      if (c =? 46)%N then
        match take_digits s' with
        | ([], _) => ([], s)
        | (d, r) => (d, r)
        end
      else ([], s)
  | [] => ([], s)
  end.

(** An optional sign. *)
Definition take_sign (s : pystr) : bool * pystr :=
  match s with
  | c :: s' =>
      if (c =? 45)%N then (true, s')
      else if (c =? 43)%N then (false, s')
      else (false, s)
  | [] => (false, s)
  end.

(** The exponent of [NUMBER_RE]: [([eE][-+]?[0-9]+)?], as a number; [None]
    when there is none. *)
Definition take_exponent (s : pystr) : option Z * pystr :=
  match s with
  | c :: s' =>
      if ((c =? 101) || (c =? 69))%N then
        let '(negative, s'') := take_sign s' in
        match take_digits s'' with
        | ([], _) => (None, s)
        | (d, r) =>
            (Some (if negative then - digits_to_Z d else digits_to_Z d), r)
        end
      else (None, s)
  | [] => (None, s)
  end.

(** [float(text)] of a number with a fraction or an exponent: the decimal
    it writes. *)
Definition decimal_float (negative : bool) (int frac : pystr)
  (exponent : Z) : float :=
  let k := Z.of_nat (List.length frac) in
  let n := digits_to_Z int * 10 ^ k + digits_to_Z frac in
  let n := if negative then - n else n in
  let e := exponent - k in
  Qred (if e <? 0 then Qmake n (Z.to_pos (10 ^ (- e)))
        else inject_Z (n * 10 ^ e)).

(** [NUMBER_RE.match] and the conversion of what it matched: an [int] when
    there is neither fraction nor exponent, a [float] otherwise. *)
Definition scan_number (s : pystr) : option (json * pystr) :=
  let '(negative, s1) :=
    match s with
    | c :: s' => if (c =? 45)%N then (true, s') else (false, s)
    | [] => (false, s)
    end in
  match take_integer s1 with
  | None => None
  | Some (int, s2) =>
      let '(frac, s3) := take_fraction s2 in
      let '(exponent, s4) := take_exponent s3 in
      match frac, exponent with
      | [], None =>
          Some (JInt (if negative then - digits_to_Z int
                      else digits_to_Z int), s4)
      | _, None => Some (JFloat (decimal_float negative int frac 0), s4)
      | _, Some e => Some (JFloat (decimal_float negative int frac e), s4)
      end
  end.

Definition hex_value (c : char) : option N :=
  if ((48 <=? c) && (c <=? 57))%N then Some (c - 48)%N
  else if ((97 <=? c) && (c <=? 102))%N then Some (c - 87)%N
  else if ((65 <=? c) && (c <=? 70))%N then Some (c - 55)%N
  else None.

(** [_decode_uXXXX] *)
Definition decode_hex4 (a b c d : char) : option N :=
  match hex_value a, hex_value b, hex_value c, hex_value d with
  | Some x, Some y, Some z, Some t =>
      Some (((x * 16 + y) * 16 + z) * 16 + t)%N
  | _, _, _, _ => None
  end.

(** [BACKSLASH]: the characters of the two-character escapes. *)
Definition unescape (c : char) : option char :=
  if (c =? 34)%N then Some 34%N
  else if (c =? 92)%N then Some 92%N
  else if (c =? 47)%N then Some 47%N
  else if (c =? 98)%N then Some 8%N
  else if (c =? 102)%N then Some 12%N
  else if (c =? 110)%N then Some 10%N
  else if (c =? 114)%N then Some 13%N
  else if (c =? 116)%N then Some 9%N
  else None.

Definition is_high_surrogate (c : N) : bool :=
  ((55296 <=? c) && (c <=? 56319))%N.
Definition is_low_surrogate (c : N) : bool :=
  ((56320 <=? c) && (c <=? 57343))%N.

(** One more character in front of what the rest of the string gives. *)
Definition cons_char (c : char) (r : option (pystr * pystr))
  : option (pystr * pystr) :=
  match r with
  | Some (str, rest) => Some (c :: str, rest)
  | None => None
  end.

(** [py_scanstring], strict: from behind the opening quote to behind the
    closing one. *)
Fixpoint scan_string (s : pystr) : option (pystr * pystr) :=
  match s with
  | [] => None
  | c :: s1 =>
      if (c =? 34)%N then Some ([], s1)
      else if (c =? 92)%N then
        match s1 with
        | [] => None
        | esc :: s2 =>
            if (esc =? 117)%N then
              match s2 with
              | a :: b :: c4 :: d :: s3 =>
                  match decode_hex4 a b c4 d with
                  | Some uni =>
                      if is_high_surrogate uni then
                        match s3 with
                        | b1 :: b2 :: a' :: b' :: c' :: d' :: s4 =>
                            if ((b1 =? 92) && (b2 =? 117))%N then
                              match decode_hex4 a' b' c' d' with
                              | Some uni2 =>
                                  if is_low_surrogate uni2 then
                                    cons_char
                                      (65536 + (uni - 55296) * 1024
                                       + (uni2 - 56320))%N
                                      (scan_string s4)
                                  else cons_char uni (scan_string s3)
                              | None => None
                              end
                            else cons_char uni (scan_string s3)
                        | _ => cons_char uni (scan_string s3)
                        end
                      else cons_char uni (scan_string s3)
                  | None => None
                  end
              | _ => None
              end
            else
              match unescape esc with
              | Some ch => cons_char ch (scan_string s2)
              | None => None
              end
        end
      else if (c <? 32)%N then None
      else cons_char c (scan_string s1)
  end.

Definition str_eqb (s t : pystr) : bool :=
  if list_eq_dec N.eq_dec s t then true else false.

(** [d[k] = v] on a dictionary kept in insertion order. *)
Fixpoint dict_set (k : pystr) (v : json) (d : list (pystr * json))
  : list (pystr * json) :=
  match d with
  | [] => [(k, v)]
  | (k', v') :: d' =>
      if str_eqb k k' then (k', v) :: d' else (k', v') :: dict_set k v d'
  end.

(** [dict(pairs)] *)
Definition dict_of_pairs (pairs : list (pystr * json))
  : list (pystr * json) :=
  fold_left (fun d kv => dict_set (fst kv) (snd kv) d) pairs [].

(** [s] without the prefix [p], when it begins with [p]. *)
Fixpoint strip_prefix (p s : pystr) : option pystr :=
  match p with
  | [] => Some s
  | a :: p' =>
      match s with
      | b :: s' => if (a =? b)%N then strip_prefix p' s' else None
      | [] => None
      end
  end.

(** The literals [null], [true] and [false]. *)
Definition scan_literal (s : pystr) : option (json * pystr) :=
  match strip_prefix [110; 117; 108; 108]%N s with
  | Some r => Some (JNull, r)
  | None =>
      match strip_prefix [116; 114; 117; 101]%N s with
      | Some r => Some (JBool true, r)
      | None =>
          match strip_prefix [102; 97; 108; 115; 101]%N s with
          | Some r => Some (JBool false, r)
          | None => None
          end
      end
  end.

(** Is the head of [s] the character [c]? *)
Definition head_is (c : char) (s : pystr) : bool :=
  match s with
  | a :: _ => (a =? c)%N
  | [] => false
  end.

(** [scan_once], [JSONArray] and [JSONObject].  [fuel] bounds the depth of
    the calls; the length of the text is enough.  ([NaN] and the
    infinities, which no rational denotes, are not read.) *)
Fixpoint scan_once (fuel : nat) (s : pystr) {struct fuel}
  : option (json * pystr) :=
  match fuel with
  | O => None
  | S fuel' =>
      if head_is 34%N s then
        match scan_string (tl s) with
        | Some (str, r) => Some (JString str, r)
        | None => None
        end
      else if head_is 123%N s then
        let s2 := skip_ws (tl s) in
        if head_is 125%N s2 then Some (JObject [], tl s2)
        else
          match scan_members fuel' s2 with
          | Some (pairs, r) => Some (JObject (dict_of_pairs pairs), r)
          | None => None
          end
      else if head_is 91%N s then
        let s2 := skip_ws (tl s) in
        if head_is 93%N s2 then Some (JArray [], tl s2)
        else
          match scan_items fuel' s2 with
          | Some (values, r) => Some (JArray values, r)
          | None => None
          end
      else
        match scan_literal s with
        | Some r => Some r
        | None => scan_number s
        end
  end

with scan_items (fuel : nat) (s : pystr) {struct fuel}
  : option (list json * pystr) :=
  match fuel with
  | O => None
  | S fuel' =>
      match scan_once fuel' s with
      | Some (value, r) =>
          let r1 := skip_ws r in
          if head_is 44%N r1 then
            match scan_items fuel' (skip_ws (tl r1)) with
            | Some (values, r2) => Some (value :: values, r2)
            | None => None
            end
          else if head_is 93%N r1 then Some ([value], tl r1)
          else None
      | None => None
      end
  end

with scan_members (fuel : nat) (s : pystr) {struct fuel}
  : option (list (pystr * json) * pystr) :=
  match fuel with
  | O => None
  | S fuel' =>
      if head_is 34%N s then
        match scan_string (tl s) with
        | Some (key, r) =>
            let r1 := skip_ws r in
            if head_is 58%N r1 then
              match scan_once fuel' (skip_ws (tl r1)) with
              | Some (value, r2) =>
                  let r3 := skip_ws r2 in
                  if head_is 44%N r3 then
                    match scan_members fuel' (skip_ws (tl r3)) with
                    | Some (pairs, r4) => Some ((key, value) :: pairs, r4)
                    | None => None
                    end
                  else if head_is 125%N r3 then Some ([(key, value)], tl r3)
                  else None
              | None => None
              end
            else None
        | None => None
        end
      else None
  end.

(** [json.loads(s)] *)
Definition loads (s : pystr) : option json :=
  match scan_once (S (List.length s)) (skip_ws s) with
  | Some (j, r) =>
      match skip_ws r with
      | [] => Some j
      | _ => None
      end
  | None => None
  end.

End Json.

(** ** The class [LithiumMarketDataFetcher] *)

Section Fetcher.

Context `{UnicodeData}.

(** [self.data_file] and [self.history_file] *)
Definition data_file : string :=
  "/home/ubuntu/lithium_market_report/data/market_data.json".
Definition history_file : string :=
  "/home/ubuntu/lithium_market_report/data/price_history.json".

(** *** Spot price fetcher *)

(** The dictionary [price_data] of [fetch_smm_price]; the two prices start
    as [None]. *)
Record price_data : Type := PriceData {
  pd_date : pystr;
  battery_grade_price : option float;
  industrial_grade_price : option float;
  change : float
}.

Definition set_battery_grade_price (v : option float) (p : price_data) :=
  PriceData (pd_date p) v (industrial_grade_price p) (change p).
Definition set_industrial_grade_price (v : option float) (p : price_data) :=
  PriceData (pd_date p) (battery_grade_price p) v (change p).
Definition set_change (v : float) (p : price_data) :=
  PriceData (pd_date p) (battery_grade_price p) (industrial_grade_price p) v.

Definition smm_url : string := "https://hq.smm.cn/h5/Li2CO3".

(** [\d{5}] *)
Definition five_digits : Re.regex := Re.Rrepeat 5 Re.Rdigit.

(** [(\d{5})\s*-\s*(\d{5})], the first alternative of the pattern *)
Definition smm_pair_pattern : Re.regex :=
  Re.Rseq (Re.Rgroup 1 five_digits)
    (Re.Rseq (Re.Rstar Re.Rspace)
       (Re.Rseq (Re.Rchar Datetime.hyphen)
          (Re.Rseq (Re.Rstar Re.Rspace) (Re.Rgroup 2 five_digits)))).

(** [r'(\d{5})\s*-\s*(\d{5})|(\d{5})'] *)
Definition smm_price_pattern : Re.regex :=
  Re.Ralt smm_pair_pattern (Re.Rgroup 3 five_digits).

Definition smm_warning : pystr :=
  Eval vm_compute in lit "⚠️ SMM 页面爬取失败，使用模拟数据演示".
Definition smm_error_prefix : pystr :=
  Eval vm_compute in lit "❌ 爬取 SMM 数据失败: ".
Definition smm_error (e : exn) : pystr := smm_error_prefix ++ exn_msg e.

(** The [if matches:] block: [matches[0]] carries the groups as
    [matches[0][0]], [matches[0][1]], [matches[0][2]]. *)
Definition smm_extract (matches : list Re.captures) (p : price_data)
  : M price_data :=
  match matches with
  | m :: _ =>
      if truthy (Re.group m 1) then
        low <- lift (float_of_str (Re.group m 1)) ;;
        high <- lift (float_of_str (Re.group m 2)) ;;
        ret (set_battery_grade_price (Some ((low + high) / 2)%Q) p)
      else if truthy (Re.group m 3) then
        v <- lift (float_of_str (Re.group m 3)) ;;
        ret (set_battery_grade_price (Some v) p)
      else ret p
  | [] => ret p
  end.

Definition fetch_smm_price : M price_data :=
  try_except
    (text <- http_get_text smm_url ;;
     now <- datetime_now ;;
     let price_data := PriceData (Datetime.strftime_Ymd now) None None 0%Q in
     let matches := Re.findall smm_price_pattern text in
     price_data <- smm_extract matches price_data ;;
     match battery_grade_price price_data with
     | None =>
         print smm_warning ;;
         ret (set_change (-1 # 2)%Q
                (set_industrial_grade_price (Some 78300%Q)
                   (set_battery_grade_price (Some 80500%Q) price_data)))
     | Some battery =>
         ret (set_change (-1 # 2)%Q
                (set_industrial_grade_price (Some (battery - 2200)%Q)
                   price_data))
     end)
    (fun e =>
       print (smm_error e) ;;
       now <- datetime_now ;;
       ret (PriceData (Datetime.strftime_Ymd now)
              (Some 80500%Q) (Some 78300%Q) (-1 # 2)%Q)).

(** *** Futures price fetcher *)

Record futures_data : Type := FuturesData {
  futures_price : option float;
  futures_change : float
}.

Definition futures_url : string :=
  "https://quote.eastmoney.com/qihuo/lcm.html".

(** [r'(\d{5})'] *)
Definition futures_price_pattern : Re.regex := Re.Rgroup 1 five_digits.

Definition futures_warning : pystr :=
  Eval vm_compute in lit "⚠️ 期货数据爬取失败，使用模拟数据演示".
Definition futures_error_prefix : pystr :=
  Eval vm_compute in lit "❌ 爬取期货数据失败: ".
Definition futures_error (e : exn) : pystr :=
  futures_error_prefix ++ exn_msg e.

Definition fetch_futures_price : M futures_data :=
  try_except
    (text <- http_get_text futures_url ;;
     let futures_data := FuturesData None 0%Q in
     let matches := Re.findall futures_price_pattern text in
     futures_data <-
       match matches with
       | m :: _ =>
           v <- lift (float_of_str (Re.group m 1)) ;;
           ret (FuturesData (Some v) (3 # 10)%Q)
       | [] => ret futures_data
       end ;;
     match futures_price futures_data with
     | None =>
         print futures_warning ;;
         ret (FuturesData (Some 79800%Q) (3 # 10)%Q)
     | Some _ => ret futures_data
     end)
    (fun e =>
       print (futures_error e) ;;
       ret (FuturesData (Some 79800%Q) (3 # 10)%Q)).

(** *** Aggregator *)

Record spot_record : Type := SpotRecord {
  battery_grade : option float;
  industrial_grade : option float;
  spot_daily_change_percent : float
}.

Record futures_record : Type := FuturesRecord {
  lc_main : option float;
  futures_daily_change_percent : float
}.

(** The dictionary [market_data].  The key ['ai_analysis'] is absent until
    [main] stores the summary: [None] stands for the absent key. *)
Record market_data : Type := MarketData {
  md_timestamp : pystr;
  md_date : pystr;
  md_spot_price : spot_record;
  md_futures_price : futures_record;
  md_price_history : list history_point;
  md_ai_analysis : option pystr
}.

Definition fetching_banner : pystr :=
  Eval vm_compute in lit "📊 正在获取市场数据...".

Definition fetch_all_data : M market_data :=
  print fetching_banner ;;
  spot_price <- fetch_smm_price ;;
  futures <- fetch_futures_price ;;
  price_history <- generate_price_history ;;
  now <- datetime_now ;;
  ret (MarketData (Datetime.isoformat now) (pd_date spot_price)
         (SpotRecord (battery_grade_price spot_price)
            (industrial_grade_price spot_price) (change spot_price))
         (FuturesRecord (futures_price futures) (futures_change futures))
         price_history None).

(** *** Summary generator *)

(** [f"{v:.0f}"]: formatting [None] with a float format raises
    [TypeError]; a float is formatted without failure. *)
Definition format_type_error : exn :=
  Eval vm_compute in
    Exception "TypeError"
      (lit "unsupported format string passed to NoneType.__format__").

Definition format_float (v : option float) : result float :=
  match v with
  | Some x => Ok x
  | None => Raise format_type_error
  end.

(** [content.strip()], where [content] may be [None]. *)
Definition strip_attribute_error : exn :=
  Eval vm_compute in
    Exception "AttributeError"
      (lit "'NoneType' object has no attribute 'strip'").

Definition str_strip (content : option pystr) : result pystr :=
  match content with
  | Some s => Ok (strip s)
  | None => Raise strip_attribute_error
  end.

Definition Qltb (x y : Q) : bool := negb (Qle_bool y x).

Definition analysis_banner : pystr :=
  Eval vm_compute in lit "🤖 AI 分析摘要: ".
Definition analysis_warning_prefix : pystr :=
  Eval vm_compute in lit "⚠️ AI 分析生成失败: ".
Definition analysis_warning_suffix : pystr :=
  Eval vm_compute in lit "，使用默认摘要".
Definition analysis_warning (e : exn) : pystr :=
  analysis_warning_prefix ++ exn_msg e ++ analysis_warning_suffix.

Definition canned_rising : pystr :=
  Eval vm_compute in
    lit "今日电池级碳酸锂价格小幅上涨，市场供需关系相对均衡。期货主力合约跟涨，显示市场情绪稳定。".
Definition canned_falling : pystr :=
  Eval vm_compute in
    lit "今日电池级碳酸锂价格小幅下跌，市场观望情绪浓厚。期货主力合约走势疲弱，建议关注下游备货节奏。".
Definition canned_flat : pystr :=
  Eval vm_compute in
    lit "今日电池级碳酸锂价格保持稳定，市场交投清淡。期货主力合约横盘整理，等待新的市场信号。".

Definition generate_ai_analysis (market_data : market_data) : M pystr :=
  try_except
    (let change := spot_daily_change_percent (md_spot_price market_data) in
     battery_price <-
       lift (format_float (battery_grade (md_spot_price market_data))) ;;
     futures_price <-
       lift (format_float (lc_main (md_futures_price market_data))) ;;
     content <- llm_complete (Prompt battery_price change futures_price) ;;
     analysis <- lift (str_strip content) ;;
     print (analysis_banner ++ analysis) ;;
     ret analysis)
    (fun e =>
       print (analysis_warning e) ;;
       let change := spot_daily_change_percent (md_spot_price market_data) in
       if Qltb 0 change then ret canned_rising
       else if Qltb change 0 then ret canned_falling
       else ret canned_flat).

(** *** Persistence *)

(** **** [save_data] and [main] *)

(** The keys of the dictionaries. *)
Definition key_date : pystr := Eval vm_compute in lit "date".
Definition key_price : pystr := Eval vm_compute in lit "price".
Definition key_timestamp : pystr := Eval vm_compute in lit "timestamp".
Definition key_spot_price : pystr := Eval vm_compute in lit "spot_price".
Definition key_battery_grade : pystr := Eval vm_compute in lit "battery_grade".
Definition key_industrial_grade : pystr := Eval vm_compute in lit "industrial_grade".
Definition key_daily_change_percent : pystr := Eval vm_compute in lit "daily_change_percent".
Definition key_futures_price : pystr := Eval vm_compute in lit "futures_price".
Definition key_lc_main : pystr := Eval vm_compute in lit "lc_main".
Definition key_price_history : pystr := Eval vm_compute in lit "price_history".
Definition key_ai_analysis : pystr := Eval vm_compute in lit "ai_analysis".

Definition json_of_price (v : option float) : Json.json :=
  match v with
  | Some x => Json.JFloat x
  | None => Json.JNull
  end.

Definition json_of_point (p : history_point) : Json.json :=
  Json.JObject [(key_date, Json.JString (hp_date p));
                (key_price, Json.JInt (hp_price p))].

(** The dictionary [market_data] as the JSON value that [json] sees, the
    keys in insertion order. *)
Definition json_of_market_data (m : market_data) : Json.json :=
  Json.JObject
    ([(key_timestamp, Json.JString (md_timestamp m));
      (key_date, Json.JString (md_date m));
      (key_spot_price,
        Json.JObject
          [(key_battery_grade,
             json_of_price (battery_grade (md_spot_price m)));
           (key_industrial_grade,
             json_of_price (industrial_grade (md_spot_price m)));
           (key_daily_change_percent,
             Json.JFloat (spot_daily_change_percent (md_spot_price m)))]);
      (key_futures_price,
        Json.JObject
          [(key_lc_main, json_of_price (lc_main (md_futures_price m)));
           (key_daily_change_percent,
             Json.JFloat
               (futures_daily_change_percent (md_futures_price m)))]);
      (key_price_history,
        Json.JArray (map json_of_point (md_price_history m)))]
     ++ match md_ai_analysis m with
        | Some a => [(key_ai_analysis, Json.JString a)]
        | None => []
        end).

Definition saved_banner : pystr :=
  Eval vm_compute in lit ("✅ 数据已保存到 " ++ data_file).

Definition save_data (data : market_data) : M unit :=
  makedirs (dirname (path_of_string data_file)) ;;
  write_text_file (path_of_string data_file)
    (Json.dumps (json_of_market_data data)) ;;
  print saved_banner.

(** [market_data['ai_analysis'] = ai_analysis] *)
Definition set_ai_analysis (a : pystr) (m : market_data) : market_data :=
  MarketData (md_timestamp m) (md_date m) (md_spot_price m)
    (md_futures_price m) (md_price_history m) (Some a).

(** The report [main] builds: its first three statements. *)
Definition main_report : M market_data :=
  market_data <- fetch_all_data ;;
  ai_analysis <- generate_ai_analysis market_data ;;
  ret (set_ai_analysis ai_analysis market_data).

Definition done_banner : pystr :=
  Eval vm_compute in 10%N :: lit "📈 市场数据获取完成！".

Definition main : M unit :=
  market_data <- main_report ;;
  save_data market_data ;;
  print done_banner ;;
  print (Json.dumps (json_of_market_data market_data)).

End Fetcher.

(** ** Vocabulary of the specification *)

(** The date string of the day with ordinal [o]. *)
Definition date_string (o : Z) : pystr :=
  Datetime.strftime_Ymd (Datetime o 0 0 0 0).

(** The ordinal of 1000-01-01, the first day whose year every platform
    writes with four digits. *)
Definition year_1000 : Z := 364878.

Definition price_of (i : Z) : Z := base_price + (i mod 10) * 500 - 2000.

Definition tick (n : nat) (w : world) : world :=
  World (stdout w) (clock_reads w + n) (disk w).

(** The points the loop appends when it runs over the indices [l], the
    first clock reading being the [n]-th. *)
Fixpoint points (e : env) (n : nat) (l : list Z) : list history_point :=
  match l with
  | [] => []
  | i :: l' =>
      HistoryPoint (date_string (toordinal (clock e n) - i)) (price_of i)
        :: points e (S n) l'
  end.

(** *** What a match is

    The declarative reading of a pattern: [matches r s caps s' caps'] holds
    when [r] can consume a prefix of [s] leaving [s'], extending the groups
    [caps] to [caps'].  The matcher [Re.rmatch] explores these derivations
    in priority order. *)

Section Matches.

Context `{UnicodeData}.

Inductive matches : Re.regex -> pystr -> Re.captures -> pystr -> Re.captures -> Prop :=
| M_digit c s caps :
    isdecimal c = true -> matches Re.Rdigit (c :: s) caps s caps
| M_space c s caps :
    isspace c = true -> matches Re.Rspace (c :: s) caps s caps
| M_char c s caps :
    matches (Re.Rchar c) (c :: s) caps s caps
| M_seq r1 r2 s caps s1 caps1 s2 caps2 :
    matches r1 s caps s1 caps1 -> matches r2 s1 caps1 s2 caps2 ->
    matches (Re.Rseq r1 r2) s caps s2 caps2
| M_alt_l r1 r2 s caps s' caps' :
    matches r1 s caps s' caps' -> matches (Re.Ralt r1 r2) s caps s' caps'
| M_alt_r r1 r2 s caps s' caps' :
    matches r2 s caps s' caps' -> matches (Re.Ralt r1 r2) s caps s' caps'
| M_star_stop r s caps :
    matches (Re.Rstar r) s caps s caps
| M_star_more r s caps s1 caps1 s2 caps2 :
    matches r s caps s1 caps1 -> (List.length s1 < List.length s)%nat ->
    matches (Re.Rstar r) s1 caps1 s2 caps2 ->
    matches (Re.Rstar r) s caps s2 caps2
| M_repeat_0 r s caps :
    matches (Re.Rrepeat 0 r) s caps s caps
| M_repeat_S n r s caps s1 caps1 s2 caps2 :
    matches r s caps s1 caps1 -> matches (Re.Rrepeat n r) s1 caps1 s2 caps2 ->
    matches (Re.Rrepeat (S n) r) s caps s2 caps2
| M_group i r s caps s' caps' :
    matches r s caps s' caps' ->
    matches (Re.Rgroup i r) s caps s'
      ((i, firstn (List.length s - List.length s') s) :: caps').

(** [s] is a string of exactly five decimal digits. *)
Definition five_decimals (s : pystr) : Prop :=
  List.length s = 5%nat /\ Forall (fun c => isdecimal c = true) s.

(** The text has five decimal digits in a row somewhere. *)
Definition has_five_decimals (text : pystr) : Prop :=
  exists before d after, text = before ++ d ++ after /\ five_decimals d.

End Matches.

Section Shapes.

Context `{UnicodeData}.

Definition spaces (ws : pystr) : Prop := Forall (fun c => isspace c = true) ws.

(** [after] begins with optional blanks, a hyphen, optional blanks and the
    five decimal digits [hi]; [rest] is what follows. *)
Definition pair_tail (after hi rest : pystr) : Prop :=
  exists ws1 ws2,
    spaces ws1 /\ spaces ws2 /\ five_decimals hi /\
    after = ws1 ++ Datetime.hyphen :: ws2 ++ hi ++ rest.

(** [d] is the leftmost run of five decimal digits of [text], found after
    [before] and followed by [after]. *)
Definition first_five_decimals (text before d after : pystr) : Prop :=
  text = before ++ d ++ after /\ five_decimals d /\
  (forall before1 d1 after1,
     text = before1 ++ d1 ++ after1 -> five_decimals d1 ->
     (List.length before <= List.length before1)%nat).

End Shapes.

Section Values.

Context `{UnicodeData}.

(** The number a string of decimal digits writes. *)
Definition digits_value (d : pystr) : Z :=
  match decimal_value 0 d with
  | Some n => n
  | None => 0
  end.

(** The spot page gives no price: the fetch raised, or the text has no five
    decimal digits in a row. *)
Definition no_price (page : result pystr) : Prop :=
  match page with
  | Raise _ => True
  | Ok text => ~ has_five_decimals text
  end.

End Values.

(** The date string the fetchers stamp their result with when the next
    clock reading is taken in world [w]. *)
Definition today_string (e : env) (w : world) : pystr :=
  Datetime.strftime_Ymd (clock e (clock_reads w)).

(** World [w] after one more line on standard output. *)
Definition printed (line : pystr) (w : world) : world :=
  World (stdout w ++ [line]) (clock_reads w) (disk w).

(** The dictionary [fetch_smm_price] returns with both prices set. *)
Definition smm_prices (e : env) (w : world) (battery industrial : float)
  : price_data :=
  PriceData (today_string e w) (Some battery) (Some industrial) (-1 # 2)%Q.

Section SpotOutcome.

Context `{UnicodeData}.

(** The battery-grade price the success path derives from the leftmost run
    of five decimal digits [lo] and what follows it: the midpoint when a
    pair is matched, the number itself otherwise. *)
Definition spot_price_from (lo after : pystr) (battery : float) : Prop :=
  (exists hi rest,
     pair_tail after hi rest /\
     battery
     = ((inject_Z (digits_value lo) + inject_Z (digits_value hi)) / 2)%Q)
  \/ ((forall hi rest, ~ pair_tail after hi rest) /\
      battery = inject_Z (digits_value lo)).

End SpotOutcome.

(** ** Sample inputs *)

Module Sample.

(** A clock that always reads 2024-11-05 09:30:05. *)
Definition clock_2024_11_05 : nat -> datetime :=
  fun _ => Datetime 739195 9 30 5 0.

Definition timeout : exn :=
  Eval vm_compute in Exception "Timeout" (lit "timed out").

(** A write that breaks off at its first piece: nothing is in the file. *)
Definition encode_error : exn :=
  Eval vm_compute in
    Exception "UnicodeEncodeError"
      (lit "'utf-8' codec can't encode character '\ud800' in position 1: surrogates not allowed").

Definition nothing_written : path -> pystr -> exn * pystr :=
  fun _ _ => (encode_error, []).

(** An environment from the outcome of the two page fetches, the answer
    of the language model and the faults of the operating system. *)
Definition env_of (spot futures : result pystr)
  (answer : result (option pystr)) (fault : syscall -> option exn) : env :=
  Env clock_2024_11_05
    (fun url => if String.eqb url smm_url then spot else futures)
    (fun _ => answer) fault nothing_written.

Definition no_fault : syscall -> option exn := fun _ => None.

(** An empty disk, nothing printed, the clock not yet read. *)
Definition empty_world : world := World [] 0 (Filesystem [] []).

(** Both pages unreachable and the language model too. *)
Definition offline : env :=
  env_of (Raise timeout) (Raise timeout) (Raise timeout) no_fault.

(** A page that quotes a stock code before the price. *)
Definition stock_code_page : pystr :=
  Eval vm_compute in lit "平安银行 000001 碳酸锂 80500".

(** A page that quotes a price range. *)
Definition range_page : pystr :=
  Eval vm_compute in lit "电池级碳酸锂 80500 - 82300 元/吨".

(** The spot page is [range_page], the rest is unreachable. *)
Definition range_env : env :=
  env_of (Ok range_page) (Raise timeout) (Raise timeout) no_fault.

(** The spot page is [stock_code_page], the rest is unreachable. *)
Definition stock_code_env : env :=
  env_of (Ok stock_code_page) (Raise timeout) (Raise timeout) no_fault.

(** A report made of the fallback values, without history. *)
Definition fallback_report : market_data :=
  MarketData [] [] (SpotRecord (Some 80500%Q) (Some 78300%Q) (-1 # 2)%Q)
    (FuturesRecord (Some 79800%Q) (3 # 10)%Q) [] None.

End Sample.

(** The language model gives no usable answer: the call raises, or the
    content of the answer is [None]. *)
Definition llm_fails (e : env) : Prop :=
  forall p, match llm e p with
            | Raise _ => True
            | Ok None => True
            | Ok (Some _) => False
            end.

(** What the [except] branch of [generate_ai_analysis] returns. *)
Definition canned_summary (change : float) : pystr :=
  if Qltb 0 change then canned_rising
  else if Qltb change 0 then canned_falling
  else canned_flat.


(** Both page fetches raise. *)
Definition both_fetchers_fail (e : env) : Prop :=
  (exists x, http e smm_url = Raise x) /\
  (exists x, http e futures_url = Raise x).

(** Every reading of the clock is a date from 0001-01-31 on, so that thirty
    days before it is still a date. *)
Definition clock_in_range (e : env) : Prop :=
  forall n, 30 < toordinal (clock e n) <= Datetime.MAXORDINAL.

(** The summary is text with something in it beside blanks, or there is no
    usable answer at all. *)
Definition llm_answer_not_blank `{UnicodeData} (e : env) : Prop :=
  forall p, match llm e p with
            | Ok (Some content) => strip content <> []
            | _ => True
            end.

Module SampleRuns.

(** Both pages unreachable; the language model answers with an empty
    completion. *)
Definition offline_empty_answer : env :=
  Sample.env_of (Raise Sample.timeout) (Raise Sample.timeout) (Ok (Some []))
    Sample.no_fault.

End SampleRuns.

(** *** Calendar vocabulary *)

(** Python's order on [str]: lexicographic on the code points. *)
Fixpoint str_lt (s t : pystr) : Prop :=
  match s, t with
  | _, [] => False
  | [], _ :: _ => True
  | a :: s', b :: t' => (a < b)%N \/ (a = b /\ str_lt s' t')
  end.

(** [_days_before_year]: the days before January 1st of [year]. *)
Definition days_before_year (year : Z) : Z :=
  let y := year - 1 in
  y * 365 + y / 4 - y / 100 + y / 400.

(** [_days_before_month]: the days of [year] before the first of [month]. *)
Definition days_before_month (year month : Z) : Z :=
  Datetime.DAYS_BEFORE_MONTH month
  + Datetime.b2z ((2 <? month) && Datetime.is_leap year).

(** [_days_in_month] *)
Definition days_in_month (year month : Z) : Z :=
  Datetime.DAYS_IN_MONTH month
  + Datetime.b2z ((month =? 2) && Datetime.is_leap year).

(** [_ymd2ord]: the ordinal of a date. *)
Definition ymd2ord (date : Z * Z * Z) : Z :=
  let '(year, month, day) := date in
  days_before_year year + days_before_month year month + day.

Definition valid_date (date : Z * Z * Z) : Prop :=
  let '(year, month, day) := date in
  1 <= month <= 12 /\ 1 <= day <= days_in_month year month.

(** Dates in chronological order. *)
Definition date_lt (d1 d2 : Z * Z * Z) : Prop :=
  let '(y1, m1, dd1) := d1 in
  let '(y2, m2, dd2) := d2 in
  y1 < y2 \/ (y1 = y2 /\ (m1 < m2 \/ (m1 = m2 /\ dd1 < dd2))).

(** The month and the day of the [n]-th day (from 0) of a year, as the end
    of [ord2ymd] computes them. *)
Definition month_day (leapyear : bool) (n : Z) : Z * Z :=
  let month := Z.shiftr (n + 50) 5 in
  let preceding :=
    Datetime.DAYS_BEFORE_MONTH month
    + Datetime.b2z ((2 <? month) && leapyear) in
  if n <? preceding then
    let month := month - 1 in
    let preceding :=
      preceding
      - (Datetime.DAYS_IN_MONTH month
         + Datetime.b2z ((month =? 2) && leapyear)) in
    (month, n - preceding + 1)
  else (month, n - preceding + 1).

(** The check that [month_day] inverts [days_before_month] on one day. *)
Definition month_day_ok (leapyear : bool) (n : Z) : bool :=
  let '(m, d) := month_day leapyear n in
  (1 <=? m) && (m <=? 12) && (1 <=? d)
  && (d <=? Datetime.DAYS_IN_MONTH m + Datetime.b2z ((m =? 2) && leapyear))
  && (Datetime.DAYS_BEFORE_MONTH m + Datetime.b2z ((2 <? m) && leapyear) + d
      =? n + 1).

(** *** Vocabulary for the JSON round trip *)

Module JsonSpec.

Import Json.

(** The floats whose repr is positional with at most 17 decimals: finite
    decimals of magnitude between [1e-4] and [1e16], and zero. *)
Definition plain_float (x : float) : bool :=
  ((Qnum x * 10 ^ Z.of_nat (find_scale 16 1 x)) mod Zpos (Qden x) =? 0)
  && (Z.abs (Qnum x) <? 10 ^ 16 * Zpos (Qden x))
  && ((Qnum x =? 0) || (Zpos (Qden x) <=? Z.abs (Qnum x) * 10 ^ 4)).

(** The values the encoder writes in a way the decoder reads back: plain
    floats, and dictionaries without a repeated key. *)
#[warnings="-register-all"]
Inductive wf_json : json -> Prop :=
| wf_null : wf_json JNull
| wf_bool b : wf_json (JBool b)
| wf_int n : wf_json (JInt n)
| wf_float x : plain_float x = true -> wf_json (JFloat x)
| wf_string s : wf_json (JString s)
| wf_array items : Forall wf_json items -> wf_json (JArray items)
| wf_object members :
    NoDup (map fst members) ->
    Forall (fun kv => wf_json (snd kv)) members ->
    wf_json (JObject members).

(** The value read back: every float as the reduced fraction. *)
Fixpoint normalize (j : json) : json :=
  match j with
  | JFloat x => JFloat (Qred x)
  | JArray items => JArray (map normalize items)
  | JObject members =>
      JObject (map (fun kv => (fst kv, normalize (snd kv))) members)
  | _ => j
  end.

(** Python's [==] on what [json] reads and writes: floats are compared as
    numbers. *)
#[warnings="-register-all"]
Inductive json_equal : json -> json -> Prop :=
| equal_null : json_equal JNull JNull
| equal_bool b : json_equal (JBool b) (JBool b)
| equal_int n : json_equal (JInt n) (JInt n)
| equal_float x y : (x == y)%Q -> json_equal (JFloat x) (JFloat y)
| equal_string s : json_equal (JString s) (JString s)
| equal_array l1 l2 :
    Forall2 json_equal l1 l2 -> json_equal (JArray l1) (JArray l2)
| equal_object m1 m2 :
    Forall2 (fun a b => fst a = fst b /\ json_equal (snd a) (snd b)) m1 m2 ->
    json_equal (JObject m1) (JObject m2).

(** The number of calls the decoder needs for a value. *)
Fixpoint size (j : json) : nat :=
  match j with
  | JArray items => S (fold_right (fun x n => S (size x) + n)%nat 0%nat items)
  | JObject members =>
      S (fold_right (fun kv n => S (size (snd kv)) + n)%nat 0%nat members)
  | _ => 1%nat
  end.

(** The items of a list after the first, as the encoder writes them. *)
Fixpoint encode_more_items (level : nat) (l : list json) : pystr :=
  match l with
  | [] => []
  | y :: l' =>
      [44%N] ++ newline_indent level ++ encode level y
      ++ encode_more_items level l'
  end.

(** The members of a dictionary after the first, as the encoder writes
    them. *)
Fixpoint encode_more_members (level : nat) (l : list (pystr * json))
  : pystr :=
  match l with
  | [] => []
  | (k, v) :: l' =>
      [44%N] ++ newline_indent level
      ++ encode_string k ++ [58; 32]%N ++ encode level v
      ++ encode_more_members level l'
  end.

Definition items_size (l : list json) : nat :=
  fold_right (fun x n => S (size x) + n)%nat 0%nat l.

Definition members_size (l : list (pystr * json)) : nat :=
  fold_right (fun kv n => S (size (snd kv)) + n)%nat 0%nat l.

(** What may follow a value in the text: nothing, a comma or a line feed. *)
Definition delimited (rest : pystr) : Prop :=
  match rest with
  | [] => True
  | c :: _ => c = 44%N \/ c = 10%N
  end.

(** An induction principle that goes under the lists. *)
Fixpoint json_induction (P : json -> Prop)
  (Hnull : P JNull) (Hbool : forall b, P (JBool b))
  (Hint : forall n, P (JInt n)) (Hfloat : forall x, P (JFloat x))
  (Hstring : forall s, P (JString s))
  (Harray : forall items, Forall P items -> P (JArray items))
  (Hobject : forall members,
      Forall (fun kv => P (snd kv)) members -> P (JObject members))
  (j : json) {struct j} : P j :=
  match j with
  | JNull => Hnull
  | JBool b => Hbool b
  | JInt n => Hint n
  | JFloat x => Hfloat x
  | JString s => Hstring s
  | JArray items =>
      Harray items
        ((fix all (l : list json) : Forall P l :=
            match l with
            | [] => Forall_nil P
            | x :: l' =>
                Forall_cons x
                  (json_induction Hnull Hbool Hint Hfloat Hstring Harray
                     Hobject x)
                  (all l')
            end) items)
  | JObject members =>
      Hobject members
        ((fix all (l : list (pystr * json))
            : Forall (fun kv => P (snd kv)) l :=
            match l with
            | [] => Forall_nil _
            | kv :: l' =>
                Forall_cons kv
                  (json_induction Hnull Hbool Hint Hfloat Hstring Harray
                     Hobject (snd kv))
                  (all l')
            end) members)
  end.

(** The character of a digit. *)
Definition digit_char (v : Z) : char := Z.to_N (48 + v).

(** What stops a run of digits. *)
Definition not_digit_head (rest : pystr) : Prop :=
  match rest with
  | [] => True
  | c :: _ => is_digit c = false
  end.

(** The first character of an encoded value: not a blank, not a closing
    bracket. *)
Definition value_head (c : char) : Prop :=
  is_ws c = false /\ c <> 93%N /\ c <> 125%N /\ c <> 44%N.

(** What the decoder is asked to do for a value: read it back from the
    head of any text it is written in front of. *)
Definition reads_back (j : json) : Prop :=
  forall (level fuel : nat) (rest : pystr),
    wf_json j -> delimited rest -> (size j <= fuel)%nat ->
    scan_once fuel (encode level j ++ rest) = Some (normalize j, rest).

(** A member with its value as it is read back. *)
Definition normalize_member (kv : pystr * json) : pystr * json :=
  (fst kv, normalize (snd kv)).

End JsonSpec.

(** *** Vocabulary for the file system *)

(** The operating system refuses no call. *)
Definition no_faults (e : env) : Prop := forall c, os_fault e c = None.

(** The operating system refuses no [mkdir]. *)
Definition no_mkdir_faults (e : env) : Prop :=
  forall p, os_fault e (Mkdir p) = None.

(** Every directory sits in a directory. *)
Definition fs_closed (fs : filesystem) : Prop :=
  forall p, isdir p fs = true -> isdir (dirname p) fs = true.

(** [q] is [p] or one of the directories above it. *)
Definition above (q p : path) : Prop := exists below, p = below ++ q.

(** No plain file sits at [p] or above it. *)
Definition way_clear (p : path) (fs : filesystem) : Prop :=
  forall q, above q p -> isfile q fs = false.

(** [self.data_file], split. *)
Definition data_path : path :=
  Eval vm_compute in path_of_string data_file.

(** [self.history_file], split. *)
Definition history_path : path :=
  Eval vm_compute in path_of_string history_file.

(** World [w] with another disk. *)
Definition with_disk (fs : filesystem) (w : world) : world :=
  World (stdout w) (clock_reads w) fs.

(** The floats of a report are plain. *)
Definition plain_price (v : option float) : Prop :=
  match v with
  | Some x => JsonSpec.plain_float x = true
  | None => True
  end.

Definition plain_report (m : market_data) : Prop :=
  plain_price (battery_grade (md_spot_price m)) /\
  plain_price (industrial_grade (md_spot_price m)) /\
  JsonSpec.plain_float (spot_daily_change_percent (md_spot_price m)) = true /\
  plain_price (lc_main (md_futures_price m)) /\
  JsonSpec.plain_float (futures_daily_change_percent (md_futures_price m))
  = true.

(** The text [save_data] writes for a report. *)
Definition report_text (m : market_data) : pystr :=
  Json.dumps (json_of_market_data m).

(** A disk on which [save_data] can work: every directory lies in a
    directory, no directory of the path to the data file is a regular
    file, and the data file itself is no directory. *)
Definition ready_for_save (fs : filesystem) : Prop :=
  fs_closed fs /\ way_clear (dirname data_path) fs /\
  isdir data_path fs = false.

(** No key occurs twice. *)
Fixpoint fresh_keys (l : list pystr) : bool :=
  match l with
  | [] => true
  | k :: l' =>
      negb (existsb
              (fun k' => if list_eq_dec N.eq_dec k k' then true else false) l')
      && fresh_keys l'
  end.

(** A code point UTF-8 can encode. *)
Definition encodable_char (c : char) : bool :=
  ((c <? 55296) || ((57343 <? c) && (c <=? 1114111)))%N.

(** The strings of a JSON value, keys included. *)
Fixpoint json_strings (j : Json.json) : list pystr :=
  match j with
  | Json.JString s => [s]
  | Json.JArray items => flat_map json_strings items
  | Json.JObject members =>
      flat_map (fun kv => fst kv :: json_strings (snd kv)) members
  | _ => []
  end.

(** The strings of a report can be encoded. *)
Definition report_encodable (m : market_data) : Prop :=
  utf8_encodable (md_timestamp m) = true /\
  utf8_encodable (md_date m) = true /\
  Forall (fun p => utf8_encodable (hp_date p) = true) (md_price_history m) /\
  match md_ai_analysis m with
  | Some a => utf8_encodable a = true
  | None => True
  end.

(** The member of the file that carries the summary [a]:
    the key between quotes, a colon, a blank, the text between quotes. *)
Definition summary_member (a : pystr) : pystr :=
  ([Json.quote] ++ key_ai_analysis ++ [Json.quote; 58; 32; Json.quote]
   ++ a ++ [Json.quote])%N.

(** Every answer of the language model is text that UTF-8 can encode. *)
Definition llm_answers_encodable (e : env) : Prop :=
  forall p content,
    llm e p = Ok (Some content) -> utf8_encodable content = true.

(** A computation that neither reads nor writes the disk: on another disk
    it returns the same, prints the same, reads the clock as often, and
    leaves that disk as it is. *)
Definition disk_blind {A : Type} (m : M A) : Prop :=
  forall e w fs,
    m e (with_disk fs w) = (fst (m e w), with_disk fs (snd (m e w))).

(** The characters the encoder writes as they are. *)
Definition literal_char (c : char) : bool :=
  ((32 <=? c) && negb (c =? 34) && negb (c =? 92))%N.

(** ** More sample inputs *)

Module SampleCases.

(** An answer of the language model, with blanks around it. *)
Definition answer : pystr :=
  Eval vm_compute in lit "  锂价企稳，市场观望为主。 ".

(** Both pages unreachable; the language model answers [answer]. *)
Definition answering : env :=
  Sample.env_of (Raise Sample.timeout) (Raise Sample.timeout)
    (Ok (Some answer)) Sample.no_fault.

(** A futures page whose first number has six digits. *)
Definition long_number_page : pystr :=
  Eval vm_compute in lit "主力合约 812345 元".

Definition long_number_env : env :=
  Sample.env_of (Raise Sample.timeout) (Ok long_number_page)
    (Raise Sample.timeout) Sample.no_fault.

(** A clock that always reads 0001-01-15. *)
Definition year_one : env :=
  Env (fun _ => Datetime 15 9 30 5 0)
    (fun _ => Raise Sample.timeout) (fun _ => Raise Sample.timeout)
    Sample.no_fault Sample.nothing_written.

(** A report without prices. *)
Definition unpriced_report : market_data :=
  MarketData [] [] (SpotRecord None None 0%Q) (FuturesRecord None 0%Q) []
    None.

Definition read_only_error : exn :=
  Eval vm_compute in
    Exception "OSError" (lit "[Errno 30] Read-only file system").

Definition permission_error : exn :=
  Eval vm_compute in
    Exception "PermissionError" (lit "[Errno 13] Permission denied").

(** Everything unreachable, and the system refuses every [mkdir]. *)
Definition read_only : env :=
  Sample.env_of (Raise Sample.timeout) (Raise Sample.timeout)
    (Raise Sample.timeout)
    (fun c => match c with
              | Mkdir _ => Some read_only_error
              | _ => None
              end).

(** Everything unreachable, and the system refuses to open a file for
    writing. *)
Definition locked : env :=
  Sample.env_of (Raise Sample.timeout) (Raise Sample.timeout)
    (Raise Sample.timeout)
    (fun c => match c with
              | OpenForWriting _ => Some permission_error
              | _ => None
              end).

(** The fallback report with the canned "falling" summary. *)
Definition summary_report : market_data :=
  set_ai_analysis canned_falling Sample.fallback_report.

End SampleCases.

Module SampleClocks.

(** A clock that passes midnight after its tenth reading:
    2024-11-05 23:59:59, then 2024-11-06 00:00:00. *)
Definition midnight : env :=
  Env (fun n => if (n <? 10)%nat then Datetime 739195 23 59 59 0
                else Datetime 739196 0 0 0 0)
    (fun _ => Raise Sample.timeout) (fun _ => Raise Sample.timeout)
    Sample.no_fault Sample.nothing_written.

End SampleClocks.

(** * Properties *)

(** ** History synthesizer *)

Section History.

Lemma strftime_Ymd_ordinal d :
  Datetime.strftime_Ymd d = date_string (toordinal d).
Proof. destruct d; reflexivity. Qed.

Lemma sub_days_ok d i :
  1 <= toordinal d - i <= Datetime.MAXORDINAL ->
  exists d', Datetime.sub_days d i = Ok d' /\ toordinal d' = toordinal d - i.
Proof.
  intros [Hlo Hhi]. unfold Datetime.sub_days.
  apply Z.leb_le in Hlo, Hhi. rewrite Hlo, Hhi. simpl.
  eexists; split; reflexivity.
Qed.

Lemma tick_0 w : tick 0 w = w.
Proof. destruct w; unfold tick; simpl. now rewrite Nat.add_0_r. Qed.

Lemma tick_S n w :
  tick n (World (stdout w) (S (clock_reads w)) (disk w)) = tick (S n) w.
Proof. unfold tick; simpl. f_equal. lia. Qed.

(** The loop, for any list of indices between 1 and 30 and any clock whose
    readings are late enough for the subtraction to stay in range. *)
Lemma for_each_history_step (e : env) :
  forall (l : list Z) (hist : list history_point) (w : world),
    Forall (fun i => 1 <= i <= 30) l ->
    (forall k, (k < List.length l)%nat ->
       30 < toordinal (clock e (clock_reads w + k)) <= Datetime.MAXORDINAL) ->
    for_each l history_step hist e w
    = (Ok (hist ++ points e (clock_reads w) l), tick (List.length l) w).
Proof.
  induction l as [|i l IH]; intros hist w Hl Hclock.
  - simpl. unfold ret. now rewrite app_nil_r, tick_0.
  - inversion Hl as [|? ? Hi Hl']; subst.
    assert (H0 : 30 < toordinal (clock e (clock_reads w))
                 <= Datetime.MAXORDINAL).
    { specialize (Hclock 0%nat). rewrite Nat.add_0_r in Hclock.
      apply Hclock. simpl. lia. }
    destruct (@sub_days_ok (clock e (clock_reads w)) i) as (d' & Hd & Hord);
      [lia|].
    cbn [for_each]. unfold bind at 1. unfold history_step at 1.
    unfold bind, datetime_now, lift, ret. rewrite Hd.
    rewrite IH; auto.
    + cbn [List.length clock_reads stdout disk points].
      rewrite tick_S, strftime_Ymd_ordinal, Hord, <- app_assoc.
      reflexivity.
    + intros k Hk. cbn [clock_reads].
      replace (S (clock_reads w) + k)%nat with (clock_reads w + S k)%nat
        by lia.
      apply Hclock. simpl. lia.
Qed.

Lemma range_30_0 :
  py_range 30 0 (-1)
  = [30; 29; 28; 27; 26; 25; 24; 23; 22; 21; 20; 19; 18; 17; 16; 15; 14;
     13; 12; 11; 10; 9; 8; 7; 6; 5; 4; 3; 2; 1].
Proof. reflexivity. Qed.

Lemma range_30_0_bounds : Forall (fun i => 1 <= i <= 30) (py_range 30 0 (-1)).
Proof. rewrite range_30_0. repeat constructor; lia. Qed.

(** Whatever the clock reads (late enough), the call returns, prints
    nothing, and its result is [points]. *)
Lemma generate_price_history_run (e : env) (w : world) :
  (forall k, (k < 30)%nat ->
     30 < toordinal (clock e (clock_reads w + k)) <= Datetime.MAXORDINAL) ->
  generate_price_history e w
  = (Ok (points e (clock_reads w) (py_range 30 0 (-1))), tick 30 w).
Proof.
  intros Hclock. unfold generate_price_history.
  rewrite for_each_history_step; auto using range_30_0_bounds.
Qed.

Lemma points_same_day (e : env) (today : Z) :
  forall (l : list Z) (n : nat),
    (forall k, (k < List.length l)%nat -> toordinal (clock e (n + k)) = today) ->
    points e n l
    = map (fun i => HistoryPoint (date_string (today - i)) (price_of i)) l.
Proof.
  induction l as [|i l IH]; intros n Hday; [reflexivity|].
  simpl. f_equal.
  - specialize (Hday 0%nat). rewrite Nat.add_0_r in Hday.
    rewrite Hday; [reflexivity | simpl; lia].
  - apply IH. intros k Hk.
    replace (S n + k)%nat with (n + S k)%nat by lia.
    apply Hday. simpl. lia.
Qed.

End History.

(** ** The calendar: [ord2ymd] is increasing *)

Section Calendar.

Lemma is_leap_spec (y : Z) :
  Datetime.is_leap y = true <->
  y mod 4 = 0 /\ (y mod 100 <> 0 \/ y mod 400 = 0).
Proof.
  unfold Datetime.is_leap.
  rewrite andb_true_iff, orb_true_iff, negb_true_iff.
  rewrite !Z.eqb_eq, Z.eqb_neq. reflexivity.
Qed.

Lemma month_day_checked :
  forallb (fun n => month_day_ok true n && month_day_ok false n)
    (map Z.of_nat (seq 0 365)) = true.
Proof. vm_compute. reflexivity. Qed.

Lemma month_day_spec (leapyear : bool) (n : Z) :
  0 <= n < 365 -> month_day_ok leapyear n = true.
Proof.
  intros Hn. pose proof month_day_checked as Hall.
  rewrite forallb_forall in Hall.
  specialize (Hall n). rewrite andb_true_iff in Hall.
  destruct leapyear; apply Hall;
    (rewrite <- (Z2Nat.id n) by lia; apply in_map, in_seq; lia).
Qed.

(** [ord2ymd], with its case analysis spelt out. *)
Lemma ord2ymd_unfold (ordinal : Z) :
  let r0 := (ordinal - 1) mod 146097 in
  let n100 := r0 / 36524 in
  let r1 := r0 mod 36524 in
  let n4 := r1 / 1461 in
  let r2 := r1 mod 1461 in
  let n1 := r2 / 365 in
  let r3 := r2 mod 365 in
  let year := (ordinal - 1) / 146097 * 400 + 1 + n100 * 100 + n4 * 4 + n1 in
  Datetime.ord2ymd ordinal
  = if (n1 =? 4) || (n100 =? 4) then (year - 1, 12, 31)
    else
      let '(m, d) :=
        month_day ((n1 =? 3) && (negb (n4 =? 24) || (n100 =? 3))) r3 in
      (year, m, d).
Proof.
  intros r0 n100 r1 n4 r2 n1 r3 year.
  unfold Datetime.ord2ymd, month_day,
    Datetime.DI400Y, Datetime.DI100Y, Datetime.DI4Y.
  fold r0. fold n100. fold r1. fold n4. fold r2. fold n1. fold r3. fold year.
  destruct ((n1 =? 4) || (n100 =? 4)); [reflexivity|].
  cbv zeta.
  match goal with |- context [if ?c then _ else _] => destruct c end;
    reflexivity.
Qed.

(** [ord2ymd] returns a date of the calendar, and [ymd2ord] inverts it. *)
Lemma ord2ymd_spec (ordinal : Z) :
  valid_date (Datetime.ord2ymd ordinal) /\
  ymd2ord (Datetime.ord2ymd ordinal) = ordinal.
Proof.
  rewrite ord2ymd_unfold.
  remember ((ordinal - 1) / 146097) as q eqn:Eq.
  remember ((ordinal - 1) mod 146097) as r0 eqn:Er0.
  remember (r0 / 36524) as n100 eqn:En100.
  remember (r0 mod 36524) as r1 eqn:Er1.
  remember (r1 / 1461) as n4 eqn:En4.
  remember (r1 mod 1461) as r2 eqn:Er2.
  remember (r2 / 365) as n1 eqn:En1.
  remember (r2 mod 365) as r3 eqn:Er3.
  assert (H0 : ordinal - 1 = 146097 * q + r0 /\ 0 <= r0 < 146097)
    by (Z.div_mod_to_equations; lia).
  assert (H1 : r0 = 36524 * n100 + r1 /\ 0 <= r1 < 36524)
    by (Z.div_mod_to_equations; lia).
  assert (H2 : r1 = 1461 * n4 + r2 /\ 0 <= r2 < 1461)
    by (Z.div_mod_to_equations; lia).
  assert (H3 : r2 = 365 * n1 + r3 /\ 0 <= r3 < 365)
    by (Z.div_mod_to_equations; lia).
  clear Eq Er0 En100 Er1 En4 Er2 En1 Er3.
  cbv zeta.
  remember (q * 400 + 1 + n100 * 100 + n4 * 4 + n1) as year eqn:Ey.
  destruct ((n1 =? 4) || (n100 =? 4)) eqn:EA.
  - assert (HA : n1 = 4 \/ n100 = 4).
    { apply orb_true_iff in EA. rewrite !Z.eqb_eq in EA. exact EA. }
    assert (Hleap : Datetime.is_leap (year - 1) = true).
    { apply is_leap_spec. Z.div_mod_to_equations. lia. }
    unfold valid_date, ymd2ord, days_in_month, days_before_month,
      days_before_year.
    rewrite Hleap. cbn [Datetime.DAYS_IN_MONTH Datetime.DAYS_BEFORE_MONTH].
    change (12 =? 2) with false. change (2 <? 12) with true.
    cbn [andb Datetime.b2z]. Z.div_mod_to_equations. lia.
  - assert (HB : n1 <> 4 /\ n100 <> 4).
    { apply orb_false_iff in EA. rewrite !Z.eqb_neq in EA. exact EA. }
    assert (Hleap : Datetime.is_leap year
                    = (n1 =? 3) && (negb (n4 =? 24) || (n100 =? 3))).
    { apply Bool.eq_iff_eq_true.
      rewrite is_leap_spec, andb_true_iff, orb_true_iff, negb_true_iff.
      rewrite !Z.eqb_eq, Z.eqb_neq. Z.div_mod_to_equations. lia. }
    rewrite <- Hleap.
    pose proof (@month_day_spec (Datetime.is_leap year) r3 (proj2 H3)) as Hmd.
    unfold month_day_ok in Hmd.
    destruct (month_day (Datetime.is_leap year) r3) as [m d].
    rewrite !andb_true_iff, !Z.leb_le, Z.eqb_eq in Hmd.
    unfold valid_date, ymd2ord, days_in_month, days_before_month,
      days_before_year.
    Z.div_mod_to_equations. lia.
Qed.

Ltac month_cases m :=
  let Hc := fresh "Hc" in
  assert (Hc : m = 1 \/ m = 2 \/ m = 3 \/ m = 4 \/ m = 5 \/ m = 6 \/ m = 7
               \/ m = 8 \/ m = 9 \/ m = 10 \/ m = 11 \/ m = 12) by lia;
  repeat (destruct Hc as [Hc | Hc]; [subst m|]); try subst m.

(** Evaluate the tables and the tests at the closed arguments of the goal. *)
Ltac eval_tables :=
  repeat match goal with
    | |- context [Datetime.DAYS_BEFORE_MONTH ?k] =>
        let v := eval vm_compute in (Datetime.DAYS_BEFORE_MONTH k) in
        change (Datetime.DAYS_BEFORE_MONTH k) with v
    | |- context [Datetime.DAYS_IN_MONTH ?k] =>
        let v := eval vm_compute in (Datetime.DAYS_IN_MONTH k) in
        change (Datetime.DAYS_IN_MONTH k) with v
    | |- context [Datetime.b2z ?b] =>
        let v := eval vm_compute in (Datetime.b2z b) in
        change (Datetime.b2z b) with v
    end.

(** A date falls within its year. *)
Lemma day_of_year_bounds (y m d : Z) :
  valid_date (y, m, d) ->
  1 <= days_before_month y m + d <= 365 + Datetime.b2z (Datetime.is_leap y).
Proof.
  unfold valid_date, days_in_month, days_before_month.
  intros [Hm Hd]. revert Hd.
  month_cases m; destruct (Datetime.is_leap y); eval_tables; lia.
Qed.

(** Within a year, a day of an earlier month comes before the first of a
    later month. *)
Lemma earlier_month (y m1 d1 m2 : Z) :
  valid_date (y, m1, d1) -> 1 <= m2 <= 12 -> m1 < m2 ->
  days_before_month y m1 + d1 <= days_before_month y m2.
Proof.
  unfold valid_date, days_in_month, days_before_month.
  intros [Hm1 Hd1] Hm2 Hlt. revert Hd1.
  month_cases m1; month_cases m2; try lia;
    destruct (Datetime.is_leap y); eval_tables; lia.
Qed.

(** The end of a year comes before the start of any later year. *)
Lemma earlier_year (y1 y2 : Z) :
  y1 < y2 ->
  days_before_year y1 + 365 + Datetime.b2z (Datetime.is_leap y1)
  <= days_before_year y2.
Proof.
  intros Hlt. unfold days_before_year.
  destruct (Datetime.is_leap y1) eqn:E; cbn [Datetime.b2z].
  - apply is_leap_spec in E. Z.div_mod_to_equations. lia.
  - Z.div_mod_to_equations. lia.
Qed.

(** [ymd2ord] is increasing on the dates of the calendar. *)
Lemma ymd2ord_increasing (d1 d2 : Z * Z * Z) :
  valid_date d1 -> valid_date d2 -> date_lt d1 d2 ->
  ymd2ord d1 < ymd2ord d2.
Proof.
  destruct d1 as [[y1 m1] dd1], d2 as [[y2 m2] dd2].
  intros V1 V2 Hlt.
  pose proof (day_of_year_bounds V1) as B1.
  pose proof (day_of_year_bounds V2) as B2.
  unfold ymd2ord.
  destruct Hlt as [Hy | [-> [Hm | [-> Hd]]]].
  - pose proof (earlier_year Hy). lia.
  - pose proof (@earlier_month y2 m1 dd1 m2 V1 (proj1 V2) Hm).
    destruct V2 as [_ Hd2]. lia.
  - lia.
Qed.

(** A later ordinal is a later date. *)
Lemma ord2ymd_increasing (a b : Z) :
  a < b -> date_lt (Datetime.ord2ymd a) (Datetime.ord2ymd b).
Proof.
  intros Hlt.
  destruct (ord2ymd_spec a) as [Va Ea]. destruct (ord2ymd_spec b) as [Vb Eb].
  destruct (Datetime.ord2ymd a) as [[y1 m1] d1] eqn:Da.
  destruct (Datetime.ord2ymd b) as [[y2 m2] d2] eqn:Db.
  assert (Hcases : date_lt (y1, m1, d1) (y2, m2, d2)
                   \/ (y1, m1, d1) = (y2, m2, d2)
                   \/ date_lt (y2, m2, d2) (y1, m1, d1)).
  { unfold date_lt.
    destruct (Z.lt_trichotomy y1 y2) as [?|[->|?]]; auto.
    destruct (Z.lt_trichotomy m1 m2) as [?|[->|?]]; auto 6.
    destruct (Z.lt_trichotomy d1 d2) as [?|[->|?]]; auto 8. }
  destruct Hcases as [H|[H|H]]; [exact H | |].
  - rewrite H in Ea. lia.
  - pose proof (@ymd2ord_increasing _ _ Vb Va H) as Hord.
    rewrite Ea, Eb in Hord. lia.
Qed.

(** The year of a date between 0001-01-01 and 9999-12-31. *)
Lemma ord2ymd_year_range (ordinal : Z) :
  1 <= ordinal <= Datetime.MAXORDINAL ->
  let '(y, m, d) := Datetime.ord2ymd ordinal in
  1 <= y <= 9999 /\ 1 <= m <= 12 /\ 1 <= d <= 31.
Proof.
  intros Hn. destruct (ord2ymd_spec ordinal) as [V E].
  destruct (Datetime.ord2ymd ordinal) as [[y m] d].
  pose proof (day_of_year_bounds V) as B.
  assert (Hd : 1 <= d <= 31).
  { destruct V as [Hm Hd]. unfold days_in_month in Hd. revert Hd.
    month_cases m; destruct (Datetime.is_leap y); eval_tables; lia. }
  split; [|split; [apply V | exact Hd]].
  unfold ymd2ord in E. unfold Datetime.MAXORDINAL in Hn.
  split.
  - destruct (Z.lt_ge_cases y 1) as [Hy|Hy]; [|lia].
    pose proof (earlier_year Hy) as Hy1.
    change (days_before_year 1) with 0 in Hy1. lia.
  - destruct (Z.lt_ge_cases 9999 y) as [Hy|Hy]; [|lia].
    pose proof (earlier_year Hy) as Hy1.
    change (days_before_year 9999) with 3651694 in Hy1.
    change (Datetime.is_leap 9999) with false in Hy1.
    cbn [Datetime.b2z] in Hy1. lia.
Qed.

(** *** Date strings compare as the dates do *)

Lemma str_lt_app_same (p s t : pystr) :
  str_lt s t -> str_lt (p ++ s) (p ++ t).
Proof. intros Hlt. induction p as [|c p IH]; simpl; auto. Qed.

Lemma str_lt_app_prefix (s1 t1 s2 t2 : pystr) :
  List.length s1 = List.length t1 -> str_lt s1 t1 ->
  str_lt (s1 ++ s2) (t1 ++ t2).
Proof.
  revert t1. induction s1 as [|a s1 IH]; intros [|b t1] L Hlt;
    simpl in *; try discriminate; try contradiction.
  destruct Hlt as [Hlt | [-> Hlt]]; [left; exact Hlt|].
  right. split; [reflexivity|]. apply IH; [lia | exact Hlt].
Qed.

Lemma length_zero_padded (width : nat) (n : Z) :
  List.length (Datetime.zero_padded width n) = width.
Proof.
  revert n. induction width as [|width IH]; intros n; [reflexivity|].
  cbn [Datetime.zero_padded]. rewrite length_app, IH. simpl. lia.
Qed.

Lemma zero_padded_lt (width : nat) :
  forall x y, 0 <= x < y -> y < 10 ^ Z.of_nat width ->
    str_lt (Datetime.zero_padded width x) (Datetime.zero_padded width y).
Proof.
  induction width as [|width IH]; intros x y Hxy Hy.
  - simpl in Hy. lia.
  - cbn [Datetime.zero_padded].
    rewrite Nat2Z.inj_succ, Z.pow_succ_r in Hy by lia.
    assert (Hq : x / 10 < y / 10 \/ (x / 10 = y / 10 /\ x mod 10 < y mod 10))
      by (Z.div_mod_to_equations; lia).
    destruct Hq as [Hq | [Hq Hr]].
    + apply str_lt_app_prefix.
      * now rewrite !length_zero_padded.
      * apply IH; Z.div_mod_to_equations; lia.
    + rewrite Hq. apply str_lt_app_same. cbn [str_lt]. left.
      assert (0 <= x mod 10 < 10) by (apply Z.mod_pos_bound; lia).
      assert (0 <= y mod 10 < 10) by (apply Z.mod_pos_bound; lia).
      apply Z2N.inj_lt; lia.
Qed.

(** Later days have greater date strings. *)
Lemma date_string_increasing (a b : Z) :
  1 <= a -> a < b -> b <= Datetime.MAXORDINAL ->
  str_lt (date_string a) (date_string b).
Proof.
  intros Ha Hlt Hb.
  pose proof (@ord2ymd_year_range a) as Ra.
  pose proof (@ord2ymd_year_range b) as Rb.
  pose proof (ord2ymd_increasing Hlt) as Hd.
  unfold date_string, Datetime.strftime_Ymd. cbn [toordinal].
  destruct (Datetime.ord2ymd a) as [[y1 m1] d1].
  destruct (Datetime.ord2ymd b) as [[y2 m2] d2].
  destruct Ra as (Y1 & M1 & D1); [lia|].
  destruct Rb as (Y2 & M2 & D2); [lia|].
  destruct Hd as [Hy | [-> [Hm | [-> Hdd]]]].
  - apply str_lt_app_prefix; [now rewrite !length_zero_padded|].
    apply zero_padded_lt; simpl; lia.
  - apply str_lt_app_same. apply (str_lt_app_same [Datetime.hyphen]).
    apply str_lt_app_prefix; [now rewrite !length_zero_padded|].
    apply zero_padded_lt; simpl; lia.
  - apply str_lt_app_same. apply (str_lt_app_same [Datetime.hyphen]).
    apply str_lt_app_same. apply (str_lt_app_same [Datetime.hyphen]).
    apply zero_padded_lt; simpl; lia.
Qed.

End Calendar.

(** ** The matcher against the declarative reading of patterns *)

Section MatcherTheory.

Context `{UnicodeData}.

(** The matcher only looks at the values of its continuation. *)
Lemma rmatch_ext (R : Type) (r : Re.regex) :
  forall (s : pystr) (caps : Re.captures)
         (k1 k2 : pystr -> Re.captures -> option R),
    (forall s' caps', k1 s' caps' = k2 s' caps') ->
    Re.rmatch r s caps k1 = Re.rmatch r s caps k2.
Proof.
  induction r as [| | a | r1 IH1 r2 IH2 | r1 IH1 r2 IH2 | r1 IH1
                 | n r1 IH1 | i r1 IH1];
    intros s caps k1 k2 Hk; cbn [Re.rmatch].
  - destruct s as [|c s]; [reflexivity|]. now destruct (isdecimal c).
  - destruct s as [|c s]; [reflexivity|]. now destruct (isspace c).
  - destruct s as [|c s]; [reflexivity|]. now destruct (N.eqb c a).
  - apply IH1. intros s' caps'. now apply IH2.
  - rewrite (IH1 s caps k1 k2 Hk), (IH2 s caps k1 k2 Hk). reflexivity.
  - generalize (S (List.length s)). intros fuel. revert s caps.
    induction fuel as [|fuel IHf]; intros s caps; simpl; [apply Hk|].
    rewrite Hk.
    erewrite IH1; [reflexivity|].
    intros s' caps'. simpl.
    destruct (List.length s' <? List.length s)%nat; [apply IHf | reflexivity].
  - revert s caps. induction n as [|n IHn]; intros s caps; simpl; [apply Hk|].
    apply IH1. intros s' caps'. apply IHn.
  - apply IH1. intros s' caps'. apply Hk.
Qed.

(** Soundness: an answer of the matcher comes from a match handed to the
    continuation. *)
Lemma rmatch_sound (R : Type) (r : Re.regex) :
  forall (s : pystr) (caps : Re.captures)
         (k : pystr -> Re.captures -> option R) (x : R),
    Re.rmatch r s caps k = Some x ->
    exists s' caps', matches r s caps s' caps' /\ k s' caps' = Some x.
Proof.
  induction r as [| | a | r1 IH1 r2 IH2 | r1 IH1 r2 IH2 | r1 IH1
                 | n r1 IH1 | i r1 IH1];
    intros s caps k x Hm; cbn [Re.rmatch] in Hm.
  - destruct s as [|c s]; [discriminate|].
    destruct (isdecimal c) eqn:E; [|discriminate].
    exists s, caps. split; [now constructor | assumption].
  - destruct s as [|c s]; [discriminate|].
    destruct (isspace c) eqn:E; [|discriminate].
    exists s, caps. split; [now constructor | assumption].
  - destruct s as [|c s]; [discriminate|].
    destruct (N.eqb c a) eqn:E; [|discriminate].
    apply N.eqb_eq in E. subst c.
    exists s, caps. split; [constructor | assumption].
  - apply IH1 in Hm as (s1 & caps1 & M1 & Hm).
    apply IH2 in Hm as (s2 & caps2 & M2 & Hk).
    exists s2, caps2. split; [econstructor; eassumption | assumption].
  - destruct (Re.rmatch r1 s caps k) as [y|] eqn:E.
    + injection Hm as ->. apply IH1 in E as (s' & caps' & M1 & Hk).
      exists s', caps'. split; [now apply M_alt_l | assumption].
    + apply IH2 in Hm as (s' & caps' & M2 & Hk).
      exists s', caps'. split; [now apply M_alt_r | assumption].
  - revert Hm. generalize (S (List.length s)). intros fuel. revert s caps.
    induction fuel as [|fuel IHf]; intros s caps Hm; simpl in Hm.
    + exists s, caps. split; [constructor | assumption].
    + match type of Hm with
      | match ?a with _ => _ end = _ => destruct a as [y|] eqn:E
      end.
      * injection Hm as ->. apply IH1 in E as (s1 & caps1 & M1 & Hk).
        destruct (List.length s1 <? List.length s)%nat eqn:L; [|discriminate].
        apply Nat.ltb_lt in L.
        apply IHf in Hk as (s2 & caps2 & M2 & Hk).
        exists s2, caps2. split; [econstructor; eassumption | assumption].
      * exists s, caps. split; [constructor | assumption].
  - revert s caps Hm. induction n as [|n IHn]; intros s caps Hm; simpl in Hm.
    + exists s, caps. split; [constructor | assumption].
    + apply IH1 in Hm as (s1 & caps1 & M1 & Hm).
      apply IHn in Hm as (s2 & caps2 & M2 & Hk).
      exists s2, caps2. split; [econstructor; eassumption | assumption].
  - apply IH1 in Hm as (s' & caps' & M1 & Hk).
    exists s', ((i, firstn (List.length s - List.length s') s) :: caps').
    split; [now constructor | assumption].
Qed.

(** Extra fuel does not change the loop of a star. *)
Lemma star_loop_fuel (R : Type) (r : Re.regex)
      (k : pystr -> Re.captures -> option R) :
  forall (f1 f2 : nat) (s : pystr) (caps : Re.captures),
    (List.length s < f1)%nat -> (List.length s < f2)%nat ->
    Re.star_loop (Re.rmatch r) k f1 s caps
    = Re.star_loop (Re.rmatch r) k f2 s caps.
Proof.
  induction f1 as [|f1 IHf]; intros f2 s caps L1 L2; [lia|].
  destruct f2 as [|f2]; [lia|]. simpl.
  erewrite rmatch_ext; [reflexivity|].
  intros s' caps'. simpl.
  destruct (List.length s' <? List.length s)%nat eqn:L; [|reflexivity].
  apply Nat.ltb_lt in L. apply IHf; lia.
Qed.

(** Completeness: when some match makes the continuation succeed, the
    matcher answers (with that match or with one of higher priority). *)
Lemma rmatch_complete (R : Type) (r : Re.regex) (s : pystr)
      (caps : Re.captures) (s' : pystr) (caps' : Re.captures) :
  matches r s caps s' caps' ->
  forall (k : pystr -> Re.captures -> option R) (x : R),
    k s' caps' = Some x -> exists y, Re.rmatch r s caps k = Some y.
Proof.
  induction 1 as [c s caps D | c s caps D | c s caps
                 | r1 r2 s caps s1 caps1 s2 caps2 M1 IH1 M2 IH2
                 | r1 r2 s caps s' caps' M1 IH1
                 | r1 r2 s caps s' caps' M2 IH2
                 | r s caps
                 | r s caps s1 caps1 s2 caps2 M1 IH1 L M2 IH2
                 | r s caps
                 | n r s caps s1 caps1 s2 caps2 M1 IH1 M2 IH2
                 | i r s caps s' caps' M1 IH1];
    intros k x Hk; cbn [Re.rmatch].
  - rewrite D. eauto.
  - rewrite D. eauto.
  - rewrite N.eqb_refl. eauto.
  - destruct (IH2 k x Hk) as [y Hy]. apply (IH1 _ y). exact Hy.
  - destruct (IH1 k x Hk) as [y ->]. eauto.
  - destruct (Re.rmatch r1 s caps k) as [y|]; eauto.
  - simpl.
    match goal with
    | |- exists _, match ?a with _ => _ end = _ => destruct a as [y|]
    end; eauto.
  - destruct (IH2 k x Hk) as [y Hy]. cbn [Re.rmatch] in Hy.
    simpl.
    match goal with
    | |- exists _, match Re.rmatch r s caps ?k' with _ => _ end = _ =>
        destruct (IH1 k' y) as [z Hz]
    end.
    + simpl. apply Nat.ltb_lt in L. rewrite L.
      rewrite <- Hy. apply star_loop_fuel; apply Nat.ltb_lt in L; lia.
    + rewrite Hz. eauto.
  - simpl. eauto.
  - simpl. destruct (IH2 k x Hk) as [y Hy]. apply (IH1 _ y). exact Hy.
  - apply (IH1 _ x). exact Hk.
Qed.

(** *** [findall]: the empty answer and the first match *)

Lemma findall_nil_iff (r : Re.regex) (s : pystr) :
  Re.findall r s = [] <->
  (forall pre suf, s = pre ++ suf -> Re.match_at r suf = None).
Proof.
  unfold Re.findall. induction s as [|c t IH].
  - simpl. split.
    + intros Hn pre suf E.
      destruct pre; [|discriminate]. simpl in E. subst suf.
      destruct (Re.match_at r []) as [[s' m]|]; [discriminate | reflexivity].
    + intros Hn. rewrite (Hn [] [] eq_refl). reflexivity.
  - cbn [Re.scan]. split.
    + intros Hn pre suf E.
      destruct (Re.match_at r (c :: t)) as [[s' m]|] eqn:E0; [discriminate|].
      destruct pre as [|c' pre].
      * simpl in E. now subst suf.
      * injection E as <- E. apply (proj1 IH Hn pre suf E).
    + intros Hn. rewrite (Hn [] (c :: t) eq_refl).
      apply IH. intros pre suf E. apply (Hn (c :: pre) suf).
      now rewrite E.
Qed.

Lemma findall_head (r : Re.regex) (s : pystr) (m : Re.captures)
      (ms : list Re.captures) :
  Re.findall r s = m :: ms ->
  exists pre suf s',
    s = pre ++ suf /\ Re.match_at r suf = Some (s', m) /\
    (forall pre1 suf1, s = pre1 ++ suf1 ->
       (List.length pre1 < List.length pre)%nat ->
       Re.match_at r suf1 = None).
Proof.
  unfold Re.findall. revert m ms. induction s as [|c t IH]; intros m ms Hs.
  - simpl in Hs.
    destruct (Re.match_at r []) as [[s' m']|] eqn:E0; [|discriminate].
    injection Hs as -> _.
    exists [], [], s'. repeat split; auto. simpl. intros; lia.
  - cbn [Re.scan] in Hs.
    destruct (Re.match_at r (c :: t)) as [[s' m']|] eqn:E0.
    + injection Hs as -> _.
      exists [], (c :: t), s'. repeat split; auto. simpl. intros; lia.
    + apply IH in Hs as (pre & suf & s' & E & Hm & Hfirst).
      exists (c :: pre), suf, s'. repeat split; auto.
      * simpl. now rewrite E.
      * intros pre1 suf1 E1 L.
        destruct pre1 as [|c1 pre1].
        -- simpl in E1. now subst suf1.
        -- injection E1 as <- E1. apply (Hfirst pre1 suf1 E1).
           simpl in L. lia.
Qed.

End MatcherTheory.

(** ** The two patterns of the program *)

Section Patterns.

Context `{UnicodeData}.

Ltac inv H := inversion H; subst; clear H.

Lemma matches_digit_inv s caps s' caps' :
  matches Re.Rdigit s caps s' caps' ->
  exists c, isdecimal c = true /\ s = c :: s' /\ caps' = caps.
Proof. intros M. inv M. eauto. Qed.

Lemma matches_space_inv s caps s' caps' :
  matches Re.Rspace s caps s' caps' ->
  exists c, isspace c = true /\ s = c :: s' /\ caps' = caps.
Proof. intros M. inv M. eauto. Qed.

Lemma matches_repeat_S_inv n r s caps s' caps' :
  matches (Re.Rrepeat (S n) r) s caps s' caps' ->
  exists s1 caps1,
    matches r s caps s1 caps1 /\ matches (Re.Rrepeat n r) s1 caps1 s' caps'.
Proof. intros M. inv M. eauto. Qed.

Lemma matches_repeat_0_inv r s caps s' caps' :
  matches (Re.Rrepeat 0 r) s caps s' caps' -> s' = s /\ caps' = caps.
Proof. intros M. inv M. auto. Qed.

Lemma matches_group_inv i r s caps s' caps' :
  matches (Re.Rgroup i r) s caps s' caps' ->
  exists caps1,
    matches r s caps s' caps1 /\
    caps' = (i, firstn (List.length s - List.length s') s) :: caps1.
Proof. intros M. inv M. eauto. Qed.

Lemma matches_seq_inv r1 r2 s caps s' caps' :
  matches (Re.Rseq r1 r2) s caps s' caps' ->
  exists s1 caps1,
    matches r1 s caps s1 caps1 /\ matches r2 s1 caps1 s' caps'.
Proof. intros M. inv M. eauto. Qed.

Lemma matches_alt_inv r1 r2 s caps s' caps' :
  matches (Re.Ralt r1 r2) s caps s' caps' ->
  matches r1 s caps s' caps' \/ matches r2 s caps s' caps'.
Proof. intros M. inv M; auto. Qed.

Lemma matches_char_inv a s caps s' caps' :
  matches (Re.Rchar a) s caps s' caps' -> s = a :: s' /\ caps' = caps.
Proof. intros M. inv M. auto. Qed.

Lemma matches_five_digits_inv s caps s' caps' :
  matches five_digits s caps s' caps' ->
  caps' = caps /\ exists d, five_decimals d /\ s = d ++ s'.
Proof.
  unfold five_digits. intros M.
  apply matches_repeat_S_inv in M as (s1 & k1 & M1 & M).
  apply matches_repeat_S_inv in M as (s2 & k2 & M2 & M).
  apply matches_repeat_S_inv in M as (s3 & k3 & M3 & M).
  apply matches_repeat_S_inv in M as (s4 & k4 & M4 & M).
  apply matches_repeat_S_inv in M as (s5 & k5 & M5 & M).
  apply matches_repeat_0_inv in M as (-> & ->).
  apply matches_digit_inv in M5 as (c5 & D5 & -> & ->).
  apply matches_digit_inv in M4 as (c4 & D4 & -> & ->).
  apply matches_digit_inv in M3 as (c3 & D3 & -> & ->).
  apply matches_digit_inv in M2 as (c2 & D2 & -> & ->).
  apply matches_digit_inv in M1 as (c1 & D1 & -> & ->).
  split; [reflexivity|].
  exists [c1; c2; c3; c4; c5]. split; [|reflexivity].
  split; [reflexivity | repeat constructor; assumption].
Qed.

Lemma matches_five_digits_intro d s caps :
  five_decimals d -> matches five_digits (d ++ s) caps s caps.
Proof.
  intros [L D].
  destruct d as [|c1 [|c2 [|c3 [|c4 [|c5 [|c6 d]]]]]]; try discriminate.
  repeat match goal with
         | D : Forall _ (_ :: _) |- _ => apply Forall_cons_iff in D as [? D]
         end.
  unfold five_digits. simpl.
  repeat (eapply M_repeat_S; [now apply M_digit|]).
  apply M_repeat_0.
Qed.

Lemma firstn_consumed (d s : pystr) :
  firstn (List.length (d ++ s) - List.length s) (d ++ s) = d.
Proof.
  rewrite length_app.
  replace (List.length d + List.length s - List.length s)%nat
    with (List.length d + 0)%nat by lia.
  rewrite firstn_app_2. simpl. apply app_nil_r.
Qed.

Lemma matches_group_five_inv i s caps s' caps' :
  matches (Re.Rgroup i five_digits) s caps s' caps' ->
  exists d, five_decimals d /\ s = d ++ s' /\ caps' = (i, d) :: caps.
Proof.
  intros M. apply matches_group_inv in M as (caps1 & M & ->).
  apply matches_five_digits_inv in M as (-> & d & Hd & ->).
  exists d. rewrite firstn_consumed. auto.
Qed.

Lemma matches_group_five_intro i d s caps :
  five_decimals d ->
  matches (Re.Rgroup i five_digits) (d ++ s) caps s ((i, d) :: caps).
Proof.
  intros Hd.
  rewrite <- (firstn_consumed d s) at 2.
  apply M_group. now apply matches_five_digits_intro.
Qed.

Lemma matches_star_space_inv s caps s' caps' :
  matches (Re.Rstar Re.Rspace) s caps s' caps' ->
  caps' = caps /\ exists ws, spaces ws /\ s = ws ++ s'.
Proof.
  intros M. remember (Re.Rstar Re.Rspace) as r eqn:Er.
  induction M; try discriminate.
  - split; [reflexivity|]. exists []. split; [constructor | reflexivity].
  - injection Er as ->.
    apply matches_space_inv in M1 as (c & Hc & -> & ->).
    destruct (IHM2 eq_refl) as (-> & ws & Hws & ->).
    split; [reflexivity|]. exists (c :: ws).
    split; [now constructor | reflexivity].
Qed.

Lemma matches_star_space_intro ws s caps :
  spaces ws -> matches (Re.Rstar Re.Rspace) (ws ++ s) caps s caps.
Proof.
  induction 1 as [|c ws Hc Hws IH]; simpl.
  - apply M_star_stop.
  - eapply M_star_more; [now apply M_space | simpl; lia | exact IH].
Qed.

Lemma five_decimals_split (d d' a a' : pystr) :
  five_decimals d -> five_decimals d' -> d ++ a = d' ++ a' ->
  d = d' /\ a = a'.
Proof.
  intros [L _] [L' _] E.
  assert (E1 : firstn 5 (d ++ a) = firstn 5 (d' ++ a')) by now rewrite E.
  assert (E2 : skipn 5 (d ++ a) = skipn 5 (d' ++ a')) by now rewrite E.
  rewrite <- L in E1 at 1. rewrite <- L' in E1.
  rewrite <- L in E2 at 1. rewrite <- L' in E2.
  rewrite !firstn_app, !Nat.sub_diag, !firstn_all in E1. simpl in E1.
  rewrite !skipn_app, !Nat.sub_diag, !skipn_all in E2. simpl in E2.
  rewrite !app_nil_r in E1. auto.
Qed.

(** *** The futures pattern [(\d{5})] *)

Lemma match_at_futures_inv suf s' m :
  Re.match_at futures_price_pattern suf = Some (s', m) ->
  exists d, five_decimals d /\ suf = d ++ s' /\ m = [(1%nat, d)].
Proof.
  unfold Re.match_at. intros Hm.
  apply rmatch_sound in Hm as (s1 & caps1 & M & [= -> ->]).
  apply matches_group_five_inv in M as (d & Hd & -> & ->). eauto.
Qed.

Lemma match_at_futures_intro d rest :
  five_decimals d ->
  exists x, Re.match_at futures_price_pattern (d ++ rest) = Some x.
Proof.
  intros Hd. unfold Re.match_at.
  eapply rmatch_complete.
  - apply matches_group_five_intro. exact Hd.
  - reflexivity.
Qed.

(** *** The spot pattern [(\d{5})\s*-\s*(\d{5})|(\d{5})] *)

Lemma rmatch_alt (R : Type) r1 r2 s caps
      (k : pystr -> Re.captures -> option R) :
  Re.rmatch (Re.Ralt r1 r2) s caps k
  = match Re.rmatch r1 s caps k with
    | Some x => Some x
    | None => Re.rmatch r2 s caps k
    end.
Proof. reflexivity. Qed.

Lemma matches_smm_pair_inv suf caps s' m :
  matches smm_pair_pattern suf caps s' m ->
  exists lo hi after,
    five_decimals lo /\ suf = lo ++ after /\ pair_tail after hi s' /\
    m = (2%nat, hi) :: (1%nat, lo) :: caps.
Proof.
  unfold smm_pair_pattern. intros M.
  apply matches_seq_inv in M as (s1 & c1 & M1 & M).
  apply matches_seq_inv in M as (s2 & c2 & M2 & M).
  apply matches_seq_inv in M as (s3 & c3 & M3 & M).
  apply matches_seq_inv in M as (s4 & c4 & M4 & M5).
  apply matches_group_five_inv in M5 as (hi & Hhi & -> & ->).
  apply matches_star_space_inv in M4 as (-> & ws2 & Hws2 & ->).
  apply matches_char_inv in M3 as (-> & ->).
  apply matches_star_space_inv in M2 as (-> & ws1 & Hws1 & ->).
  apply matches_group_five_inv in M1 as (lo & Hlo & -> & ->).
  exists lo, hi, (ws1 ++ Datetime.hyphen :: ws2 ++ hi ++ s').
  split; [exact Hlo|]. split; [reflexivity|]. split; [|reflexivity].
  exists ws1, ws2. auto.
Qed.

Lemma matches_smm_pair_intro lo hi after rest caps :
  five_decimals lo -> pair_tail after hi rest ->
  matches smm_pair_pattern (lo ++ after) caps rest
    ((2%nat, hi) :: (1%nat, lo) :: caps).
Proof.
  intros Hlo (ws1 & ws2 & Hws1 & Hws2 & Hhi & ->).
  unfold smm_pair_pattern.
  eapply M_seq; [now apply matches_group_five_intro|].
  eapply M_seq; [now apply matches_star_space_intro|].
  eapply M_seq; [apply M_char|].
  eapply M_seq; [now apply matches_star_space_intro|].
  now apply matches_group_five_intro.
Qed.

Lemma match_at_smm_inv suf s' m :
  Re.match_at smm_price_pattern suf = Some (s', m) ->
  exists lo after,
    five_decimals lo /\ suf = lo ++ after /\
    ((exists hi, pair_tail after hi s' /\ m = [(2%nat, hi); (1%nat, lo)])
     \/ (after = s' /\ m = [(3%nat, lo)] /\
         forall hi rest, ~ pair_tail after hi rest)).
Proof.
  unfold Re.match_at, smm_price_pattern.
  rewrite rmatch_alt. intros Hm.
  match type of Hm with
  | match ?a with _ => _ end = _ => destruct a as [y|] eqn:E
  end.
  - injection Hm as ->.
    apply rmatch_sound in E as (s1 & caps1 & M & [= -> ->]).
    apply matches_smm_pair_inv in M as (lo & hi & after & Hlo & -> & Ht & ->).
    exists lo, after. split; [exact Hlo|]. split; [reflexivity|].
    left. eauto.
  - apply rmatch_sound in Hm as (s1 & caps1 & M & [= -> ->]).
    apply matches_group_five_inv in M as (lo & Hlo & -> & ->).
    exists lo, s'. split; [exact Hlo|]. split; [reflexivity|]. right.
    split; [reflexivity|]. split; [reflexivity|]. intros hi rest Ht.
    destruct (@rmatch_complete _ _ smm_pair_pattern (lo ++ s') [] rest
                [(2%nat, hi); (1%nat, lo)]
                (matches_smm_pair_intro [] Hlo Ht)
                (fun s' caps => Some (s', caps)) _ eq_refl) as [y Hy].
    congruence.
Qed.

Lemma match_at_smm_intro d rest :
  five_decimals d ->
  exists x, Re.match_at smm_price_pattern (d ++ rest) = Some x.
Proof.
  intros Hd. unfold Re.match_at.
  eapply rmatch_complete.
  - apply M_alt_r. apply matches_group_five_intro. exact Hd.
  - reflexivity.
Qed.

End Patterns.

(** ** What [findall] returns for the two patterns *)

Section Findall.

Context `{UnicodeData}.

(** For a pattern whose matches begin with five decimal digits and that
    matches wherever five decimal digits begin, the first match of
    [findall] sits at the leftmost run of five decimal digits. *)
Lemma first_match_is_leftmost (r : Re.regex) (text pre d after : pystr) :
  (forall d rest, five_decimals d ->
     exists x, Re.match_at r (d ++ rest) = Some x) ->
  five_decimals d ->
  text = pre ++ d ++ after ->
  (forall pre1 suf1, text = pre1 ++ suf1 ->
     (List.length pre1 < List.length pre)%nat -> Re.match_at r suf1 = None) ->
  first_five_decimals text pre d after.
Proof.
  intros Hintro Hd E Hfirst. split; [exact E|]. split; [exact Hd|].
  intros before1 d1 after1 E1 Hd1.
  destruct (Nat.le_gt_cases (List.length pre) (List.length before1))
    as [L|L]; [exact L|].
  destruct (Hintro d1 after1 Hd1) as [x Hx].
  rewrite (Hfirst before1 (d1 ++ after1) E1 L) in Hx. discriminate.
Qed.

Lemma findall_nil_no_five (r : Re.regex) (text : pystr) :
  (forall d rest, five_decimals d ->
     exists x, Re.match_at r (d ++ rest) = Some x) ->
  (forall suf s' m, Re.match_at r suf = Some (s', m) ->
     exists d rest, five_decimals d /\ suf = d ++ rest) ->
  (Re.findall r text = [] <-> ~ has_five_decimals text).
Proof.
  intros Hintro Hinv. rewrite findall_nil_iff. split.
  - intros Hn (before & d & after & E & Hd).
    destruct (Hintro d after Hd) as [x Hx].
    rewrite (Hn before (d ++ after) E) in Hx. discriminate.
  - intros Hno pre suf E.
    destruct (Re.match_at r suf) as [[s' m]|] eqn:Em; [|reflexivity].
    destruct (Hinv suf s' m Em) as (d & rest & Hd & ->).
    exfalso. apply Hno. exists pre, d, rest. auto.
Qed.

Lemma findall_futures_nil_iff (text : pystr) :
  Re.findall futures_price_pattern text = [] <-> ~ has_five_decimals text.
Proof.
  apply findall_nil_no_five.
  - intros d rest Hd. now apply match_at_futures_intro.
  - intros suf s' m Hm.
    apply match_at_futures_inv in Hm as (d & Hd & -> & _). eauto.
Qed.

Lemma findall_smm_nil_iff (text : pystr) :
  Re.findall smm_price_pattern text = [] <-> ~ has_five_decimals text.
Proof.
  apply findall_nil_no_five.
  - intros d rest Hd. now apply match_at_smm_intro.
  - intros suf s' m Hm.
    apply match_at_smm_inv in Hm as (lo & after & Hlo & -> & _). eauto.
Qed.

(** The first element of [findall] for the futures pattern is the leftmost
    run of five decimal digits. *)
Lemma findall_futures_head (text : pystr) (m : Re.captures)
      (ms : list Re.captures) :
  Re.findall futures_price_pattern text = m :: ms ->
  exists before d after,
    first_five_decimals text before d after /\ m = [(1%nat, d)].
Proof.
  intros Hf.
  apply findall_head in Hf as (pre & suf & s' & E & Hm & Hfirst).
  apply match_at_futures_inv in Hm as (d & Hd & -> & ->).
  exists pre, d, s'. split; [|reflexivity].
  apply first_match_is_leftmost with (r := futures_price_pattern); auto.
  intros d0 rest Hd0. now apply match_at_futures_intro.
Qed.

(** The first element of [findall] for the spot pattern: the leftmost run
    of five decimal digits [lo], as a pair when blanks, a hyphen, blanks and
    five more decimal digits follow it, on its own otherwise. *)
Lemma findall_smm_head (text : pystr) (m : Re.captures)
      (ms : list Re.captures) :
  Re.findall smm_price_pattern text = m :: ms ->
  exists before lo after,
    first_five_decimals text before lo after /\
    ((exists hi rest,
        pair_tail after hi rest /\ m = [(2%nat, hi); (1%nat, lo)])
     \/ (m = [(3%nat, lo)] /\ forall hi rest, ~ pair_tail after hi rest)).
Proof.
  intros Hf.
  apply findall_head in Hf as (pre & suf & s' & E & Hm & Hfirst).
  apply match_at_smm_inv in Hm as (lo & after & Hlo & -> & Hcase).
  exists pre, lo, after. split.
  - apply first_match_is_leftmost with (r := smm_price_pattern); auto.
    intros d0 rest Hd0. now apply match_at_smm_intro.
  - destruct Hcase as [(hi & Ht & ->) | (-> & -> & Hno)].
    + left. eauto.
    + right. auto.
Qed.

(** *** [float()] on what the patterns capture *)

Lemma isdecimal_value (c : char) :
  isdecimal c = true -> exists v, decimal c = Some v /\ 0 <= v <= 9.
Proof.
  unfold isdecimal. destruct (decimal c) as [v|] eqn:E; [|discriminate].
  intros _. exists v. split; [reflexivity|]. now apply (decimal_range c).
Qed.

Lemma five_decimals_value (d : pystr) :
  five_decimals d ->
  decimal_value 0 d = Some (digits_value d) /\ 0 <= digits_value d <= 99999.
Proof.
  intros [L D]. unfold digits_value.
  destruct d as [|c1 [|c2 [|c3 [|c4 [|c5 [|c6 d]]]]]]; try discriminate.
  repeat match goal with
         | D : Forall _ (_ :: _) |- _ => apply Forall_cons_iff in D as [? D]
         end.
  repeat match goal with
         | D : isdecimal _ = true |- _ =>
             apply isdecimal_value in D as (? & ? & ?)
         end.
  cbn [decimal_value].
  repeat match goal with E : decimal _ = Some _ |- _ => rewrite E; clear E end.
  split; [reflexivity | lia].
Qed.

Lemma float_of_five_decimals (d : pystr) :
  five_decimals d -> float_of_str d = Ok (inject_Z (digits_value d)).
Proof.
  intros Hd. destruct (five_decimals_value Hd) as [E _].
  unfold float_of_str. rewrite E.
  destruct d; [destruct Hd; discriminate | reflexivity].
Qed.

Lemma five_decimals_truthy (d : pystr) : five_decimals d -> truthy d = true.
Proof. intros [L _]. destruct d; [discriminate | reflexivity]. Qed.

End Findall.

(** ** Spot price fetcher *)

Section Spot.

Context `{UnicodeData}.

Lemma fetch_smm_price_raise (e : env) (w : world) (x : exn) :
  http e smm_url = Raise x ->
  fetch_smm_price e w
  = (Ok (PriceData (today_string e w) (Some 80500%Q) (Some 78300%Q)
           (-1 # 2)%Q),
     tick 1 (printed (smm_error x) w)).
Proof.
  intros Hx. unfold fetch_smm_price, try_except, bind at 1, http_get_text.
  rewrite Hx. unfold bind, print, datetime_now, ret. simpl.
  unfold today_string, tick, printed. simpl.
  now rewrite Nat.add_1_r.
Qed.

Lemma fetch_smm_price_no_match (e : env) (w : world) (text : pystr) :
  http e smm_url = Ok text ->
  Re.findall smm_price_pattern text = [] ->
  fetch_smm_price e w
  = (Ok (PriceData (today_string e w) (Some 80500%Q) (Some 78300%Q)
           (-1 # 2)%Q),
     printed smm_warning (tick 1 w)).
Proof.
  intros Hp Hf.
  unfold fetch_smm_price, try_except, bind, http_get_text, datetime_now.
  rewrite Hp, Hf. unfold smm_extract, ret, print. simpl.
  unfold today_string, tick, printed. simpl.
  now rewrite Nat.add_1_r.
Qed.

Lemma fetch_smm_price_pair (e : env) (w : world) (text lo hi : pystr)
      (ms : list Re.captures) :
  http e smm_url = Ok text ->
  Re.findall smm_price_pattern text = [(2%nat, hi); (1%nat, lo)] :: ms ->
  five_decimals lo -> five_decimals hi ->
  let battery :=
    ((inject_Z (digits_value lo) + inject_Z (digits_value hi)) / 2)%Q in
  fetch_smm_price e w
  = (Ok (PriceData (today_string e w) (Some battery)
           (Some (battery - 2200)%Q) (-1 # 2)%Q),
     tick 1 w).
Proof.
  intros Hp Hf Hlo Hhi battery.
  unfold fetch_smm_price, try_except, bind, http_get_text, datetime_now.
  rewrite Hp, Hf. unfold smm_extract. cbn [Re.group Nat.eqb].
  rewrite (five_decimals_truthy Hlo).
  unfold bind, lift.
  rewrite (float_of_five_decimals Hlo), (float_of_five_decimals Hhi).
  unfold ret. simpl.
  unfold today_string, tick. simpl.
  now rewrite Nat.add_1_r.
Qed.

Lemma fetch_smm_price_single (e : env) (w : world) (text d : pystr)
      (ms : list Re.captures) :
  http e smm_url = Ok text ->
  Re.findall smm_price_pattern text = [(3%nat, d)] :: ms ->
  five_decimals d ->
  let battery := inject_Z (digits_value d) in
  fetch_smm_price e w
  = (Ok (PriceData (today_string e w) (Some battery)
           (Some (battery - 2200)%Q) (-1 # 2)%Q),
     tick 1 w).
Proof.
  intros Hp Hf Hd battery.
  unfold fetch_smm_price, try_except, bind, http_get_text, datetime_now.
  rewrite Hp, Hf. unfold smm_extract. cbn [Re.group Nat.eqb truthy].
  rewrite (five_decimals_truthy Hd).
  unfold bind, lift.
  rewrite (float_of_five_decimals Hd).
  unfold ret. simpl.
  unfold today_string, tick. simpl.
  now rewrite Nat.add_1_r.
Qed.

(** Every run of [fetch_smm_price] is of one of two kinds. *)
Lemma fetch_smm_price_cases (e : env) (w : world) :
  (no_price (http e smm_url) /\
   exists line,
     fetch_smm_price e w
     = (Ok (smm_prices e w 80500%Q 78300%Q), tick 1 (printed line w)) /\
     match http e smm_url with
     | Raise x => line = smm_error x
     | Ok _ => line = smm_warning
     end)
  \/ (exists text before lo after battery,
        http e smm_url = Ok text /\
        first_five_decimals text before lo after /\
        spot_price_from lo after battery /\
        fetch_smm_price e w
        = (Ok (smm_prices e w battery (battery - 2200)%Q), tick 1 w)).
Proof.
  destruct (http e smm_url) as [text|x] eqn:Hp.
  - destruct (Re.findall smm_price_pattern text) as [|m ms] eqn:Hf.
    + left. split; [now apply findall_smm_nil_iff|].
      exists smm_warning. split; [|reflexivity].
      now apply fetch_smm_price_no_match with (text := text).
    + right.
      destruct (findall_smm_head _ Hf)
        as (before & lo & after & Hfirst & Hcase).
      assert (Hlo : five_decimals lo) by apply Hfirst.
      destruct Hcase as [(hi & rest & Ht & ->) | (-> & Hno)].
      * assert (Hhi : five_decimals hi)
          by (destruct Ht as (ws1 & ws2 & _ & _ & Hhi & _); exact Hhi).
        exists text, before, lo, after. eexists.
        split; [reflexivity|]. split; [exact Hfirst|].
        split; [left; exists hi, rest; split; [exact Ht | reflexivity]|].
        now apply fetch_smm_price_pair with (text := text) (ms := ms).
      * exists text, before, lo, after. eexists.
        split; [reflexivity|]. split; [exact Hfirst|].
        split; [right; split; [exact Hno | reflexivity]|].
        now apply fetch_smm_price_single with (text := text) (ms := ms).
  - left. split; [exact I|].
    exists (smm_error x). split; [|reflexivity].
    now apply fetch_smm_price_raise.
Qed.

(** The leftmost run of five decimal digits of a text is unique. *)
Lemma first_five_decimals_unique (text b1 d1 a1 b2 d2 a2 : pystr) :
  first_five_decimals text b1 d1 a1 -> first_five_decimals text b2 d2 a2 ->
  b1 = b2 /\ d1 = d2 /\ a1 = a2.
Proof.
  intros (E1 & Hd1 & L1) (E2 & Hd2 & L2).
  assert (L : List.length b1 = List.length b2).
  { apply Nat.le_antisymm; [eapply L1 | eapply L2]; eassumption. }
  assert (E : b1 ++ d1 ++ a1 = b2 ++ d2 ++ a2) by congruence.
  apply app_eq_app in E as (l & [[-> E] | [-> E]]);
    rewrite length_app in L;
    (destruct l; [|simpl in L; lia]);
    rewrite ?app_nil_r; simpl in E;
    [symmetry in E|];
    destruct (five_decimals_split _ _ Hd1 Hd2 E) as [-> ->]; auto.
Qed.

(** C2. On the success path (the fetched text has five decimal digits in a
    row) [fetch_smm_price] takes the leftmost such run: followed by blanks,
    a hyphen, blanks and five more digits it gives the midpoint
    [(low + high) / 2] of the pair as [battery_grade_price], otherwise the
    number itself; [industrial_grade_price] is [battery_grade_price - 2200]
    and [change] is [-0.5] whatever the page says; nothing is printed. *)
Theorem fetch_smm_price_success (e : env) (w : world) (text : pystr) :
  http e smm_url = Ok text ->
  has_five_decimals text ->
  exists before lo after battery,
    first_five_decimals text before lo after /\
    spot_price_from lo after battery /\
    fetch_smm_price e w
    = (Ok (PriceData (today_string e w) (Some battery)
             (Some (battery - 2200)%Q) (-1 # 2)%Q),
       tick 1 w).
Proof.
  intros Hp Hhas.
  destruct (fetch_smm_price_cases e w)
    as [[Hno _] | (text' & before & lo & after & battery & Hp' & Hfirst
                   & Hfrom & Hrun)].
  - rewrite Hp in Hno. contradiction.
  - rewrite Hp in Hp'. injection Hp' as <-.
    exists before, lo, after, battery. auto.
Qed.

(** C3. When the fetch of the spot page raises (a timeout included) or the
    fetched text has no five decimal digits in a row, [fetch_smm_price]
    returns exactly [battery_grade_price = 80500.0],
    [industrial_grade_price = 78300.0], [change = -0.5], and prints one
    line: the error line on an exception, the warning line otherwise. *)
Theorem fetch_smm_price_fallback (e : env) (w : world) :
  no_price (http e smm_url) ->
  exists line,
    fetch_smm_price e w
    = (Ok (PriceData (today_string e w) (Some 80500%Q) (Some 78300%Q)
             (-1 # 2)%Q),
       World (stdout w ++ [line]) (clock_reads w + 1) (disk w)) /\
    match http e smm_url with
    | Raise x => line = smm_error x
    | Ok _ => line = smm_warning
    end.
Proof.
  intros Hno.
  destruct (fetch_smm_price_cases e w)
    as [(_ & line & Hrun & Hline)
       | (text & before & lo & after & battery & Hp & Hfirst & _)].
  - exists line. split; [exact Hrun | exact Hline].
  - rewrite Hp in Hno. exfalso. apply Hno.
    exists before, lo, after. split; apply Hfirst.
Qed.

(** C8. On every return path of [fetch_smm_price] (extraction, no pattern
    found, exception) both prices are set and
    [industrial_grade_price = battery_grade_price - 2200]. *)
Theorem fetch_smm_price_offset (e : env) (w : world) :
  exists (p : price_data) (w' : world) (battery industrial : float),
    fetch_smm_price e w = (Ok p, w') /\
    battery_grade_price p = Some battery /\
    industrial_grade_price p = Some industrial /\
    (industrial == battery - 2200)%Q.
Proof.
  destruct (fetch_smm_price_cases e w)
    as [(_ & line & Hrun & _)
       | (text & before & lo & after & battery & _ & _ & _ & Hrun)].
  - eexists _, _, 80500%Q, 78300%Q. rewrite Hrun.
    split; [reflexivity|]. split; [reflexivity|]. split; reflexivity.
  - eexists _, _, battery, (battery - 2200)%Q. rewrite Hrun.
    split; [reflexivity|]. split; [reflexivity|]. split; reflexivity.
Qed.

End Spot.

Section SpotRange.

Context `{UnicodeData}.

Lemma digits_value_Q (d : pystr) :
  five_decimals d ->
  (0 <= inject_Z (digits_value d) <= 99999)%Q.
Proof.
  intros Hd. destruct (five_decimals_value Hd) as [_ [Hlo Hhi]].
  split.
  - change 0%Q with (inject_Z 0). now rewrite <- Zle_Qle.
  - change 99999%Q with (inject_Z 99999). now rewrite <- Zle_Qle.
Qed.

Lemma spot_price_from_range (lo after : pystr) (battery : float) :
  five_decimals lo -> spot_price_from lo after battery ->
  (0 <= battery <= 99999)%Q.
Proof.
  intros Hlo [(hi & rest & Ht & ->) | (_ & ->)].
  - assert (Hhi : five_decimals hi)
      by (destruct Ht as (ws1 & ws2 & _ & _ & Hhi & _); exact Hhi).
    pose proof (digits_value_Q Hlo) as Ba.
    pose proof (digits_value_Q Hhi) as Bb.
    revert Ba Bb.
    generalize (inject_Z (digits_value lo)), (inject_Z (digits_value hi)).
    intros a b Ba Bb. unfold Qdiv. change (/ 2)%Q with (1 # 2)%Q.
    split; lra.
  - now apply digits_value_Q.
Qed.

(** C9, as the code has it.  For every page, the [battery_grade_price]
    that [fetch_smm_price] returns lies between [0.0] and [99999.0]: five
    decimal digits write a number between 0 and 99999 (leading zeros are
    digits too), the midpoint of two such numbers lies between them, and
    the fallback [80500.0] is in range. *)
Theorem fetch_smm_price_battery_range (e : env) (w : world) :
  exists (p : price_data) (w' : world) (battery : float),
    fetch_smm_price e w = (Ok p, w') /\
    battery_grade_price p = Some battery /\
    (0 <= battery <= 99999)%Q.
Proof.
  destruct (fetch_smm_price_cases e w)
    as [(_ & line & Hrun & _)
       | (text & before & lo & after & battery & _ & Hfirst & Hfrom & Hrun)].
  - eexists _, _, 80500%Q. rewrite Hrun.
    split; [reflexivity|]. split; [reflexivity|]. split; discriminate.
  - eexists _, _, battery. rewrite Hrun.
    split; [reflexivity|]. split; [reflexivity|].
    apply spot_price_from_range with (lo := lo) (after := after); auto.
    apply Hfirst.
Qed.

End SpotRange.

(** C9, as stated, fails: on a page whose first run of five digits is the
    head of the stock code [000001], the price returned is [0.0], below
    [10000.0]. *)
Lemma fetch_smm_price_battery_below_10000 :
  exists (p : price_data) (w' : world),
    fetch_smm_price (H := SampleUnicode.ucd) Sample.stock_code_env
      Sample.empty_world = (Ok p, w')
    /\ battery_grade_price p = Some (inject_Z 0)
    /\ ~ (10000 <= inject_Z 0 <= 99999)%Q.
Proof.
  eexists _, _. split; [vm_compute; reflexivity|].
  split; [reflexivity|]. intros [Hlo _]. apply Hlo. reflexivity.
Qed.

(** ** Futures price fetcher *)

Section Futures.

Context `{UnicodeData}.

Lemma fetch_futures_price_raise (e : env) (w : world) (x : exn) :
  http e futures_url = Raise x ->
  fetch_futures_price e w
  = (Ok (FuturesData (Some 79800%Q) (3 # 10)%Q), printed (futures_error x) w).
Proof.
  intros Hx. unfold fetch_futures_price, try_except, bind at 1, http_get_text.
  rewrite Hx. reflexivity.
Qed.

Lemma fetch_futures_price_no_match (e : env) (w : world) (text : pystr) :
  http e futures_url = Ok text ->
  Re.findall futures_price_pattern text = [] ->
  fetch_futures_price e w
  = (Ok (FuturesData (Some 79800%Q) (3 # 10)%Q), printed futures_warning w).
Proof.
  intros Hp Hf. unfold fetch_futures_price, try_except, bind, http_get_text.
  rewrite Hp, Hf. reflexivity.
Qed.

Lemma fetch_futures_price_match (e : env) (w : world) (text d : pystr)
      (ms : list Re.captures) :
  http e futures_url = Ok text ->
  Re.findall futures_price_pattern text = [(1%nat, d)] :: ms ->
  five_decimals d ->
  fetch_futures_price e w
  = (Ok (FuturesData (Some (inject_Z (digits_value d))) (3 # 10)%Q), w).
Proof.
  intros Hp Hf Hd. unfold fetch_futures_price, try_except, bind, http_get_text.
  rewrite Hp, Hf. cbn [Re.group Nat.eqb]. unfold lift.
  rewrite (float_of_five_decimals Hd). destruct w; reflexivity.
Qed.

(** C4. If the fetch of the futures page raises or the fetched text has no
    five decimal digits in a row, [fetch_futures_price] returns exactly
    [futures_price = 79800.0], [futures_change = 0.3] (and prints one
    line); otherwise [futures_price] is the number written by the leftmost
    run of five decimal digits of the text and [futures_change] is the
    constant [0.3]. *)
Theorem fetch_futures_price_spec (e : env) (w : world) :
  (no_price (http e futures_url) ->
   exists line,
     fetch_futures_price e w
     = (Ok (FuturesData (Some 79800%Q) (3 # 10)%Q), printed line w))
  /\ (forall text,
        http e futures_url = Ok text -> has_five_decimals text ->
        exists before d after,
          first_five_decimals text before d after /\
          fetch_futures_price e w
          = (Ok (FuturesData (Some (inject_Z (digits_value d))) (3 # 10)%Q),
             w)).
Proof.
  split.
  - intros Hno. destruct (http e futures_url) as [text|x] eqn:Hp.
    + exists futures_warning.
      apply fetch_futures_price_no_match with (text := text); auto.
      now apply findall_futures_nil_iff.
    + exists (futures_error x). now apply fetch_futures_price_raise.
  - intros text Hp Hhas.
    destruct (Re.findall futures_price_pattern text) as [|m ms] eqn:Hf.
    + apply findall_futures_nil_iff in Hf. contradiction.
    + destruct (findall_futures_head _ Hf)
        as (before & d & after & Hfirst & ->).
      exists before, d, after. split; [exact Hfirst|].
      apply fetch_futures_price_match with (text := text) (ms := ms); auto.
      apply Hfirst.
Qed.

End Futures.

(** ** Summary generator *)

Section Summary.

Context `{UnicodeData}.

Lemma Qltb_lt (x y : Q) : Qltb x y = true <-> (x < y)%Q.
Proof.
  unfold Qltb. rewrite negb_true_iff. split.
  - intros Hb. apply Qnot_le_lt. intros Hle.
    apply Qle_bool_iff in Hle. congruence.
  - intros Hlt. destruct (Qle_bool y x) eqn:E; [|reflexivity].
    apply Qle_bool_iff in E. exfalso. now apply (Qlt_not_le x y).
Qed.

Lemma canned_summary_sign (change : float) :
  ((0 < change)%Q -> canned_summary change = canned_rising) /\
  ((change < 0)%Q -> canned_summary change = canned_falling) /\
  ((change == 0)%Q -> canned_summary change = canned_flat).
Proof.
  unfold canned_summary.
  destruct (Qltb 0 change) eqn:E1; [|destruct (Qltb change 0) eqn:E2].
  - apply Qltb_lt in E1. split; [reflexivity|]. split; intros Hc; exfalso.
    + apply (Qlt_irrefl 0). apply Qlt_trans with change; assumption.
    + rewrite Hc in E1. apply (Qlt_irrefl 0). exact E1.
  - apply Qltb_lt in E2. split; [|split]; [|reflexivity|]; intros Hc; exfalso.
    + apply Qltb_lt in Hc. congruence.
    + rewrite Hc in E2. apply (Qlt_irrefl 0). exact E2.
  - split; [|split]; [| |reflexivity]; intros Hc; exfalso;
      apply Qltb_lt in Hc; congruence.
Qed.

Lemma canned_handler (change : float) (e : env) (w : world) :
  (if Qltb 0 change then ret canned_rising
   else if Qltb change 0 then ret canned_falling
   else ret canned_flat) e w
  = (Ok (canned_summary change), w).
Proof.
  unfold canned_summary.
  destruct (Qltb 0 change); [|destruct (Qltb change 0)]; reflexivity.
Qed.

(** The run of [generate_ai_analysis], case by case. *)
Lemma generate_ai_analysis_run (m : market_data) (e : env) (w : world) :
  let change := spot_daily_change_percent (md_spot_price m) in
  let fallback x :=
    (Ok (canned_summary change), printed (analysis_warning x) w) in
  generate_ai_analysis m e w
  = match battery_grade (md_spot_price m), lc_main (md_futures_price m) with
    | Some b, Some f =>
        match llm e (Prompt b change f) with
        | Ok (Some content) =>
            (Ok (strip content),
             printed (analysis_banner ++ strip content) w)
        | Ok None => fallback strip_attribute_error
        | Raise x => fallback x
        end
    | _, _ => fallback format_type_error
    end.
Proof.
  intros change fallback. unfold generate_ai_analysis, try_except.
  fold change.
  destruct (battery_grade (md_spot_price m)) as [b|];
    [|unfold bind at 1, lift; cbn [format_float];
      unfold bind, print; apply canned_handler].
  destruct (lc_main (md_futures_price m)) as [f|];
    [|unfold bind at 1, lift; cbn [format_float];
      unfold bind, print; apply canned_handler].
  unfold bind at 1 2 3, lift, llm_complete. cbn [format_float].
  destruct (llm e (Prompt b change f)) as [[content|]|x].
  - reflexivity.
  - unfold bind, print, str_strip. apply canned_handler.
  - unfold bind, print. apply canned_handler.
Qed.

Lemma generate_ai_analysis_failure (market_data : market_data) (e : env)
      (w : world) :
  llm_fails e ->
  exists x,
    generate_ai_analysis market_data e w
    = (Ok (canned_summary
             (spot_daily_change_percent (md_spot_price market_data))),
       printed (analysis_warning x) w).
Proof.
  intros Hfail. rewrite generate_ai_analysis_run.
  destruct (battery_grade (md_spot_price market_data)) as [b|]; [|eauto].
  destruct (lc_main (md_futures_price market_data)) as [f|]; [|eauto].
  specialize
    (Hfail (Prompt b (spot_daily_change_percent (md_spot_price market_data))
              f)).
  destruct (llm e _) as [[content|]|x]; [contradiction| |]; eauto.
Qed.

(** C5. Whatever the report, when the language-model call fails the
    summary returned depends on the sign of
    [spot_price.daily_change_percent] only: the canned "rising" sentence
    when it is positive, the canned "falling" sentence when it is negative,
    the canned "flat" sentence when it is zero (and a warning is
    printed). *)
Theorem generate_ai_analysis_fallback (market_data : market_data) (e : env)
      (w : world) :
  llm_fails e ->
  let change := spot_daily_change_percent (md_spot_price market_data) in
  (exists x,
     snd (generate_ai_analysis market_data e w)
     = printed (analysis_warning x) w) /\
  ((0 < change)%Q ->
   fst (generate_ai_analysis market_data e w) = Ok canned_rising) /\
  ((change < 0)%Q ->
   fst (generate_ai_analysis market_data e w) = Ok canned_falling) /\
  ((change == 0)%Q ->
   fst (generate_ai_analysis market_data e w) = Ok canned_flat).
Proof.
  intros Hfail change.
  destruct (generate_ai_analysis_failure market_data w Hfail) as [x Hrun].
  destruct (canned_summary_sign change) as (Hpos & Hneg & Hzero).
  rewrite Hrun. cbn [fst snd]. fold change.
  split; [exists x; reflexivity|].
  split; [|split]; intros Hc; f_equal; auto.
Qed.

(** The three canned sentences are three different sentences. *)
Lemma canned_sentences_differ :
  canned_rising <> canned_falling /\ canned_rising <> canned_flat /\
  canned_falling <> canned_flat.
Proof. repeat split; vm_compute; discriminate. Qed.

End Summary.

(** ** History synthesizer: the two claims *)

Section HistoryClaims.

Lemma nth_error_range_30 (k : nat) :
  (k < 30)%nat ->
  nth_error (py_range 30 0 (-1)) k = Some (30 - Z.of_nat k).
Proof.
  intros Hk. rewrite range_30_0.
  do 30 (destruct k as [|k]; [reflexivity|]). lia.
Qed.

Lemma length_points (e : env) (l : list Z) (n : nat) :
  List.length (points e n l) = List.length l.
Proof. revert n. induction l; intros n; simpl; auto. Qed.

Lemma prices_of_points (e : env) (l : list Z) (n : nat) :
  map hp_price (points e n l) = map price_of l.
Proof. revert n. induction l; intros n; simpl; f_equal; auto. Qed.

Lemma price_of_range (i : Z) : 78500 <= price_of i <= 83000.
Proof.
  unfold price_of, base_price.
  pose proof (Z.mod_pos_bound i 10). lia.
Qed.

Lemma price_of_periodic (i j : Z) :
  i mod 10 = j mod 10 -> price_of i = price_of j.
Proof. unfold price_of. now intros ->. Qed.

(** C1, as the code has it.  Run on a date [today] from 0001-01-31 on,
    with every clock reading of the call on that day,
    [generate_price_history] returns exactly 30 points; the point of index
    [k] (0 is the oldest) carries the date of the day [30 - k] days before
    [today], so the dates run in increasing order over the 30 days that
    precede [today], [today] excluded; the price of the point [i] days
    before [today] is [80500 + (i % 10) * 500 - 2000]; and when the oldest
    day is in the year 1000 or later the date strings themselves are
    strictly increasing. *)
Theorem generate_price_history_spec (e : env) (w : world) (today : Z) :
  30 < today <= Datetime.MAXORDINAL ->
  (forall k, (k < 30)%nat ->
     toordinal (clock e (clock_reads w + k)) = today) ->
  exists history : list history_point,
    generate_price_history e w = (Ok history, tick 30 w) /\
    List.length history = 30%nat /\
    (forall k, (k < 30)%nat ->
       nth_error history k
       = Some (HistoryPoint (date_string (today - 30 + Z.of_nat k))
                 (80500 + ((30 - Z.of_nat k) mod 10) * 500 - 2000))) /\
    (year_1000 <= today - 30 ->
     forall j k pj pk, (j < k)%nat ->
       nth_error history j = Some pj -> nth_error history k = Some pk ->
       str_lt (hp_date pj) (hp_date pk)).
Proof.
  intros Htoday Hday.
  exists (map (fun i => HistoryPoint (date_string (today - i)) (price_of i))
            (py_range 30 0 (-1))).
  assert (Hnth : forall k, (k < 30)%nat ->
            nth_error
              (map (fun i => HistoryPoint (date_string (today - i))
                               (price_of i)) (py_range 30 0 (-1))) k
            = Some (HistoryPoint (date_string (today - 30 + Z.of_nat k))
                      (80500 + ((30 - Z.of_nat k) mod 10) * 500 - 2000))).
  { intros k Hk. rewrite nth_error_map, (nth_error_range_30 Hk).
    cbn [option_map]. unfold price_of, base_price.
    do 2 f_equal. f_equal. lia. }
  split; [|split; [|split; [exact Hnth|]]]; cycle 2.
  { intros _ j k pj pk Hjk Hj Hk.
    assert (Hk30 : (k < 30)%nat).
    { assert (Hsome : nth_error
                (map (fun i => HistoryPoint (date_string (today - i))
                                 (price_of i)) (py_range 30 0 (-1))) k
                <> None) by congruence.
      apply nth_error_Some in Hsome. now rewrite length_map in Hsome. }
    rewrite Hnth in Hj, Hk by lia.
    assert (Hlt : str_lt (date_string (today - 30 + Z.of_nat j))
                    (date_string (today - 30 + Z.of_nat k)))
      by (apply date_string_increasing; lia).
    revert Hj Hk Hlt.
    generalize (date_string (today - 30 + Z.of_nat j)),
               (date_string (today - 30 + Z.of_nat k)),
               (80500 + (30 - Z.of_nat j) mod 10 * 500 - 2000),
               (80500 + (30 - Z.of_nat k) mod 10 * 500 - 2000).
    intros dj dk vj vk [= <-] [= <-] Hlt. exact Hlt. }
  - rewrite generate_price_history_run.
    + rewrite points_same_day with (today := today); auto.
    + intros k Hk. rewrite (Hday k Hk). exact Htoday.
  - rewrite length_map. reflexivity.
Qed.

(** C10. Every price of the sequence [generate_price_history] returns lies
    between 78500 and 83000; the price of a point depends on its number of
    days before the reference modulo 10 only, so two points whose indices
    differ by 10 carry the same price. *)
Theorem generate_price_history_prices (e : env) (w : world) :
  (forall k, (k < 30)%nat ->
     30 < toordinal (clock e (clock_reads w + k)) <= Datetime.MAXORDINAL) ->
  exists history : list history_point,
    generate_price_history e w = (Ok history, tick 30 w) /\
    Forall (fun p => 78500 <= hp_price p <= 83000) history /\
    (forall k p, nth_error history k = Some p ->
       hp_price p = price_of (30 - Z.of_nat k)) /\
    (forall i j, i mod 10 = j mod 10 -> price_of i = price_of j) /\
    (forall k p q,
       nth_error history k = Some p ->
       nth_error history (k + 10) = Some q ->
       hp_price p = hp_price q).
Proof.
  intros Hclock.
  exists (points e (clock_reads w) (py_range 30 0 (-1))).
  assert (Hnth : forall k p,
             nth_error (points e (clock_reads w) (py_range 30 0 (-1))) k
             = Some p ->
             (k < 30)%nat /\ hp_price p = price_of (30 - Z.of_nat k)).
  { intros k p Hk.
    assert (Hlt : (k < 30)%nat).
    { assert (Hsome : nth_error
                (points e (clock_reads w) (py_range 30 0 (-1))) k <> None)
        by congruence.
      apply nth_error_Some in Hsome. rewrite length_points in Hsome.
      exact Hsome. }
    split; [exact Hlt|].
    apply (f_equal (option_map hp_price)) in Hk.
    rewrite <- nth_error_map, prices_of_points, nth_error_map in Hk.
    rewrite (nth_error_range_30 Hlt) in Hk. now injection Hk. }
  split; [now apply generate_price_history_run|].
  split; [|split; [|split]].
  - apply Forall_forall. intros p Hp.
    apply In_nth_error in Hp as [k Hk].
    destruct (Hnth k p Hk) as [_ ->]. apply price_of_range.
  - intros k p Hk. now apply Hnth.
  - exact price_of_periodic.
  - intros k p q Hp Hq.
    destruct (Hnth _ _ Hp) as [_ ->]. destruct (Hnth _ _ Hq) as [_ ->].
    apply price_of_periodic.
    replace (30 - Z.of_nat (k + 10)) with (30 - Z.of_nat k + (-1) * 10)
      by lia.
    now rewrite Z.mod_add.
Qed.

End HistoryClaims.

(** C1, as stated, fails: not for every invocation date.  On 0001-01-15
    the call raises [OverflowError].  And when midnight passes during the
    call (ten readings on 2024-11-05, the others on 2024-11-06) the 30
    dates run from 2024-10-06 to 2024-11-05 and leave 2024-10-16 out: they
    are not the 30 days before any one date. *)
Lemma generate_price_history_not_every_date :
  (toordinal (clock SampleCases.year_one 0) = 15 /\
   fst (generate_price_history SampleCases.year_one Sample.empty_world)
   = Raise Datetime.overflow_error) /\
  (toordinal (clock SampleClocks.midnight 0) = 739195 /\
   toordinal (clock SampleClocks.midnight 29) = 739196 /\
   exists history : list history_point,
     generate_price_history SampleClocks.midnight Sample.empty_world
     = (Ok history, tick 30 Sample.empty_world) /\
     List.length history = 30%nat /\
     nth_error (map hp_date history) 0 = Some (date_string 739165) /\
     nth_error (map hp_date history) 29 = Some (date_string 739195) /\
     (forall p, In p history -> hp_date p <> date_string 739175)).
Proof.
  split; [split; [reflexivity | vm_compute; reflexivity]|].
  split; [reflexivity|]. split; [reflexivity|].
  eexists. split; [vm_compute; reflexivity|].
  split; [reflexivity|]. split; [vm_compute; reflexivity|].
  split; [vm_compute; reflexivity|].
  intros p Hin E.
  repeat (destruct Hin as [<- | Hin]; [vm_compute in E; discriminate E|]).
  exact Hin.
Qed.

(** ** The whole pipeline *)

Section Pipeline.

Context `{UnicodeData}.

Lemma bind_ok {A B : Type} (m : M A) (f : A -> M B) (e : env) (w w' : world)
      (a : A) :
  m e w = (Ok a, w') -> bind m f e w = f a e w'.
Proof. intros Hm. unfold bind. now rewrite Hm. Qed.

Lemma bind_raise {A B : Type} (m : M A) (f : A -> M B) (e : env)
      (w w' : world) (x : exn) :
  m e w = (Raise x, w') -> bind m f e w = (Raise x, w').
Proof. intros Hm. unfold bind. now rewrite Hm. Qed.

Lemma length_strftime_Ymd (d : datetime) :
  List.length (Datetime.strftime_Ymd d) = 10%nat.
Proof.
  unfold Datetime.strftime_Ymd.
  destruct (Datetime.ord2ymd (toordinal d)) as [[y m] dd].
  rewrite !length_app, !length_zero_padded. reflexivity.
Qed.

Lemma isoformat_not_empty (d : datetime) : Datetime.isoformat d <> [].
Proof.
  unfold Datetime.isoformat. intros E.
  apply (f_equal (@List.length char)) in E.
  rewrite !length_app, length_strftime_Ymd in E. simpl in E. lia.
Qed.

Lemma strftime_Ymd_not_empty (d : datetime) : Datetime.strftime_Ymd d <> [].
Proof.
  intros E. apply (f_equal (@List.length char)) in E.
  rewrite length_strftime_Ymd in E. discriminate.
Qed.

(** With both fetchers failing, [fetch_all_data] returns the report made of
    the fallback values and of the synthetic history. *)
Lemma fetch_all_data_offline (e : env) (w : world) :
  both_fetchers_fail e -> clock_in_range e ->
  exists (m : market_data) (w' : world),
    fetch_all_data e w = (Ok m, w') /\
    md_timestamp m <> [] /\ md_date m <> [] /\
    md_spot_price m = SpotRecord (Some 80500%Q) (Some 78300%Q) (-1 # 2)%Q /\
    md_futures_price m = FuturesRecord (Some 79800%Q) (3 # 10)%Q /\
    List.length (md_price_history m) = 30%nat /\
    md_ai_analysis m = None.
Proof.
  intros [[x1 Hx1] [x2 Hx2]] Hclock.
  unfold fetch_all_data.
  rewrite bind_ok with (a := tt) (w' := printed fetching_banner w)
    by reflexivity.
  erewrite bind_ok by (apply fetch_smm_price_raise; exact Hx1).
  erewrite bind_ok by (apply fetch_futures_price_raise; exact Hx2).
  erewrite bind_ok
    by (apply generate_price_history_run; intros k _; apply Hclock).
  unfold bind, datetime_now, ret.
  eexists _, _. split; [reflexivity|].
  cbn [md_timestamp md_date md_spot_price md_futures_price md_price_history
       md_ai_analysis pd_date battery_grade_price industrial_grade_price
       change futures_price futures_change smm_prices].
  split; [apply isoformat_not_empty|].
  split; [apply strftime_Ymd_not_empty|].
  split; [reflexivity|]. split; [reflexivity|]. split; [|reflexivity].
  rewrite length_points. reflexivity.
Qed.

Lemma canned_summary_not_empty (change : float) : canned_summary change <> [].
Proof.
  unfold canned_summary.
  destruct (Qltb 0 change); [|destruct (Qltb change 0)];
    vm_compute; discriminate.
Qed.

(** [generate_ai_analysis] never raises: it returns the trimmed answer of
    the language model, or one of the canned sentences. *)
Lemma generate_ai_analysis_total (m : market_data) (e : env) (w : world) :
  exists (a : pystr) (w' : world),
    generate_ai_analysis m e w = (Ok a, w') /\
    (a = canned_summary (spot_daily_change_percent (md_spot_price m))
     \/ exists p content, llm e p = Ok (Some content) /\ a = strip content).
Proof.
  rewrite generate_ai_analysis_run.
  destruct (battery_grade (md_spot_price m)) as [b|];
    [|eexists _, _; split; [reflexivity | left; reflexivity]].
  destruct (lc_main (md_futures_price m)) as [f|];
    [|eexists _, _; split; [reflexivity | left; reflexivity]].
  destruct (llm e _) as [[content|]|x] eqn:Hl.
  - eexists _, _. split; [reflexivity|]. right. eauto.
  - eexists _, _. split; [reflexivity | left; reflexivity].
  - eexists _, _. split; [reflexivity | left; reflexivity].
Qed.

(** C6, as the code has it.  When both page fetches raise (and the clock
    reads a date from 0001-01-31 on), [fetch_all_data] and
    [generate_ai_analysis] return without raising and [main] builds a
    report whose date and timestamp are non-empty, whose spot and futures
    prices are the fallback values, whose history has 30 points and whose
    [ai_analysis] is a string; that string is non-empty whenever the
    language model fails or its answer is not blank; and [main] goes on with
    [save_data], of which it returns the exception if there is one. *)
Theorem main_offline (e : env) (w : world) :
  both_fetchers_fail e -> clock_in_range e ->
  exists (report : market_data) (w1 : world) (a : pystr),
    main_report e w = (Ok report, w1) /\
    md_timestamp report <> [] /\ md_date report <> [] /\
    md_spot_price report
    = SpotRecord (Some 80500%Q) (Some 78300%Q) (-1 # 2)%Q /\
    md_futures_price report = FuturesRecord (Some 79800%Q) (3 # 10)%Q /\
    List.length (md_price_history report) = 30%nat /\
    md_ai_analysis report = Some a /\
    (llm_answer_not_blank e -> a <> []) /\
    (forall w2, save_data report e w1 = (Ok tt, w2) ->
       main e w
       = (Ok tt,
          printed (Json.dumps (json_of_market_data report))
            (printed done_banner w2))) /\
    (forall x w2, save_data report e w1 = (Raise x, w2) ->
       main e w = (Raise x, w2)).
Proof.
  intros Hfail Hclock.
  destruct (fetch_all_data_offline w Hfail Hclock)
    as (m & w0 & Hm & Hts & Hdate & Hspot & Hfut & Hhist & _).
  destruct (generate_ai_analysis_total m e w0) as (a & w1 & Ha & Hsrc).
  assert (Hreport : main_report e w = (Ok (set_ai_analysis a m), w1)).
  { unfold main_report.
    erewrite bind_ok by exact Hm. erewrite bind_ok by exact Ha.
    reflexivity. }
  exists (set_ai_analysis a m), w1, a.
  split; [exact Hreport|].
  do 5 (split; [assumption|]).
  split; [reflexivity|].
  split; [|split].
  - intros Hnb. destruct Hsrc as [-> | (p & content & Hl & ->)].
    + apply canned_summary_not_empty.
    + specialize (Hnb p). now rewrite Hl in Hnb.
  - intros w2 Hs. unfold main.
    erewrite bind_ok by exact Hreport. erewrite bind_ok by exact Hs.
    reflexivity.
  - intros x w2 Hs. unfold main.
    erewrite bind_ok by exact Hreport. apply bind_raise. exact Hs.
Qed.

End Pipeline.

(** C6, as stated, fails, in two ways.  With both pages unreachable and a
    language model that answers with an empty completion, the pipeline
    completes and the [ai_analysis] of the report is the empty string.
    And with both pages unreachable on 0001-01-15, the history raises
    [OverflowError] and so does the pipeline, before [save_data] is
    reached. *)
Lemma main_offline_empty_summary :
  (both_fetchers_fail SampleRuns.offline_empty_answer /\
   exists (report : market_data) (w1 w2 : world),
     main_report (H := SampleUnicode.ucd) SampleRuns.offline_empty_answer
       Sample.empty_world = (Ok report, w1) /\
     main (H := SampleUnicode.ucd) SampleRuns.offline_empty_answer
       Sample.empty_world = (Ok tt, w2) /\
     md_ai_analysis report = Some []) /\
  (both_fetchers_fail SampleCases.year_one /\
   fst (main_report (H := SampleUnicode.ucd) SampleCases.year_one
          Sample.empty_world) = Raise Datetime.overflow_error /\
   fst (main (H := SampleUnicode.ucd) SampleCases.year_one
          Sample.empty_world) = Raise Datetime.overflow_error).
Proof.
  split.
  - split.
    + split; exists Sample.timeout; reflexivity.
    + eexists _, _, _. split; [vm_compute; reflexivity|].
      split; [vm_compute; reflexivity | reflexivity].
  - split.
    + split; exists Sample.timeout; reflexivity.
    + split; vm_compute; reflexivity.
Qed.

(** ** Persistence: what the encoder writes, the decoder reads back *)

Section JsonNumbers.

Import Json JsonSpec.

Lemma is_digit_digit_char (v : Z) :
  0 <= v <= 9 -> is_digit (digit_char v) = true.
Proof.
  intros Hv. unfold is_digit, digit_char.
  apply andb_true_intro. split; apply N.leb_le; lia.
Qed.

Lemma digit_char_value (v : Z) :
  0 <= v <= 9 -> Z.of_N (digit_char v) - 48 = v.
Proof. intros Hv. unfold digit_char. lia. Qed.

Lemma digits_to_Z_app (d1 d2 : pystr) :
  digits_to_Z (d1 ++ d2)
  = fold_left (fun acc c => 10 * acc + (Z.of_N c - 48)) d2 (digits_to_Z d1).
Proof. unfold digits_to_Z. apply fold_left_app. Qed.

Lemma digits_to_Z_snoc (d : pystr) (c : char) :
  digits_to_Z (d ++ [c]) = 10 * digits_to_Z d + (Z.of_N c - 48).
Proof. rewrite digits_to_Z_app. reflexivity. Qed.

(** What [digits_fuel] computes, given enough fuel. *)
Lemma digits_fuel_spec (fuel : nat) :
  forall (n : Z) (acc : pystr),
    0 <= n < 2 ^ Z.of_nat fuel -> (0 < fuel)%nat ->
    exists ds,
      digits_fuel fuel n acc = ds ++ acc /\
      Forall (fun c => is_digit c = true) ds /\
      digits_to_Z ds = n /\
      (n = 0 -> ds = [48%N]) /\
      (0 < n -> exists c ds', ds = c :: ds' /\ c <> 48%N).
Proof.
  induction fuel as [|fuel IH]; intros n acc Hn Hf; [lia|].
  cbn [digits_fuel].
  assert (Hr : 0 <= n mod 10 < 10) by (apply Z.mod_pos_bound; lia).
  destruct (n / 10 =? 0) eqn:Eq.
  - apply Z.eqb_eq in Eq.
    assert (Hsmall : n mod 10 = n) by (Z.div_mod_to_equations; lia).
    exists [Z.to_N (48 + n mod 10)]. split; [reflexivity|].
    split; [constructor; [apply (is_digit_digit_char (v := n mod 10)); lia
                         | constructor]|].
    split; [unfold digits_to_Z; cbn [fold_left]; lia|].
    split.
    + intros ->. reflexivity.
    + intros Hpos. eexists _, _. split; [reflexivity|]. lia.
  - apply Z.eqb_neq in Eq.
    assert (Hq : 0 < n / 10 < 2 ^ Z.of_nat fuel).
    { rewrite Nat2Z.inj_succ, Z.pow_succ_r in Hn by lia.
      Z.div_mod_to_equations. lia. }
    assert (Hfuel : (0 < fuel)%nat).
    { destruct fuel; [simpl in Hq; lia | lia]. }
    destruct (IH (n / 10) (Z.to_N (48 + n mod 10) :: acc)) as
      (ds & E & Hdig & Hval & _ & Hhead); [lia | exact Hfuel|].
    exists (ds ++ [Z.to_N (48 + n mod 10)]).
    split; [rewrite E, <- app_assoc; reflexivity|].
    split.
    { apply Forall_app. split; [exact Hdig|].
      constructor; [apply (is_digit_digit_char (v := n mod 10)); lia
                   | constructor]. }
    split.
    { rewrite digits_to_Z_snoc, Hval. Z.div_mod_to_equations. lia. }
    split.
    { intros ->. exfalso. apply Eq. reflexivity. }
    intros _. destruct Hhead as (c & ds' & -> & Hc); [lia|].
    exists c, (ds' ++ [Z.to_N (48 + n mod 10)]). split; [reflexivity | exact Hc].
Qed.

Lemma digits_spec (n : Z) :
  0 <= n ->
  Forall (fun c => is_digit c = true) (digits n) /\
  digits_to_Z (digits n) = n /\
  (n = 0 -> digits n = [48%N]) /\
  (0 < n -> exists c ds', digits n = c :: ds' /\ c <> 48%N).
Proof.
  intros Hn. unfold digits.
  destruct (@digits_fuel_spec (S (Z.to_nat (Z.log2 n))) n [])
    as (ds & E & H1 & H2 & H3 & H4).
  - split; [exact Hn|].
    rewrite Nat2Z.inj_succ, Z2Nat.id by apply Z.log2_nonneg.
    destruct (Z.eq_dec n 0) as [->|Hnz]; [reflexivity|].
    apply Z.log2_spec. lia.
  - lia.
  - rewrite app_nil_r in E. rewrite E. auto.
Qed.

Lemma take_digits_app (ds rest : pystr) :
  Forall (fun c => is_digit c = true) ds -> not_digit_head rest ->
  take_digits (ds ++ rest) = (ds, rest).
Proof.
  intros Hds Hrest. induction Hds as [|c ds Hc Hds IH]; simpl.
  - destruct rest as [|c rest]; [reflexivity|].
    simpl in Hrest. simpl. now rewrite Hrest.
  - now rewrite Hc, IH.
Qed.

Lemma delimited_not_digit (rest : pystr) :
  delimited rest -> not_digit_head rest.
Proof.
  destruct rest as [|c rest]; [auto|]. intros [-> | ->]; reflexivity.
Qed.

Lemma take_fraction_delimited (rest : pystr) :
  delimited rest -> take_fraction rest = ([], rest).
Proof.
  destruct rest as [|c rest]; [reflexivity|]. intros [-> | ->]; reflexivity.
Qed.

Lemma take_exponent_delimited (rest : pystr) :
  delimited rest -> take_exponent rest = (None, rest).
Proof.
  destruct rest as [|c rest]; [reflexivity|]. intros [-> | ->]; reflexivity.
Qed.

(** The integer part of a number is read back whole. *)
Lemma take_integer_digits (n : Z) (rest : pystr) :
  0 <= n -> not_digit_head rest ->
  take_integer (digits n ++ rest) = Some (digits n, rest).
Proof.
  intros Hn Hrest. destruct (digits_spec Hn) as (Hdig & _ & Hzero & Hpos).
  destruct (Z.eq_dec n 0) as [->|Hnz].
  - rewrite (Hzero eq_refl). reflexivity.
  - destruct Hpos as (c & ds' & E & Hc); [lia|].
    rewrite E in Hdig |- *. cbn [app take_integer].
    apply N.eqb_neq in Hc. rewrite Hc.
    inversion Hdig as [|? ? Hc1 Hds']; subst.
    rewrite Hc1. f_equal.
    change (c :: ds' ++ rest) with ((c :: ds') ++ rest).
    apply take_digits_app; auto.
Qed.

Lemma digits_head_not_minus (n : Z) (rest : pystr) :
  0 <= n ->
  exists c s', digits n ++ rest = c :: s' /\ is_digit c = true.
Proof.
  intros Hn. destruct (digits_spec Hn) as (Hdig & _ & Hzero & Hpos).
  destruct (Z.eq_dec n 0) as [->|Hnz].
  - rewrite (Hzero eq_refl). eexists _, _. split; reflexivity.
  - destruct Hpos as (c & ds' & E & Hc); [lia|].
    rewrite E in Hdig |- *. inversion Hdig; subst.
    eexists _, _. split; [reflexivity | assumption].
Qed.

Lemma is_digit_not_minus (c : char) : is_digit c = true -> (c =? 45)%N = false.
Proof.
  unfold is_digit. intros Hc. apply andb_prop in Hc as [H1 H2].
  apply N.leb_le in H1. apply N.eqb_neq. lia.
Qed.

(** An [int] is read back. *)
Lemma scan_number_int (n : Z) (rest : pystr) :
  delimited rest -> scan_number (int_repr n ++ rest) = Some (JInt n, rest).
Proof.
  intros Hrest. unfold int_repr, scan_number.
  destruct (n <? 0) eqn:En.
  - apply Z.ltb_lt in En. cbn [app]. rewrite N.eqb_refl.
    rewrite take_integer_digits
      by (try lia; now apply delimited_not_digit).
    rewrite take_fraction_delimited, take_exponent_delimited by assumption.
    destruct (digits_spec (n := Z.abs n)) as (_ & -> & _); [lia|].
    replace (- Z.abs n) with n by lia. reflexivity.
  - apply Z.ltb_ge in En. cbn [app].
    destruct (@digits_head_not_minus (Z.abs n) rest) as (c & s' & E & Hc);
      [lia|].
    rewrite E. rewrite (@is_digit_not_minus c Hc). rewrite <- E.
    rewrite take_integer_digits
      by (try lia; now apply delimited_not_digit).
    rewrite take_fraction_delimited, take_exponent_delimited by assumption.
    destruct (digits_spec (n := Z.abs n)) as (_ & -> & _); [lia|].
    replace (Z.abs n) with n by lia. reflexivity.
Qed.

Lemma zero_padded_digits (k : nat) :
  forall F, 0 <= F < 10 ^ Z.of_nat k ->
    Forall (fun c => is_digit c = true) (Datetime.zero_padded k F) /\
    digits_to_Z (Datetime.zero_padded k F) = F.
Proof.
  induction k as [|k IH]; intros F HF.
  - simpl in *. split; [constructor | unfold digits_to_Z; simpl; lia].
  - cbn [Datetime.zero_padded].
    rewrite Nat2Z.inj_succ, Z.pow_succ_r in HF by lia.
    assert (Hr : 0 <= F mod 10 < 10) by (apply Z.mod_pos_bound; lia).
    destruct (IH (F / 10)) as [Hd Hv]; [Z.div_mod_to_equations; lia|].
    split.
    + apply Forall_app. split; [exact Hd|].
      constructor; [apply (is_digit_digit_char (v := F mod 10)); lia
                   | constructor].
    + rewrite digits_to_Z_snoc, Hv. Z.div_mod_to_equations. lia.
Qed.

Lemma find_scale_ge (fuel k : nat) (x : Q) : (k <= find_scale fuel k x)%nat.
Proof.
  revert k. induction fuel as [|fuel IH]; intros k; simpl; [lia|].
  destruct (_ =? 0); [lia|]. specialize (IH (S k)). lia.
Qed.

(** The decimal a float is written as, read back. *)
Lemma decimal_float_repr (x : Q) (k : nat) (negative : bool)
      (int frac : pystr) :
  (0 < k)%nat ->
  (Qnum x * 10 ^ Z.of_nat k) mod Zpos (Qden x) = 0 ->
  negative = (Qnum x <? 0) ->
  List.length frac = k ->
  digits_to_Z int * 10 ^ Z.of_nat k + digits_to_Z frac
  = Z.abs (Qnum x) * 10 ^ Z.of_nat k / Zpos (Qden x) ->
  decimal_float negative int frac 0 = Qred x.
Proof.
  intros Hk Hdiv Hneg Hlen Hval. unfold decimal_float.
  rewrite Hlen, Hval.
  assert (Hscale : 0 < 10 ^ Z.of_nat k) by (apply Z.pow_pos_nonneg; lia).
  replace (0 - Z.of_nat k <? 0) with true by (symmetry; apply Z.ltb_lt; lia).
  replace (- (0 - Z.of_nat k)) with (Z.of_nat k) by lia.
  apply Qred_complete. unfold Qeq. cbn [Qnum Qden].
  rewrite Z2Pos.id by exact Hscale.
  remember (10 ^ Z.of_nat k) as scale eqn:Es.
  remember (Zpos (Qden x)) as D eqn:ED.
  assert (HD : 0 < D) by (subst D; lia).
  apply Z.mod_divide in Hdiv; [|lia]. destruct Hdiv as [q Hq].
  destruct (Qnum x <? 0) eqn:En; subst negative.
  - apply Z.ltb_lt in En.
    replace (Z.abs (Qnum x) * scale) with ((- q) * D) by lia.
    rewrite Z.div_mul by lia. lia.
  - apply Z.ltb_ge in En.
    replace (Z.abs (Qnum x) * scale) with (q * D) by lia.
    rewrite Z.div_mul by lia. lia.
Qed.

(** A plain [float] is read back, as the reduced fraction. *)
Lemma scan_number_float (x : Q) (rest : pystr) :
  plain_float x = true -> delimited rest ->
  scan_number (float_repr x ++ rest) = Some (JFloat (Qred x), rest).
Proof.
  intros Hplain Hrest. unfold plain_float in Hplain.
  apply andb_prop in Hplain as [Hplain _].
  apply andb_prop in Hplain as [Hdiv _]. apply Z.eqb_eq in Hdiv.
  unfold float_repr.
  pose proof (find_scale_ge 16 1 x) as Hk.
  remember (find_scale 16 1 x) as k eqn:Ek.
  remember (10 ^ Z.of_nat k) as scale eqn:Es.
  remember (Z.abs (Qnum x) * scale / Zpos (Qden x)) as n eqn:En.
  assert (Hscale : 0 < scale) by (subst scale; apply Z.pow_pos_nonneg; lia).
  assert (Hn : 0 <= n).
  { subst n. apply Z.div_pos; [|lia]. apply Z.mul_nonneg_nonneg; lia. }
  assert (HI : 0 <= n / scale) by (apply Z.div_pos; lia).
  assert (HF : 0 <= n mod scale < scale) by (apply Z.mod_pos_bound; lia).
  destruct (@zero_padded_digits k (n mod scale)) as [Hzd Hzv];
    [subst scale; lia|].
  assert (Hznil : Datetime.zero_padded k (n mod scale) <> []).
  { intros E. apply (f_equal (@List.length char)) in E.
    rewrite length_zero_padded in E. simpl in E. lia. }
  assert (Hdot : not_digit_head
                   (46%N :: Datetime.zero_padded k (n mod scale) ++ rest))
    by reflexivity.
  assert (Hval : digits_to_Z (digits (n / scale)) * 10 ^ Z.of_nat k
                 + digits_to_Z (Datetime.zero_padded k (n mod scale))
                 = Z.abs (Qnum x) * 10 ^ Z.of_nat k / Zpos (Qden x)).
  { destruct (digits_spec HI) as (_ & -> & _). rewrite Hzv, <- Es, <- En.
    Z.div_mod_to_equations. lia. }
  assert (Hfrac : take_fraction
                    (46%N :: Datetime.zero_padded k (n mod scale) ++ rest)
                  = (Datetime.zero_padded k (n mod scale), rest)).
  { cbn [take_fraction]. rewrite N.eqb_refl.
    rewrite take_digits_app by (auto using delimited_not_digit).
    destruct (Datetime.zero_padded k (n mod scale)); [congruence|reflexivity]. }
  assert (Hdec : forall negative, negative = (Qnum x <? 0) ->
             decimal_float negative (digits (n / scale))
               (Datetime.zero_padded k (n mod scale)) 0 = Qred x).
  { intros negative Hneg. apply decimal_float_repr with (k := k).
    - lia.
    - rewrite <- Es. exact Hdiv.
    - exact Hneg.
    - apply length_zero_padded.
    - exact Hval. }
  assert (Htext : forall sign,
             (sign ++ digits (n / scale) ++ [46%N]
              ++ Datetime.zero_padded k (n mod scale)) ++ rest
             = sign ++ digits (n / scale)
               ++ 46%N :: Datetime.zero_padded k (n mod scale) ++ rest).
  { intros sign. rewrite <- !app_assoc. reflexivity. }
  rewrite Htext. unfold scan_number.
  destruct (Qnum x <? 0) eqn:Esign.
  - cbn [app]. rewrite N.eqb_refl.
    rewrite take_integer_digits, Hfrac by assumption.
    rewrite take_exponent_delimited by assumption.
    rewrite (Hdec true eq_refl).
    destruct (Datetime.zero_padded k (n mod scale)); [congruence|reflexivity].
  - cbn [app].
    destruct (@digits_head_not_minus (n / scale)
                (46%N :: Datetime.zero_padded k (n mod scale) ++ rest))
      as (c & s' & E & Hc); [lia|].
    rewrite E. rewrite (@is_digit_not_minus c Hc). rewrite <- E.
    rewrite take_integer_digits, Hfrac by assumption.
    rewrite take_exponent_delimited by assumption.
    rewrite (Hdec false eq_refl).
    destruct (Datetime.zero_padded k (n mod scale)); [congruence|reflexivity].
Qed.

End JsonNumbers.

Section JsonStrings.

Import Json JsonSpec.

Lemma scan_string_quote (s : pystr) : scan_string (quote :: s) = Some ([], s).
Proof. reflexivity. Qed.

Lemma scan_string_plain (c : char) (s : pystr) :
  c <> 34%N -> c <> 92%N -> (32 <= c)%N ->
  scan_string (c :: s) = cons_char c (scan_string s).
Proof.
  intros H1 H2 H3. cbn [scan_string].
  apply N.eqb_neq in H1, H2. rewrite H1, H2.
  replace (c <? 32)%N with false by (symmetry; apply N.ltb_ge; lia).
  reflexivity.
Qed.

Lemma scan_string_two (esc ch : char) (s : pystr) :
  unescape esc = Some ch -> esc <> 117%N ->
  scan_string (backslash :: esc :: s) = cons_char ch (scan_string s).
Proof.
  intros Hu Hesc. cbn [scan_string].
  change (backslash =? 34)%N with false. change (backslash =? 92)%N with true.
  cbv iota. apply N.eqb_neq in Hesc. rewrite Hesc, Hu. reflexivity.
Qed.

Lemma scan_string_u (a b c d uni : char) (s : pystr) :
  decode_hex4 a b c d = Some uni -> is_high_surrogate uni = false ->
  scan_string (backslash :: 117%N :: a :: b :: c :: d :: s)
  = cons_char uni (scan_string s).
Proof.
  intros Hd Hs. cbn [scan_string].
  change (backslash =? 34)%N with false. change (backslash =? 92)%N with true.
  change (117 =? 117)%N with true. cbv iota. rewrite Hd, Hs. reflexivity.
Qed.

Lemma control_chars_checked :
  forallb
    (fun n =>
       let c := N.of_nat n in
       match decode_hex4 48%N 48%N (hex_digit (c / 16)%N) (hex_digit (c mod 16)%N) with
       | Some u => (u =? c)%N
       | None => false
       end)
    (seq 0 32) = true.
Proof. vm_compute. reflexivity. Qed.

Lemma decode_hex4_control (c : char) :
  (c < 32)%N ->
  decode_hex4 48%N 48%N (hex_digit (c / 16)%N) (hex_digit (c mod 16)%N) = Some c.
Proof.
  intros Hc. pose proof control_chars_checked as Hall.
  rewrite forallb_forall in Hall.
  specialize (Hall (N.to_nat c)). rewrite N2Nat.id in Hall. cbv zeta in Hall.
  destruct (decode_hex4 _ _ _ _) as [u|].
  - f_equal. apply N.eqb_eq. apply Hall. apply in_seq. lia.
  - discriminate Hall. apply in_seq. lia.
Qed.

(** One character, escaped, is read back as that character. *)
Lemma scan_string_escape_char (c : char) (s : pystr) :
  scan_string (escape_char c ++ s) = cons_char c (scan_string s).
Proof.
  unfold escape_char.
  destruct (c =? 34)%N eqn:E1;
    [apply N.eqb_eq in E1; subst c; now apply scan_string_two|].
  destruct (c =? 92)%N eqn:E2;
    [apply N.eqb_eq in E2; subst c; now apply scan_string_two|].
  destruct (c =? 10)%N eqn:E3;
    [apply N.eqb_eq in E3; subst c; now apply scan_string_two|].
  destruct (c =? 13)%N eqn:E4;
    [apply N.eqb_eq in E4; subst c; now apply scan_string_two|].
  destruct (c =? 9)%N eqn:E5;
    [apply N.eqb_eq in E5; subst c; now apply scan_string_two|].
  destruct (c =? 8)%N eqn:E6;
    [apply N.eqb_eq in E6; subst c; now apply scan_string_two|].
  destruct (c =? 12)%N eqn:E7;
    [apply N.eqb_eq in E7; subst c; now apply scan_string_two|].
  apply N.eqb_neq in E1, E2.
  destruct (c <? 32)%N eqn:E8.
  - apply N.ltb_lt in E8. cbn [app].
    apply scan_string_u; [now apply decode_hex4_control|].
    unfold is_high_surrogate. apply andb_false_intro1. apply N.leb_gt. lia.
  - apply N.ltb_ge in E8. cbn [app]. now apply scan_string_plain.
Qed.

(** A string is read back. *)
Lemma scan_string_encode (s rest : pystr) :
  scan_string (flat_map escape_char s ++ quote :: rest) = Some (s, rest).
Proof.
  induction s as [|c s IH]; [reflexivity|].
  cbn [flat_map]. rewrite <- app_assoc, scan_string_escape_char, IH.
  reflexivity.
Qed.

Lemma encode_string_shape (s rest : pystr) :
  encode_string s ++ rest
  = quote :: flat_map escape_char s ++ quote :: rest.
Proof. unfold encode_string. cbn [app]. now rewrite <- app_assoc. Qed.

(** Only the quote, the backslash and the control characters are escaped:
    every other character, the non-ASCII ones among them, is written as it
    is. *)
Lemma escape_char_literal (c : char) :
  (32 <= c)%N -> c <> 34%N -> c <> 92%N -> escape_char c = [c].
Proof.
  intros H1 H2 H3. unfold escape_char.
  apply N.eqb_neq in H2, H3. rewrite H2, H3.
  repeat match goal with
         | |- context [(c =? ?k)%N] =>
             replace (c =? k)%N with false by (symmetry; apply N.eqb_neq; lia)
         end.
  replace (c <? 32)%N with false by (symmetry; apply N.ltb_ge; lia).
  reflexivity.
Qed.

Lemma encode_string_literal (s : pystr) :
  Forall (fun c => (32 <= c)%N /\ c <> 34%N /\ c <> 92%N) s ->
  encode_string s = quote :: s ++ [quote].
Proof.
  intros Hs. unfold encode_string. cbn [app]. do 2 f_equal.
  induction Hs as [|c s (H1 & H2 & H3) Hs IH]; [reflexivity|].
  cbn [flat_map]. rewrite escape_char_literal, IH by assumption. reflexivity.
Qed.

End JsonStrings.

Section JsonRoundTrip.

Import Json JsonSpec.

Lemma encode_array_cons (level : nat) (x : json) (items : list json) :
  encode level (JArray (x :: items))
  = [91%N] ++ newline_indent (S level) ++ encode (S level) x
    ++ encode_more_items (S level) items ++ newline_indent level ++ [93%N].
Proof.
  cbn [encode]. do 3 f_equal. f_equal.
  induction items as [|y items IH]; [reflexivity|].
  cbn [encode_more_items]. rewrite IH. reflexivity.
Qed.

Lemma encode_object_cons (level : nat) (k : pystr) (v : json)
      (members : list (pystr * json)) :
  encode level (JObject ((k, v) :: members))
  = [123%N] ++ newline_indent (S level)
    ++ encode_string k ++ [58; 32]%N ++ encode (S level) v
    ++ encode_more_members (S level) members
    ++ newline_indent level ++ [125%N].
Proof.
  cbn [encode]. do 5 f_equal. f_equal.
  induction members as [|[k' v'] members IH]; [reflexivity|].
  cbn [encode_more_members]. rewrite IH. reflexivity.
Qed.

Lemma skip_ws_repeat (n : nat) (s : pystr) :
  skip_ws (repeat 32%N n ++ s) = skip_ws s.
Proof. induction n as [|n IH]; [reflexivity | exact IH]. Qed.

Lemma skip_ws_newline_indent (level : nat) (s : pystr) :
  skip_ws (newline_indent level ++ s) = skip_ws s.
Proof. unfold newline_indent. cbn [app skip_ws is_ws]. apply skip_ws_repeat. Qed.

Lemma is_digit_value_head (c : char) : is_digit c = true -> value_head c.
Proof.
  unfold is_digit, value_head, is_ws. intros Hc.
  apply andb_prop in Hc as [H1 H2]. apply N.leb_le in H1, H2.
  repeat split; try lia.
  repeat (apply orb_false_intro); apply N.eqb_neq; lia.
Qed.

Lemma encode_head (level : nat) (j : json) :
  exists c s, encode level j = c :: s /\ value_head c.
Proof.
  destruct j as [|[|]|n|x|str|[|x items]|[|[k v] members]];
    try (eexists _, _; split; [reflexivity | repeat split; discriminate]).
  - unfold encode, int_repr.
    destruct (n <? 0).
    + eexists _, _. split; [reflexivity | repeat split; discriminate].
    + destruct (@digits_head_not_minus (Z.abs n) []) as (c & s & E & Hc);
        [lia|].
      rewrite app_nil_r in E. exists c, s. split; [exact E|].
      now apply is_digit_value_head.
  - unfold encode, float_repr. cbv zeta.
    destruct (Qnum x <? 0).
    + eexists _, _. split; [reflexivity | repeat split; discriminate].
    + match goal with
      | |- context [digits ?n ++ ?r] =>
          destruct (@digits_head_not_minus n r) as (c & s & E & Hc)
      end.
      { apply Z.div_pos; [|apply Z.pow_pos_nonneg; lia].
        apply Z.div_pos; [|lia].
        apply Z.mul_nonneg_nonneg; [lia|].
        apply Z.pow_nonneg; lia. }
      exists c, s. split; [exact E|]. now apply is_digit_value_head.
Qed.

Lemma skip_ws_value (level : nat) (j : json) (rest : pystr) :
  skip_ws (encode level j ++ rest) = encode level j ++ rest.
Proof.
  destruct (encode_head level j) as (c & s & E & Hws & _).
  rewrite E. cbn [app skip_ws]. now rewrite Hws.
Qed.

Lemma head_is_value (level : nat) (j : json) (rest : pystr) (c : char) :
  c = 93%N \/ c = 125%N \/ c = 44%N ->
  head_is c (encode level j ++ rest) = false.
Proof.
  intros Hc.
  destruct (encode_head level j) as (a & s & E & Hws & H1 & H2 & H3).
  rewrite E. cbn [app head_is]. apply N.eqb_neq.
  destruct Hc as [-> | [-> | ->]]; auto.
Qed.

Lemma scan_once_unfold (fuel : nat) (s : pystr) :
  scan_once (S fuel) s
  = if head_is 34%N s then
      match scan_string (tl s) with
      | Some (str, r) => Some (JString str, r)
      | None => None
      end
    else if head_is 123%N s then
      if head_is 125%N (skip_ws (tl s))
      then Some (JObject [], tl (skip_ws (tl s)))
      else
        match scan_members fuel (skip_ws (tl s)) with
        | Some (pairs, r) => Some (JObject (dict_of_pairs pairs), r)
        | None => None
        end
    else if head_is 91%N s then
      if head_is 93%N (skip_ws (tl s))
      then Some (JArray [], tl (skip_ws (tl s)))
      else
        match scan_items fuel (skip_ws (tl s)) with
        | Some (values, r) => Some (JArray values, r)
        | None => None
        end
    else
      match scan_literal s with
      | Some r => Some r
      | None => scan_number s
      end.
Proof. reflexivity. Qed.

Lemma scan_items_unfold (fuel : nat) (s : pystr) :
  scan_items (S fuel) s
  = match scan_once fuel s with
    | Some (value, r) =>
        if head_is 44%N (skip_ws r) then
          match scan_items fuel (skip_ws (tl (skip_ws r))) with
          | Some (values, r2) => Some (value :: values, r2)
          | None => None
          end
        else if head_is 93%N (skip_ws r) then Some ([value], tl (skip_ws r))
        else None
    | None => None
    end.
Proof. reflexivity. Qed.

Lemma scan_members_unfold (fuel : nat) (s : pystr) :
  scan_members (S fuel) s
  = if head_is 34%N s then
      match scan_string (tl s) with
      | Some (key, r) =>
          if head_is 58%N (skip_ws r) then
            match scan_once fuel (skip_ws (tl (skip_ws r))) with
            | Some (value, r2) =>
                if head_is 44%N (skip_ws r2) then
                  match scan_members fuel (skip_ws (tl (skip_ws r2))) with
                  | Some (pairs, r4) => Some ((key, value) :: pairs, r4)
                  | None => None
                  end
                else if head_is 125%N (skip_ws r2)
                     then Some ([(key, value)], tl (skip_ws r2))
                     else None
            | None => None
            end
          else None
      | None => None
      end
    else None.
Proof. reflexivity. Qed.

(** A text that begins with a digit or a minus sign is read as a number. *)
Lemma scan_once_number (fuel : nat) (c : char) (s : pystr) :
  is_digit c = true \/ c = 45%N ->
  scan_once (S fuel) (c :: s) = scan_number (c :: s).
Proof.
  intros Hc. rewrite scan_once_unfold.
  assert (Hne : forall k, (k = 34 \/ k = 123 \/ k = 91 \/ k = 110 \/ k = 116
                           \/ k = 102)%N -> c <> k).
  { intros k Hk. destruct Hc as [Hc | ->].
    - unfold is_digit in Hc. apply andb_prop in Hc as [H1 H2].
      apply N.leb_le in H1, H2. lia.
    - lia. }
  cbn [head_is].
  replace (c =? 34)%N with false by (symmetry; apply N.eqb_neq, Hne; lia).
  replace (c =? 123)%N with false by (symmetry; apply N.eqb_neq, Hne; lia).
  replace (c =? 91)%N with false by (symmetry; apply N.eqb_neq, Hne; lia).
  unfold scan_literal. cbn [strip_prefix].
  replace (110 =? c)%N with false
    by (symmetry; apply N.eqb_neq; intros E; apply (Hne 110%N); lia).
  replace (116 =? c)%N with false
    by (symmetry; apply N.eqb_neq; intros E; apply (Hne 116%N); lia).
  replace (102 =? c)%N with false
    by (symmetry; apply N.eqb_neq; intros E; apply (Hne 102%N); lia).
  reflexivity.
Qed.

Lemma int_repr_head (n : Z) (rest : pystr) :
  exists c s, int_repr n ++ rest = c :: s /\ (is_digit c = true \/ c = 45%N).
Proof.
  unfold int_repr. destruct (n <? 0).
  - eexists _, _. split; [reflexivity | now right].
  - destruct (@digits_head_not_minus (Z.abs n) rest) as (c & s & E & Hc);
      [lia|].
    exists c, s. split; [exact E | now left].
Qed.

Lemma float_repr_head (x : Q) (rest : pystr) :
  exists c s, float_repr x ++ rest = c :: s /\ (is_digit c = true \/ c = 45%N).
Proof.
  unfold float_repr. cbv zeta. destruct (Qnum x <? 0).
  - eexists _, _. split; [reflexivity | now right].
  - cbn [app]. rewrite <- app_assoc.
    match goal with
    | |- context [digits ?n ++ ?r] =>
        destruct (@digits_head_not_minus n r) as (c & s & E & Hc)
    end.
    { apply Z.div_pos; [|apply Z.pow_pos_nonneg; lia].
      apply Z.div_pos; [|lia].
      apply Z.mul_nonneg_nonneg; [lia|].
      apply Z.pow_nonneg; lia. }
    exists c, s. split; [exact E | now left].
Qed.

Lemma scan_once_string (fuel : nat) (str rest : pystr) :
  scan_once (S fuel) (encode_string str ++ rest) = Some (JString str, rest).
Proof.
  rewrite scan_once_unfold, encode_string_shape.
  cbn [head_is tl]. change (quote =? 34)%N with true. cbv iota.
  now rewrite scan_string_encode.
Qed.

Lemma more_items_delimited (level : nat) (l : list json) (level' : nat)
      (rest : pystr) :
  delimited (encode_more_items level l ++ newline_indent level' ++ rest).
Proof. destruct l; cbn; auto. Qed.

Lemma more_members_delimited (level : nat) (l : list (pystr * json))
      (level' : nat) (rest : pystr) :
  delimited (encode_more_members level l ++ newline_indent level' ++ rest).
Proof. destruct l as [|[k v] l]; cbn; auto. Qed.

Lemma skip_ws_stop (c : char) (s : pystr) :
  is_ws c = false -> skip_ws (c :: s) = c :: s.
Proof. intros Hc. cbn [skip_ws]. now rewrite Hc. Qed.

Lemma scan_items_encode (l : list json) :
  Forall reads_back l -> Forall wf_json l ->
  forall (x : json) (level fuel : nat) (rest : pystr),
    reads_back x -> wf_json x ->
    (items_size (x :: l) <= fuel)%nat ->
    scan_items fuel
      (encode (S level) x ++ encode_more_items (S level) l
       ++ newline_indent level ++ 93%N :: rest)
    = Some (normalize x :: map normalize l, rest).
Proof.
  induction 1 as [|y l Hy Hl IH]; intros Hwf x level fuel rest Hx Hwx Hsize.
  - destruct fuel as [|fuel]; [simpl in Hsize; lia|].
    rewrite scan_items_unfold. cbn [encode_more_items app].
    rewrite Hx; [|exact Hwx | now (cbn; right) | simpl in Hsize; lia].
    rewrite skip_ws_newline_indent, skip_ws_stop by reflexivity.
    reflexivity.
  - destruct fuel as [|fuel]; [simpl in Hsize; lia|].
    apply Forall_cons_iff in Hwf as [Hwy Hwl].
    rewrite scan_items_unfold.
    rewrite Hx; [|exact Hwx | apply more_items_delimited
                 | cbn in Hsize |- *; lia].
    cbn [encode_more_items app]. rewrite skip_ws_stop by reflexivity.
    cbn [head_is tl]. change (44 =? 44)%N with true. cbv iota.
    rewrite <- !app_assoc, skip_ws_newline_indent, skip_ws_value.
    rewrite (IH Hwl y level fuel rest Hy Hwy); [reflexivity|].
    cbn in Hsize |- *. lia.
Qed.

Ltac norm_app :=
  repeat (rewrite <- app_assoc || rewrite <- app_comm_cons
          || rewrite app_nil_l).

Lemma skip_ws_encode_string (k s : pystr) :
  skip_ws (encode_string k ++ s) = encode_string k ++ s.
Proof. reflexivity. Qed.

Lemma scan_members_encode (l : list (pystr * json)) :
  Forall (fun kv => reads_back (snd kv)) l ->
  Forall (fun kv => wf_json (snd kv)) l ->
  forall (k : pystr) (v : json) (level fuel : nat) (rest : pystr),
    reads_back v -> wf_json v ->
    (members_size ((k, v) :: l) <= fuel)%nat ->
    scan_members fuel
      (encode_string k ++ 58%N :: 32%N :: encode (S level) v
       ++ encode_more_members (S level) l
       ++ newline_indent level ++ 125%N :: rest)
    = Some ((k, normalize v) :: map normalize_member l, rest).
Proof.
  induction 1 as [|[k' v'] l Hy Hl IH];
    intros Hwf k v level fuel rest Hv Hwv Hsize;
    (destruct fuel as [|fuel]; [simpl in Hsize; lia|]);
    rewrite scan_members_unfold, encode_string_shape;
    cbn [head_is tl]; change (quote =? 34)%N with true; cbv iota;
    rewrite scan_string_encode, skip_ws_stop by reflexivity;
    cbn [head_is tl]; change (58 =? 58)%N with true; cbv iota;
    change (skip_ws (32%N :: ?s)) with (skip_ws s);
    rewrite skip_ws_value.
  - cbn [encode_more_members app].
    rewrite Hv; [|exact Hwv | now (cbn; right) | simpl in Hsize; lia].
    rewrite skip_ws_newline_indent, skip_ws_stop by reflexivity.
    reflexivity.
  - apply Forall_cons_iff in Hwf as [Hwy Hwl]. cbn [snd] in Hy, Hwy.
    rewrite Hv; [|exact Hwv | apply more_members_delimited
                 | cbn in Hsize |- *; lia].
    cbn [encode_more_members]. norm_app.
    rewrite skip_ws_stop by reflexivity.
    cbn [head_is tl]. change (44 =? 44)%N with true. cbv iota.
    rewrite skip_ws_newline_indent, skip_ws_encode_string.
    rewrite (IH Hwl k' v' level fuel rest Hy Hwy); [reflexivity|].
    cbn in Hsize |- *. lia.
Qed.

(** A dictionary without repeated keys is the list of its pairs. *)
Lemma dict_set_fresh (k : pystr) (v : json) (d : list (pystr * json)) :
  ~ In k (map fst d) -> dict_set k v d = d ++ [(k, v)].
Proof.
  induction d as [|[k' v'] d IH]; intros Hk; [reflexivity|].
  cbn [dict_set]. unfold str_eqb.
  destruct (list_eq_dec N.eq_dec k k') as [->|_].
  - exfalso. apply Hk. now left.
  - cbn [app]. rewrite IH; [reflexivity|]. intros Hin. apply Hk. now right.
Qed.

Lemma dict_of_pairs_nodup (pairs : list (pystr * json)) :
  NoDup (map fst pairs) -> dict_of_pairs pairs = pairs.
Proof.
  unfold dict_of_pairs.
  enough (Hgen : forall acc,
             NoDup (map fst (acc ++ pairs)) ->
             fold_left (fun d kv => dict_set (fst kv) (snd kv) d) pairs acc
             = acc ++ pairs)
    by (intros Hnd; apply (Hgen [] Hnd)).
  induction pairs as [|[k v] pairs IH]; intros acc Hnd.
  - now rewrite app_nil_r.
  - cbn [fold_left fst snd].
    rewrite dict_set_fresh.
    + rewrite IH; rewrite <- app_assoc; [reflexivity | exact Hnd].
    + rewrite map_app in Hnd. cbn [map fst] in Hnd.
      apply NoDup_remove_2 in Hnd. intros Hin. apply Hnd.
      apply in_or_app. now left.
Qed.

Lemma map_fst_normalize (l : list (pystr * json)) :
  map fst (map normalize_member l) = map fst l.
Proof. rewrite map_map. reflexivity. Qed.

(** Every well-formed value is read back. *)
Theorem scan_once_encode (j : json) : reads_back j.
Proof.
  induction j as [| b | n | x | str | items IH | members IH]
    using json_induction;
    intros level fuel rest Hwf Hrest Hsize;
    (destruct fuel as [|fuel]; [simpl in Hsize; lia|]).
  - reflexivity.
  - destruct b; reflexivity.
  - cbn [encode normalize].
    destruct (int_repr_head n rest) as (c & s & E & Hc).
    rewrite E, scan_once_number, <- E by exact Hc.
    now apply scan_number_int.
  - cbn [encode normalize]. inversion Hwf as [| | |? Hplain| | |]; subst.
    destruct (float_repr_head x rest) as (c & s & E & Hc).
    rewrite E, scan_once_number, <- E by exact Hc.
    now apply scan_number_float.
  - cbn [encode normalize]. apply scan_once_string.
  - inversion Hwf as [| | | | |? Hitems|]; subst.
    destruct items as [|x items]; [reflexivity|].
    apply Forall_cons_iff in IH as [Hx IH].
    apply Forall_cons_iff in Hitems as [Hwx Hitems].
    rewrite encode_array_cons. norm_app. rewrite scan_once_unfold.
    cbn [head_is tl].
    change (91 =? 34)%N with false. change (91 =? 123)%N with false.
    change (91 =? 91)%N with true. cbv iota.
    rewrite skip_ws_newline_indent, skip_ws_value.
    rewrite head_is_value by auto.
    rewrite scan_items_encode; auto.
    cbn in Hsize. unfold items_size. cbn. lia.
  - inversion Hwf as [| | | | | |? Hnd Hmembers]; subst.
    destruct members as [|[k v] members]; [reflexivity|].
    apply Forall_cons_iff in IH as [Hv IH].
    apply Forall_cons_iff in Hmembers as [Hwv Hmembers].
    cbn [snd] in Hv, Hwv.
    rewrite encode_object_cons. norm_app. rewrite scan_once_unfold.
    cbn [head_is tl].
    change (123 =? 34)%N with false. change (123 =? 123)%N with true.
    cbv iota.
    rewrite skip_ws_newline_indent, skip_ws_encode_string.
    assert (Hh : forall s, head_is 125%N (encode_string k ++ s) = false)
      by reflexivity.
    rewrite Hh.
    rewrite scan_members_encode; auto.
    + cbn [normalize]. do 3 f_equal.
      change ((k, normalize v) :: map normalize_member members)
        with (map normalize_member ((k, v) :: members)).
      apply dict_of_pairs_nodup. now rewrite map_fst_normalize.
    + cbn in Hsize. unfold members_size. cbn. lia.
Qed.

Lemma length_more_items (level : nat) (l : list json) :
  Forall (fun x => forall level, (size x <= List.length (encode level x))%nat)
    l ->
  (items_size l <= List.length (encode_more_items level l))%nat.
Proof.
  induction 1 as [|y l Hy Hl IH]; [simpl; lia|].
  cbn [items_size fold_right encode_more_items]. fold (items_size l).
  rewrite !length_app. specialize (Hy level). cbn [List.length]. lia.
Qed.

Lemma length_more_members (level : nat) (l : list (pystr * json)) :
  Forall (fun kv =>
            forall level, (size (snd kv) <= List.length (encode level (snd kv)))%nat)
    l ->
  (members_size l <= List.length (encode_more_members level l))%nat.
Proof.
  induction 1 as [|[k v] l Hy Hl IH]; [simpl; lia|].
  cbn [members_size fold_right encode_more_members snd].
  fold (members_size l).
  rewrite !length_app. specialize (Hy level). cbn [List.length snd] in *. lia.
Qed.

(** The text of a value is at least as long as the decoder needs fuel. *)
Lemma size_le_length (j : json) :
  forall level, (size j <= List.length (encode level j))%nat.
Proof.
  induction j as [| b | n | x | str | items IH | members IH]
    using json_induction; intros level.
  - simpl. lia.
  - destruct b; simpl; lia.
  - destruct (encode_head level (JInt n)) as (c & s & E & _).
    rewrite E. simpl. lia.
  - destruct (encode_head level (JFloat x)) as (c & s & E & _).
    rewrite E. simpl. lia.
  - destruct (encode_head level (JString str)) as (c & s & E & _).
    rewrite E. simpl. lia.
  - destruct items as [|x items]; [simpl; lia|].
    apply Forall_cons_iff in IH as [Hx IH].
    rewrite encode_array_cons. rewrite !length_app.
    pose proof (length_more_items (S level) IH) as Hm.
    specialize (Hx (S level)).
    cbn [size fold_right]. fold (items_size items).
    cbn [List.length]. lia.
  - destruct members as [|[k v] members]; [simpl; lia|].
    apply Forall_cons_iff in IH as [Hv IH].
    rewrite encode_object_cons. rewrite !length_app.
    pose proof (length_more_members (S level) IH) as Hm.
    specialize (Hv (S level)). cbn [snd] in Hv.
    cbn [size fold_right snd]. fold (members_size members).
    cbn [List.length]. lia.
Qed.

(** [json.loads(json.dumps(j, ensure_ascii=False, indent=2))] is [j], with
    every float as the reduced fraction. *)
Lemma loads_dumps (j : json) :
  wf_json j -> loads (dumps j) = Some (normalize j).
Proof.
  intros Hwf. unfold loads, dumps.
  rewrite <- (app_nil_r (encode 0 j)) at 2.
  rewrite skip_ws_value.
  rewrite (@scan_once_encode j 0%nat (S (List.length (encode 0 j))) []);
    [reflexivity | exact Hwf | exact I|].
  pose proof (size_le_length j 0). lia.
Qed.

(** What is read back equals what was written, as Python compares. *)
Lemma normalize_equal (j : json) : json_equal (normalize j) j.
Proof.
  induction j as [| b | n | x | str | items IH | members IH]
    using json_induction; cbn [normalize]; try constructor.
  - apply Qred_correct.
  - induction IH; cbn [map]; constructor; auto.
  - induction IH as [|[k v] l Hv Hl IHl]; cbn [map]; constructor; auto.
Qed.

End JsonRoundTrip.

(** ** Persistence: the file system calls *)

Section FileSystem.

Lemma path_eqb_refl (p : path) : path_eqb p p = true.
Proof. unfold path_eqb. destruct (list_eq_dec string_dec p p); congruence. Qed.

Lemma path_eqb_eq (p q : path) : path_eqb p q = true <-> p = q.
Proof.
  unfold path_eqb. destruct (list_eq_dec string_dec p q); split;
    congruence.
Qed.

Lemma path_eqb_neq (p q : path) : p <> q -> path_eqb p q = false.
Proof.
  intros Hne. destruct (path_eqb p q) eqn:E; [|reflexivity].
  apply path_eqb_eq in E. contradiction.
Qed.

Lemma isdir_iff (p : path) (fs : filesystem) :
  isdir p fs = true <-> p = [] \/ In p (fs_dirs fs).
Proof.
  unfold isdir. destruct p as [|c p].
  - split; auto.
  - rewrite existsb_exists. split.
    + intros (q & Hin & Heq). apply path_eqb_eq in Heq. subst q. now right.
    + intros [Hnil | Hin]; [discriminate|].
      exists (c :: p). split; [exact Hin | apply path_eqb_refl].
Qed.

Lemma isdir_add (p q : path) (dirs : list path) files :
  isdir q (Filesystem (p :: dirs) files) = true <->
  q = p \/ isdir q (Filesystem dirs files) = true.
Proof.
  rewrite !isdir_iff. cbn [fs_dirs In]. intuition (subst; auto).
Qed.

Lemma above_refl (p : path) : above p p.
Proof. now exists []. Qed.

Lemma above_tail (q : path) (c : string) (p : path) :
  above q p -> above q (c :: p).
Proof. intros [below ->]. now exists (c :: below). Qed.

Lemma above_cons (q : path) (c : string) (p : path) :
  above q (c :: p) -> q = c :: p \/ above q p.
Proof.
  intros [[|b below] E].
  - left. now rewrite E.
  - right. injection E as _ ->. now exists below.
Qed.

(** In a closed file system the directories above a directory exist. *)
Lemma fs_closed_above (fs : filesystem) (p : path) :
  fs_closed fs -> isdir p fs = true ->
  forall q, above q p -> isdir q fs = true.
Proof.
  intros Hc. induction p as [|c p IH]; intros Hp q Hq.
  - destruct Hq as [below E]. symmetry in E.
    apply app_eq_nil in E as [_ ->]. reflexivity.
  - apply above_cons in Hq as [-> | Hq]; [exact Hp|].
    apply IH; [|exact Hq]. apply (Hc (c :: p) Hp).
Qed.

(** What [makedirs] does when the system refuses nothing and no file is in
    the way: every directory on the way exists afterwards, no file is
    touched, nothing else is created. *)
Lemma makedirs_ok (e : env) (name : path) :
  no_mkdir_faults e ->
  forall w, fs_closed (disk w) -> way_clear name (disk w) ->
    exists fs',
      makedirs name e w = (Ok tt, with_disk fs' w) /\
      fs_files fs' = fs_files (disk w) /\
      fs_closed fs' /\
      (forall q, above q name -> isdir q fs' = true) /\
      (forall q, isdir q fs' = true <->
                 isdir q (disk w) = true \/ above q name).
Proof.
  intros Hnf. induction name as [|c head IH]; intros w Hc Hclear.
  - exists (disk w). cbn [makedirs].
    unfold bind, ret, try_except, mkdir, bind, check_fault, get_disk.
    rewrite Hnf. cbn [path_exists isdir orb raise].
    split; [destruct w; reflexivity|].
    split; [reflexivity|]. split; [exact Hc|]. split.
    + intros q [below E]. symmetry in E.
      apply app_eq_nil in E as [_ ->]. reflexivity.
    + intros q. split; [auto|]. intros [Hq | [below E]]; [exact Hq|].
      symmetry in E. apply app_eq_nil in E as [_ ->]. reflexivity.
  - assert (Hclear_head : way_clear head (disk w)).
    { intros q Hq. apply Hclear. now apply above_tail. }
    assert (Hstep1 :
      exists fs1,
        (fs <- get_disk ;;
         if path_exists head fs then ret tt
         else
           try_except (makedirs head)
             (fun x =>
                if String.eqb (exn_class x) "FileExistsError" then ret tt
                else raise x)) e w = (Ok tt, with_disk fs1 w) /\
        fs_files fs1 = fs_files (disk w) /\
        fs_closed fs1 /\
        (forall q, above q head -> isdir q fs1 = true) /\
        (forall q, isdir q fs1 = true <->
                   isdir q (disk w) = true \/ above q head)).
    { unfold bind at 1, get_disk.
      destruct (path_exists head (disk w)) eqn:Eh.
      - exists (disk w). unfold path_exists in Eh.
        rewrite (Hclear_head head (above_refl head)), orb_false_r in Eh.
        split; [destruct w; reflexivity|].
        split; [reflexivity|]. split; [exact Hc|]. split.
        + now apply fs_closed_above.
        + intros q. split; [auto|]. intros [Hq | Hq]; [exact Hq|].
          now apply (fs_closed_above Hc Eh).
      - destruct (IH w Hc Hclear_head) as (fs1 & Hrun & H1 & H2 & H3 & H4).
        exists fs1. unfold try_except. rewrite Hrun. auto. }
    destruct Hstep1 as (fs1 & Hrun1 & Hfiles1 & Hc1 & Habove1 & Hdirs1).
    cbn [makedirs]. unfold bind at 1. rewrite Hrun1.
    unfold try_except, mkdir, bind, check_fault, get_disk.
    rewrite Hnf. cbn [with_disk disk stdout clock_reads].
    assert (Hfile : isfile (c :: head) fs1 = false).
    { unfold isfile. rewrite Hfiles1.
      apply (Hclear (c :: head) (above_refl _)). }
    unfold path_exists at 1. rewrite Hfile, orb_false_r.
    destruct (isdir (c :: head) fs1) eqn:Ed.
    + exists fs1. unfold raise, ret. cbn [with_disk disk]. rewrite Ed.
      split; [reflexivity|]. split; [exact Hfiles1|]. split; [exact Hc1|].
      split.
      * intros q Hq. apply above_cons in Hq as [-> | Hq]; auto.
      * intros q. rewrite Hdirs1. split.
        -- intros [Hq | Hq]; [now left | right; now apply above_tail].
        -- intros [Hq | Hq]; [now left|].
           apply above_cons in Hq as [-> | Hq]; [|now right].
           exact (proj1 (Hdirs1 (c :: head)) Ed).
    + cbn [dirname tl]. rewrite (Habove1 head (above_refl head)).
      exists (Filesystem ((c :: head) :: fs_dirs fs1) (fs_files fs1)).
      unfold put_disk, with_disk. cbn [stdout clock_reads disk].
      split; [reflexivity|]. split; [exact Hfiles1|].
      assert (Hadd : forall q,
                 isdir q (Filesystem ((c :: head) :: fs_dirs fs1)
                            (fs_files fs1)) = true <->
                 q = c :: head \/ isdir q fs1 = true).
      { intros q. rewrite isdir_add. destruct fs1; reflexivity. }
      split; [|split].
      * intros p Hp. apply Hadd in Hp. apply Hadd. right.
        destruct Hp as [-> | Hp]; [apply (Habove1 head (above_refl head))|].
        now apply Hc1.
      * intros q Hq. apply Hadd.
        apply above_cons in Hq as [-> | Hq]; auto.
      * intros q. rewrite Hadd, Hdirs1. split.
        -- intros [-> | [Hq | Hq]];
             [right; apply above_refl | now left
             | right; now apply above_tail].
        -- intros [Hq | Hq]; [auto|].
           apply above_cons in Hq as [-> | Hq]; auto.
Qed.

Lemma read_file_set_file (p : path) (text : pystr) (fs : filesystem) :
  read_file p (set_file p text fs) = Some text.
Proof.
  unfold read_file, set_file. cbn [fs_files find fst].
  now rewrite path_eqb_refl.
Qed.

Lemma find_filter_other (p q : path) (files : list (path * pystr)) :
  q <> p ->
  find (fun f => path_eqb q (fst f))
    (filter (fun f => negb (path_eqb p (fst f))) files)
  = find (fun f => path_eqb q (fst f)) files.
Proof.
  intros Hne. induction files as [|[r t] files IH]; [reflexivity|].
  cbn [filter find fst].
  destruct (path_eqb p r) eqn:Ep; cbn [negb].
  - apply path_eqb_eq in Ep. subst r.
    rewrite (path_eqb_neq Hne). exact IH.
  - cbn [find fst]. destruct (path_eqb q r); [reflexivity | exact IH].
Qed.

Lemma read_file_set_file_other (p q : path) (text : pystr)
      (fs : filesystem) :
  q <> p -> read_file q (set_file p text fs) = read_file q fs.
Proof.
  intros Hne. unfold read_file, set_file. cbn [fs_files find fst].
  rewrite (path_eqb_neq Hne), find_filter_other by exact Hne. reflexivity.
Qed.

Lemma isdir_set_file (p q : path) (text : pystr) (fs : filesystem) :
  isdir q (set_file p text fs) = isdir q fs.
Proof. destruct q; reflexivity. Qed.

(** Writing a file whose directory exists, when the system refuses
    nothing and the text can be encoded. *)
Lemma write_text_file_ok (e : env) (p : path) (text : pystr) (w : world) :
  os_fault e (OpenForWriting p) = None ->
  os_fault e (WriteText p text) = None ->
  isdir p (disk w) = false -> isdir (dirname p) (disk w) = true ->
  utf8_encodable text = true ->
  write_text_file p text e w
  = (Ok tt, with_disk (set_file p text (set_file p [] (disk w))) w).
Proof.
  intros Ho Hw Hp Hd Henc.
  unfold write_text_file, bind, check_fault, get_disk, put_disk, ret.
  rewrite Ho. rewrite Hp, Hd, Henc. cbn [disk stdout clock_reads].
  rewrite Hw. reflexivity.
Qed.

Lemma above_length (q p : path) :
  above q p -> (List.length q <= List.length p)%nat.
Proof. intros [below ->]. rewrite length_app. lia. Qed.

End FileSystem.
(** ** Persistence: [save_data] *)

Section Persistence.

Import Json JsonSpec.

Lemma data_path_not_above (q : path) :
  above q (dirname data_path) -> q <> data_path.
Proof.
  intros Ha ->. apply above_length in Ha. vm_compute in Ha. lia.
Qed.

Lemma isfile_set_file_other (p q : path) (text : pystr) (fs : filesystem) :
  q <> p -> isfile q (set_file p text fs) = isfile q fs.
Proof.
  intros Hne. unfold isfile, set_file. cbn [fs_files existsb fst].
  rewrite (path_eqb_neq Hne). cbn [orb].
  induction (fs_files fs) as [|[r t] files IH]; [reflexivity|].
  cbn [filter existsb fst].
  destruct (path_eqb p r) eqn:Ep; cbn [negb existsb fst].
  - apply path_eqb_eq in Ep. subst r. rewrite (path_eqb_neq Hne). exact IH.
  - now rewrite IH.
Qed.

(** The run of [save_data] on a disk that is ready for it, when the system
    refuses none of its calls and the text can be encoded. *)
Lemma save_data_run (report : market_data) (e : env) (w : world) :
  no_mkdir_faults e ->
  os_fault e (OpenForWriting data_path) = None ->
  os_fault e (WriteText data_path (report_text report)) = None ->
  ready_for_save (disk w) ->
  utf8_encodable (report_text report) = true ->
  exists fs',
    save_data report e w = (Ok tt, printed saved_banner (with_disk fs' w)) /\
    (forall q, above q (dirname data_path) -> isdir q fs' = true) /\
    read_file data_path fs' = Some (report_text report) /\
    (forall q, q <> data_path -> read_file q fs' = read_file q (disk w)) /\
    (forall q, isdir q fs' = true <->
               isdir q (disk w) = true \/ above q (dirname data_path)) /\
    ready_for_save fs'.
Proof.
  intros Hmk Hop Hwr (Hclosed & Hclear & Hfree) Henc.
  destruct (makedirs_ok (name := dirname data_path) Hmk w Hclosed Hclear)
    as (fs1 & Hrun1 & Hfiles1 & Hclosed1 & Hmade & Hdirs1).
  assert (Hfree1 : isdir data_path fs1 = false).
  { destruct (isdir data_path fs1) eqn:E; [|reflexivity].
    apply Hdirs1 in E as [E | E]; [congruence|].
    now apply data_path_not_above in E. }
  pose proof (@write_text_file_ok e data_path (report_text report)
                (with_disk fs1 w) Hop Hwr Hfree1
                (Hmade _ (above_refl _)) Henc) as Hrun2.
  set (fs' := set_file data_path (report_text report)
                (set_file data_path [] fs1)) in *.
  exists fs'. split.
  { unfold save_data. change (path_of_string data_file) with data_path.
    fold (report_text report).
    erewrite bind_ok by exact Hrun1. erewrite bind_ok by exact Hrun2.
    reflexivity. }
  split.
  { intros q Hq. unfold fs'. rewrite !isdir_set_file. now apply Hmade. }
  split; [apply read_file_set_file|].
  split.
  { intros q Hq. unfold fs'.
    rewrite !read_file_set_file_other by exact Hq.
    unfold read_file. now rewrite Hfiles1. }
  split.
  { intros q. unfold fs'. rewrite !isdir_set_file. apply Hdirs1. }
  split; [|split].
  - intros p Hp. unfold fs' in *. rewrite !isdir_set_file in *.
    now apply Hclosed1.
  - intros q Ha. unfold fs'.
    rewrite !isfile_set_file_other by (now apply data_path_not_above).
    unfold isfile. rewrite Hfiles1. apply Hclear, Ha.
  - unfold fs'. rewrite !isdir_set_file. exact Hfree1.
Qed.

(** *** What the encoder writes can be encoded *)

Lemma utf8_encodable_cons (c : char) (s : pystr) :
  utf8_encodable (c :: s) = encodable_char c && utf8_encodable s.
Proof. reflexivity. Qed.

Lemma utf8_encodable_app (a b : pystr) :
  utf8_encodable (a ++ b) = utf8_encodable a && utf8_encodable b.
Proof. apply forallb_app. Qed.

Lemma ascii_encodable (s : pystr) :
  Forall (fun c => (c < 128)%N) s -> utf8_encodable s = true.
Proof.
  induction 1 as [|c s Hc Hs IH]; [reflexivity|].
  rewrite utf8_encodable_cons, IH, andb_true_r.
  unfold encodable_char. apply orb_true_iff. left. apply N.ltb_lt. lia.
Qed.

Lemma zero_padded_ascii (k : nat) :
  forall F, Forall (fun c => (c < 128)%N) (Datetime.zero_padded k F).
Proof.
  induction k as [|k IH]; intros F; cbn [Datetime.zero_padded];
    [constructor|].
  apply Forall_app. split; [apply IH|].
  constructor; [|constructor].
  pose proof (Z.mod_pos_bound F 10). lia.
Qed.

Lemma digits_fuel_ascii (fuel : nat) :
  forall n acc,
    Forall (fun c => (c < 128)%N) acc ->
    Forall (fun c => (c < 128)%N) (digits_fuel fuel n acc).
Proof.
  induction fuel as [|fuel IH]; intros n acc Hacc; cbn [digits_fuel];
    [exact Hacc|].
  assert (Hnext : Forall (fun c => (c < 128)%N)
                    (Z.to_N (48 + n mod 10) :: acc)).
  { constructor; [|exact Hacc]. pose proof (Z.mod_pos_bound n 10). lia. }
  destruct (n / 10 =? 0); [exact Hnext | now apply IH].
Qed.

Lemma int_repr_ascii (n : Z) : Forall (fun c => (c < 128)%N) (int_repr n).
Proof.
  unfold int_repr. apply Forall_app. split.
  - destruct (n <? 0); repeat constructor.
  - apply digits_fuel_ascii. constructor.
Qed.

Lemma float_repr_ascii (x : float) :
  Forall (fun c => (c < 128)%N) (float_repr x).
Proof.
  unfold float_repr. repeat (apply Forall_app; split).
  - destruct (Qnum x <? 0); repeat constructor.
  - apply digits_fuel_ascii. constructor.
  - repeat constructor.
  - apply zero_padded_ascii.
Qed.

Lemma escape_char_encodable (c : char) :
  encodable_char c = true -> utf8_encodable (escape_char c) = true.
Proof.
  intros Hc. unfold escape_char.
  repeat (destruct (_ =? _)%N; [reflexivity|]).
  destruct (c <? 32)%N eqn:E;
    [|now rewrite utf8_encodable_cons, Hc].
  apply N.ltb_lt in E. apply ascii_encodable.
  assert (c / 16 < 2)%N by (apply N.Div0.div_lt_upper_bound; lia).
  assert (c mod 16 < 16)%N by (apply N.mod_lt; lia).
  repeat constructor; unfold backslash, hex_digit; try lia.
  - destruct (_ <? _)%N; lia.
  - destruct (_ <? _)%N; lia.
Qed.

Lemma encode_string_encodable (s : pystr) :
  utf8_encodable s = true -> utf8_encodable (encode_string s) = true.
Proof.
  intros Hs. unfold encode_string.
  rewrite !utf8_encodable_app. cbn [utf8_encodable forallb].
  rewrite andb_true_r. cbn [andb].
  induction s as [|c s IH]; [reflexivity|].
  rewrite utf8_encodable_cons in Hs. apply andb_prop in Hs as [Hc Hs].
  cbn [flat_map]. change (forallb _ ?l) with (utf8_encodable l) in *.
  rewrite utf8_encodable_app, (escape_char_encodable _ Hc). now apply IH.
Qed.

Lemma newline_indent_encodable (level : nat) :
  utf8_encodable (newline_indent level) = true.
Proof.
  apply ascii_encodable. unfold newline_indent.
  constructor; [lia|]. apply Forall_forall. intros c Hc.
  apply repeat_spec in Hc. subst c. lia.
Qed.

Lemma more_items_encodable (level : nat) (l : list json) :
  Forall (fun j => forall level, utf8_encodable (encode level j) = true) l ->
  utf8_encodable (encode_more_items level l) = true.
Proof.
  induction 1 as [|y l Hy Hl IH]; [reflexivity|].
  cbn [encode_more_items].
  rewrite !utf8_encodable_app, newline_indent_encodable, Hy, IH. reflexivity.
Qed.

Lemma more_members_encodable (level : nat) (l : list (pystr * json)) :
  Forall (fun kv => utf8_encodable (fst kv) = true /\
                    forall level, utf8_encodable (encode level (snd kv)) = true)
    l ->
  utf8_encodable (encode_more_members level l) = true.
Proof.
  induction 1 as [|[k v] l [Hk Hv] Hl IH]; [reflexivity|].
  cbn [encode_more_members fst snd] in *.
  rewrite !utf8_encodable_app, newline_indent_encodable,
    (encode_string_encodable _ Hk), Hv, IH.
  reflexivity.
Qed.

(** The encoder adds ASCII characters only: its output can be encoded when
    the strings of the value can. *)
Lemma encode_encodable (j : json) :
  Forall (fun s => utf8_encodable s = true) (json_strings j) ->
  forall level, utf8_encodable (encode level j) = true.
Proof.
  induction j as [| b | n | x | str | items IH | members IH]
    using json_induction; intros Hs level.
  - reflexivity.
  - destruct b; reflexivity.
  - apply ascii_encodable, int_repr_ascii.
  - apply ascii_encodable, float_repr_ascii.
  - cbn [json_strings] in Hs. inversion Hs; subst.
    now apply encode_string_encodable.
  - cbn [json_strings] in Hs. apply Forall_flat_map in Hs.
    assert (Hall : Forall (fun j => forall level,
                             utf8_encodable (encode level j) = true) items).
    { clear level. induction IH as [|y l Hy Hl IHl]; constructor.
      - apply Hy. now inversion Hs.
      - apply IHl. now inversion Hs. }
    destruct items as [|y items]; [reflexivity|].
    rewrite encode_array_cons. inversion Hall as [|? ? Hy Hrest]; subst.
    rewrite !utf8_encodable_app, !newline_indent_encodable, Hy,
      (more_items_encodable _ Hrest).
    reflexivity.
  - cbn [json_strings] in Hs. apply Forall_flat_map in Hs.
    assert (Hall : Forall (fun kv =>
                             utf8_encodable (fst kv) = true /\
                             forall level,
                               utf8_encodable (encode level (snd kv)) = true)
                     members).
    { clear level. induction IH as [|y l Hy Hl IHl]; constructor.
      - inversion Hs as [|? ? Hh Ht]; subst. inversion Hh; subst.
        split; [assumption | now apply Hy].
      - apply IHl. now inversion Hs. }
    destruct members as [|[k v] members]; [reflexivity|].
    rewrite encode_object_cons.
    inversion Hall as [|? ? [Hk Hv] Hrest]; subst. cbn [fst snd] in *.
    rewrite !utf8_encodable_app, !newline_indent_encodable,
      (encode_string_encodable _ Hk), Hv, (more_members_encodable _ Hrest).
    reflexivity.
Qed.

Lemma json_strings_price (v : option float) :
  json_strings (json_of_price v) = [].
Proof. destruct v; reflexivity. Qed.

Lemma report_text_encodable (m : market_data) :
  report_encodable m -> utf8_encodable (report_text m) = true.
Proof.
  intros (Hts & Hdate & Hhist & Hai).
  unfold report_text, dumps. apply encode_encodable.
  unfold json_of_market_data. cbn [json_strings flat_map fst snd app].
  rewrite !json_strings_price. cbn [app].
  repeat (constructor; [first [assumption | reflexivity]|]).
  apply Forall_app. split.
  - induction Hhist as [|p l Hp Hl IH]; [constructor|].
    cbn [map flat_map json_of_point json_strings fst snd app].
    repeat (constructor; [first [assumption | reflexivity]|]).
    exact IH.
  - destruct (md_ai_analysis m); cbn [flat_map fst snd json_strings app];
      repeat constructor; assumption.
Qed.

(** *** The report is a value the decoder reads back *)

Lemma fresh_keys_NoDup (l : list pystr) : fresh_keys l = true -> NoDup l.
Proof.
  induction l as [|k l IH]; intros Hf; [constructor|].
  cbn [fresh_keys] in Hf. apply andb_prop in Hf as [Hk Hl].
  constructor; [|now apply IH].
  intros Hin. apply negb_true_iff in Hk.
  assert (Hex : existsb
                  (fun k' => if list_eq_dec N.eq_dec k k' then true else false)
                  l = true).
  { apply existsb_exists. exists k. split; [exact Hin|].
    destruct (list_eq_dec N.eq_dec k k); [reflexivity | contradiction]. }
  congruence.
Qed.

Lemma wf_price (v : option float) : plain_price v -> wf_json (json_of_price v).
Proof. destruct v; intros Hv; constructor. exact Hv. Qed.

Lemma wf_report (m : market_data) :
  plain_report m -> wf_json (json_of_market_data m).
Proof.
  intros (Hb & Hi & Hc & Hf & Hfc). unfold json_of_market_data.
  constructor.
  - rewrite map_app. cbn [map fst app].
    apply fresh_keys_NoDup.
    destruct (md_ai_analysis m); reflexivity.
  - apply Forall_app. split.
    + repeat apply Forall_cons; cbn [snd]; try apply Forall_nil.
      * apply wf_string.
      * apply wf_string.
      * apply wf_object; [apply fresh_keys_NoDup; reflexivity|].
        repeat apply Forall_cons; cbn [snd]; try apply Forall_nil;
          auto using wf_price, wf_float.
      * apply wf_object; [apply fresh_keys_NoDup; reflexivity|].
        repeat apply Forall_cons; cbn [snd]; try apply Forall_nil;
          auto using wf_price, wf_float.
      * apply wf_array.
        induction (md_price_history m) as [|p l IH]; cbn [map];
          constructor; [|exact IH].
        unfold json_of_point.
        apply wf_object; [apply fresh_keys_NoDup; reflexivity|].
        repeat apply Forall_cons; cbn [snd]; try apply Forall_nil;
          auto using wf_string, wf_int.
    + destruct (md_ai_analysis m); repeat apply Forall_cons; cbn [snd];
        try apply Forall_nil; apply wf_string.
Qed.

Lemma encode_more_members_app (level : nat) (l1 l2 : list (pystr * json)) :
  encode_more_members level (l1 ++ l2)
  = encode_more_members level l1 ++ encode_more_members level l2.
Proof.
  induction l1 as [|[k v] l1 IH]; [reflexivity|].
  cbn [app encode_more_members]. rewrite IH.
  repeat (rewrite <- app_assoc || rewrite <- app_comm_cons).
  reflexivity.
Qed.

Lemma literal_chars (a : pystr) :
  forallb literal_char a = true ->
  Forall (fun c => (32 <= c)%N /\ c <> 34%N /\ c <> 92%N) a.
Proof.
  intros Ha. apply Forall_forall. intros c Hc.
  rewrite forallb_forall in Ha. specialize (Ha c Hc).
  unfold literal_char in Ha.
  apply andb_prop in Ha as [Ha H3]. apply andb_prop in Ha as [H1 H2].
  apply N.leb_le in H1. apply negb_true_iff, N.eqb_neq in H2, H3. auto.
Qed.

(** The last member of a dictionary, when it is a string, ends the text. *)
Lemma encode_object_last (level : nat) (k1 : pystr) (v1 : json)
      (l : list (pystr * json)) (k s : pystr) :
  exists before,
    encode level (JObject (((k1, v1) :: l) ++ [(k, JString s)]))
    = before ++ encode_string k ++ [58; 32]%N ++ encode_string s
      ++ newline_indent level ++ [125%N].
Proof.
  rewrite <- app_comm_cons, encode_object_cons, encode_more_members_app.
  cbn [encode_more_members].
  change (encode (S level) (JString s)) with (encode_string s).
  exists ([123%N] ++ newline_indent (S level) ++ encode_string k1
          ++ [58; 32]%N ++ encode (S level) v1
          ++ encode_more_members (S level) l
          ++ [44%N] ++ newline_indent (S level)).
  repeat rewrite <- app_assoc. rewrite app_nil_l. reflexivity.
Qed.

(** The text of a report with a summary ends with the summary between
    quotes, when no character of it needs an escape. *)
Lemma report_text_summary (m : market_data) (a : pystr) :
  md_ai_analysis m = Some a ->
  Forall (fun c => (32 <= c)%N /\ c <> 34%N /\ c <> 92%N) a ->
  exists before,
    report_text m
    = before ++ encode_string key_ai_analysis ++ [58; 32]%N
      ++ [quote] ++ a ++ [quote; 10; 125]%N.
Proof.
  intros Hai Ha. unfold report_text, dumps, json_of_market_data.
  rewrite Hai.
  match goal with
  | |- context [JObject (((?k1, ?v1) :: ?l) ++ [(?k, JString ?s)])] =>
      destruct (encode_object_last 0 k1 v1 l k s) as [before E]
  end.
  exists before. rewrite E, (encode_string_literal Ha).
  do 3 f_equal. cbn [app]. f_equal. rewrite <- app_assoc. reflexivity.
Qed.

(** *** When the system refuses *)

(** Every [mkdir] refused with [x]: [makedirs] of a directory that is not
    there raises [x] and changes nothing. *)
Lemma makedirs_refused (e : env) (x : exn) :
  (forall p, os_fault e (Mkdir p) = Some x) ->
  forall name w,
    isdir name (disk w) = false -> makedirs name e w = (Raise x, w).
Proof.
  intros Hx. induction name as [|c head IH]; intros w Hd;
    [discriminate Hd|].
  assert (Hlast :
    try_except (mkdir (c :: head))
      (fun x0 => fs <- get_disk ;;
                 if isdir (c :: head) fs then ret tt else raise x0) e w
    = (Raise x, w)).
  { unfold try_except, mkdir, bind, check_fault, get_disk.
    rewrite Hx, Hd. reflexivity. }
  cbn [makedirs]. unfold bind at 1. unfold bind at 1, get_disk.
  destruct (path_exists head (disk w)) eqn:Eh.
  - unfold ret. exact Hlast.
  - unfold path_exists in Eh. apply orb_false_elim in Eh as [Eh _].
    unfold try_except at 1. rewrite (IH w Eh).
    destruct (String.eqb (exn_class x) "FileExistsError").
    + unfold ret. exact Hlast.
    + reflexivity.
Qed.

(** X1. For a report whose floats are plain decimals (as the prices and
    the changes of the fetchers are), on a disk that is ready for it
    ([ready_for_save]), when the system refuses no call and the text can be
    encoded, [save_data] returns, every directory on the way to the data
    file exists afterwards, the data file holds exactly
    [json.dumps(data, ensure_ascii=False, indent=2)] whatever it held
    before, no other file changes, no directory is made beside those on
    the way, and one line is printed. *)
Theorem save_data_writes_report (report : market_data) (e : env)
        (w : world) :
  no_faults e -> ready_for_save (disk w) ->
  utf8_encodable (report_text report) = true ->
  plain_report report ->
  exists fs',
    save_data report e w = (Ok tt, printed saved_banner (with_disk fs' w)) /\
    (forall q, above q (dirname data_path) -> isdir q fs' = true) /\
    read_file data_path fs' = Some (Json.dumps (json_of_market_data report)) /\
    (forall q, q <> data_path -> read_file q fs' = read_file q (disk w)) /\
    (forall q, isdir q fs' = true ->
               isdir q (disk w) = true \/ above q (dirname data_path)).
Proof.
  intros Hnf Hready Henc _.
  destruct (@save_data_run report e w (fun p => Hnf _) (Hnf _) (Hnf _)
              Hready Henc)
    as (fs' & Hrun & Hmade & Hread & Hother & Hdirs & _).
  exists fs'. repeat split; auto. intros q. apply Hdirs.
Qed.

(** X2. The file [save_data] writes, read back with [json.loads], is the
    report: the same keys in the same order, the same strings (the
    non-ASCII ones too) and integers, and floats equal as numbers.  The
    floats of the report are plain decimals, as the prices and the changes
    the fetchers produce are. *)
Theorem save_data_round_trip (report : market_data) (e : env) (w : world) :
  no_faults e -> ready_for_save (disk w) ->
  utf8_encodable (report_text report) = true ->
  plain_report report ->
  exists fs' text j,
    save_data report e w = (Ok tt, printed saved_banner (with_disk fs' w)) /\
    read_file data_path fs' = Some text /\
    Json.loads text = Some j /\
    json_equal j (json_of_market_data report).
Proof.
  intros Hnf Hready Henc Hplain.
  destruct (@save_data_run report e w (fun p => Hnf _) (Hnf _) (Hnf _)
              Hready Henc)
    as (fs' & Hrun & _ & Hread & _).
  exists fs', (report_text report),
    (normalize (json_of_market_data report)).
  split; [exact Hrun|]. split; [exact Hread|].
  split; [apply loads_dumps, wf_report, Hplain | apply normalize_equal].
Qed.

(** X3. The summary is written as it is, between quotes, at the end of the
    file, non-ASCII characters included ([ensure_ascii=False]): only a
    quote, a backslash or a control character would be escaped. *)
Theorem save_data_keeps_summary (report : market_data) (a : pystr)
        (e : env) (w : world) :
  no_faults e -> ready_for_save (disk w) ->
  utf8_encodable (report_text report) = true ->
  md_ai_analysis report = Some a ->
  Forall (fun c => (32 <= c)%N /\ c <> 34%N /\ c <> 92%N) a ->
  exists fs' before,
    save_data report e w = (Ok tt, printed saved_banner (with_disk fs' w)) /\
    read_file data_path fs'
    = Some (before ++ summary_member a ++ [10; 125]%N).
Proof.
  intros Hnf Hready Henc Hai Ha.
  destruct (@save_data_run report e w (fun p => Hnf _) (Hnf _) (Hnf _)
              Hready Henc)
    as (fs' & Hrun & _ & Hread & _).
  destruct (report_text_summary report Hai Ha) as [before E].
  exists fs', before. split; [exact Hrun|].
  rewrite Hread, E. do 2 f_equal. unfold summary_member.
  repeat rewrite <- app_assoc. reflexivity.
Qed.

(** X4. When the directory of the data file is not there and the system
    refuses every [mkdir] with an exception, [save_data] raises that
    exception; nothing is written and nothing is printed. *)
Theorem save_data_mkdir_refused (report : market_data) (e : env)
        (w : world) (x : exn) :
  (forall p, os_fault e (Mkdir p) = Some x) ->
  isdir (dirname data_path) (disk w) = false ->
  save_data report e w = (Raise x, w).
Proof.
  intros Hx Hd. unfold save_data.
  change (path_of_string data_file) with data_path.
  apply bind_raise. now apply makedirs_refused.
Qed.

(** X5. When the system refuses to open the data file, [save_data] raises
    that exception after it has made the directories: they stay, no file
    changes and nothing is printed. *)
Theorem save_data_open_refused (report : market_data) (e : env) (w : world)
        (x : exn) :
  no_mkdir_faults e -> os_fault e (OpenForWriting data_path) = Some x ->
  fs_closed (disk w) -> way_clear (dirname data_path) (disk w) ->
  exists fs',
    save_data report e w = (Raise x, with_disk fs' w) /\
    fs_files fs' = fs_files (disk w) /\
    (forall q, above q (dirname data_path) -> isdir q fs' = true).
Proof.
  intros Hmk Hx Hclosed Hclear.
  destruct (makedirs_ok (name := dirname data_path) Hmk w Hclosed Hclear)
    as (fs1 & Hrun1 & Hfiles1 & _ & Hmade & _).
  exists fs1. split; [|split; assumption].
  unfold save_data. change (path_of_string data_file) with data_path.
  erewrite bind_ok by exact Hrun1.
  apply bind_raise. unfold write_text_file. apply bind_raise.
  unfold check_fault. now rewrite Hx.
Qed.

(** X7. [save_data] overwrites: for two reports whose floats are plain
    decimals, after two calls in a row the data file holds the text of the
    second report, both calls return (the directory being there already
    is no error) and each prints its line. *)
Theorem save_data_overwrites (first second : market_data) (e : env)
        (w : world) :
  no_faults e -> ready_for_save (disk w) ->
  utf8_encodable (report_text first) = true ->
  utf8_encodable (report_text second) = true ->
  plain_report first -> plain_report second ->
  exists fs',
    (save_data first ;; save_data second)%py e w
    = (Ok tt, printed saved_banner (printed saved_banner (with_disk fs' w))) /\
    read_file data_path fs' = Some (Json.dumps (json_of_market_data second)) /\
    (forall q, q <> data_path -> read_file q fs' = read_file q (disk w)).
Proof.
  intros Hnf Hready H1 H2 _ _.
  destruct (@save_data_run first e w (fun p => Hnf _) (Hnf _) (Hnf _)
              Hready H1)
    as (fs1 & Hrun1 & _ & _ & Hother1 & _ & Hready1).
  destruct (@save_data_run second e (printed saved_banner (with_disk fs1 w))
              (fun p => Hnf _) (Hnf _) (Hnf _) Hready1 H2)
    as (fs2 & Hrun2 & _ & Hread2 & Hother2 & _).
  exists fs2. split; [|split].
  - erewrite bind_ok by exact Hrun1. rewrite Hrun2. reflexivity.
  - exact Hread2.
  - intros q Hq. rewrite (Hother2 q Hq). cbn [printed with_disk disk].
    now apply Hother1.
Qed.

End Persistence.
(** ** The pipeline on any pages *)

Section Reports.

Context `{UnicodeData}.

Import Json JsonSpec.

(** Whole and half numbers are plain floats. *)
Lemma plain_float_halves (x : float) :
  (Qden x = 1 \/ Qden x = 2)%positive -> Z.abs (Qnum x) < 10 ^ 16 ->
  plain_float x = true.
Proof.
  intros Hd Hn. unfold plain_float.
  assert (Hmod : (Qnum x * 10 ^ Z.of_nat 1) mod Zpos (Qden x) = 0).
  { change (10 ^ Z.of_nat 1) with 10.
    destruct Hd as [-> | ->]; Z.div_mod_to_equations; lia. }
  assert (Hk : find_scale 16 1 x = 1%nat).
  { cbn [find_scale]. now rewrite Hmod. }
  rewrite Hk, Hmod. cbn [Z.eqb andb].
  change (10 ^ 16) with 10000000000000000 in *.
  change (10 ^ 4) with 10000.
  apply andb_true_intro. split.
  - apply Z.ltb_lt. destruct Hd as [-> | ->]; lia.
  - destruct (Qnum x =? 0) eqn:E; [reflexivity|].
    apply Z.eqb_neq in E. apply Z.leb_le.
    destruct Hd as [-> | ->]; lia.
Qed.

Lemma plain_float_digits (d : pystr) :
  five_decimals d -> plain_float (inject_Z (digits_value d)) = true.
Proof.
  intros Hd. destruct (five_decimals_value Hd) as [_ Hv].
  apply plain_float_halves; [left; reflexivity|].
  cbn [Qnum inject_Z]. change (10 ^ 16) with 10000000000000000. lia.
Qed.

(** Every run of [fetch_smm_price]: it returns, with both prices set. *)
Lemma fetch_smm_price_run (e : env) (w : world) :
  exists battery industrial lines,
    fetch_smm_price e w
    = (Ok (PriceData (today_string e w) (Some battery) (Some industrial)
             (-1 # 2)%Q),
       World (stdout w ++ lines) (clock_reads w + 1) (disk w)) /\
    (List.length lines <= 1)%nat /\
    (0 <= battery <= 99999)%Q /\ (industrial == battery - 2200)%Q /\
    plain_float battery = true /\ plain_float industrial = true.
Proof.
  destruct (fetch_smm_price_cases e w)
    as [(_ & line & Hrun & _)
       | (text & before & lo & after & battery & _ & Hfirst & Hfrom & Hrun)].
  - exists 80500%Q, 78300%Q, [line]. rewrite Hrun.
    split; [reflexivity|]. split; [simpl; lia|].
    split; [split; discriminate|].
    split; [reflexivity|]. split; reflexivity.
  - assert (Hlo : five_decimals lo) by apply Hfirst.
    exists battery, (battery - 2200)%Q, []. rewrite Hrun.
    split; [unfold tick, smm_prices; now rewrite app_nil_r|].
    split; [simpl; lia|].
    split; [now apply spot_price_from_range with (lo := lo) (after := after)|].
    split; [reflexivity|].
    destruct Hfrom as [(hi & rest & Ht & ->) | (_ & ->)].
    + assert (Hhi : five_decimals hi)
        by (destruct Ht as (ws1 & ws2 & _ & _ & Hhi & _); exact Hhi).
      destruct (five_decimals_value Hlo) as [_ Ha].
      destruct (five_decimals_value Hhi) as [_ Hb].
      revert Ha Hb. generalize (digits_value lo), (digits_value hi).
      intros a b Ha Hb.
      split; apply plain_float_halves; try (right; reflexivity);
        unfold Qminus, Qdiv, Qmult, Qplus, Qinv, Qopp, inject_Z;
        cbn [Qnum Qden]; change (10 ^ 16) with 10000000000000000; lia.
    + destruct (five_decimals_value Hlo) as [_ Ha].
      revert Ha. generalize (digits_value lo). intros a Ha.
      split; apply plain_float_halves; try (left; reflexivity);
        unfold Qminus, Qdiv, Qmult, Qplus, Qinv, Qopp, inject_Z;
        cbn [Qnum Qden]; change (10 ^ 16) with 10000000000000000; lia.
Qed.

(** Every run of [fetch_futures_price]: it returns, with the price set. *)
Lemma fetch_futures_price_run (e : env) (w : world) :
  exists price lines,
    fetch_futures_price e w
    = (Ok (FuturesData (Some price) (3 # 10)%Q),
       World (stdout w ++ lines) (clock_reads w) (disk w)) /\
    (List.length lines <= 1)%nat /\
    (0 <= price <= 99999)%Q /\ plain_float price = true.
Proof.
  destruct (http e futures_url) as [text|x] eqn:Hp.
  - destruct (Re.findall futures_price_pattern text) as [|m ms] eqn:Hf.
    + exists 79800%Q, [futures_warning].
      rewrite (fetch_futures_price_no_match e w Hp Hf).
      split; [reflexivity|]. split; [simpl; lia|].
      split; [split; discriminate | reflexivity].
    + destruct (findall_futures_head _ Hf)
        as (before & d & after & Hfirst & ->).
      assert (Hd : five_decimals d) by apply Hfirst.
      exists (inject_Z (digits_value d)), [].
      rewrite (fetch_futures_price_match e w Hp Hf Hd).
      split; [destruct w; cbn [stdout clock_reads disk];
              now rewrite app_nil_r|].
      split; [simpl; lia|].
      split; [now apply digits_value_Q | now apply plain_float_digits].
  - exists 79800%Q, [futures_error x].
    rewrite (fetch_futures_price_raise e w Hp).
    split; [reflexivity|]. split; [simpl; lia|].
    split; [split; discriminate | reflexivity].
Qed.

(** Every run of [fetch_all_data] under a clock in range. *)
Lemma fetch_all_data_run (e : env) (w : world) :
  clock_in_range e ->
  exists battery industrial futures lines,
    fetch_all_data e w
    = (Ok (MarketData
             (Datetime.isoformat (clock e (clock_reads w + 31)))
             (Datetime.strftime_Ymd (clock e (clock_reads w)))
             (SpotRecord (Some battery) (Some industrial) (-1 # 2)%Q)
             (FuturesRecord (Some futures) (3 # 10)%Q)
             (points e (clock_reads w + 1) (py_range 30 0 (-1)))
             None),
       World (stdout w ++ fetching_banner :: lines) (clock_reads w + 32)
         (disk w)) /\
    (List.length lines <= 2)%nat /\
    (0 <= battery <= 99999)%Q /\ (industrial == battery - 2200)%Q /\
    (0 <= futures <= 99999)%Q /\
    plain_float battery = true /\ plain_float industrial = true /\
    plain_float futures = true.
Proof.
  intros Hclock.
  destruct (fetch_smm_price_run e (printed fetching_banner w))
    as (b & i & l1 & Hs & Hl1 & Hb & Hi & Hpb & Hpi).
  cbn [printed stdout clock_reads disk today_string] in Hs.
  unfold today_string in Hs. cbn [printed stdout clock_reads disk] in Hs.
  match type of Hs with _ = (_, ?w1) =>
    destruct (fetch_futures_price_run e w1)
      as (f & l2 & Hf & Hl2 & Hfr & Hpf)
  end.
  cbn [stdout clock_reads disk] in Hf.
  match type of Hf with _ = (_, ?w2) =>
    pose proof (@generate_price_history_run e w2 (fun k _ => Hclock _))
      as Hh
  end.
  cbn [tick stdout clock_reads disk] in Hh.
  exists b, i, f, (l1 ++ l2). split.
  { unfold fetch_all_data.
    rewrite bind_ok with (a := tt) (w' := printed fetching_banner w)
      by reflexivity.
    erewrite bind_ok by exact Hs. erewrite bind_ok by exact Hf.
    erewrite bind_ok by exact Hh.
    unfold bind, datetime_now, ret, tick.
    cbn [stdout clock_reads disk pd_date battery_grade_price
         industrial_grade_price change futures_price futures_change].
    replace (clock_reads w + 1 + 30)%nat with (clock_reads w + 31)%nat
      by lia.
    replace (S (clock_reads w + 31)) with (clock_reads w + 32)%nat by lia.
    repeat rewrite <- app_assoc. reflexivity. }
  split; [rewrite length_app; lia|]. auto 10.
Qed.

(** *** [str.strip] *)

Lemma lstrip_split (s : pystr) : exists l, s = l ++ lstrip s /\ spaces l.
Proof.
  induction s as [|c s IH]; [exists []; split; [reflexivity | constructor]|].
  cbn [lstrip]. destruct (isspace c) eqn:E.
  - destruct IH as (l & El & Hl). exists (c :: l). split.
    + cbn [app]. now rewrite <- El.
    + now constructor.
  - exists []. split; [reflexivity | constructor].
Qed.

Lemma lstrip_head (s : pystr) (c : char) (rest : pystr) :
  lstrip s = c :: rest -> isspace c = false.
Proof.
  induction s as [|a s IH]; cbn [lstrip]; [discriminate|].
  destruct (isspace a) eqn:E; [exact IH|].
  intros E'. injection E' as -> _. exact E.
Qed.

(** [strip] removes the blanks at both ends and nothing else. *)
Lemma strip_spec (s : pystr) :
  exists l r,
    s = l ++ strip s ++ r /\ spaces l /\ spaces r /\
    (forall c rest, strip s = c :: rest -> isspace c = false) /\
    (forall c rest, strip s = rest ++ [c] -> isspace c = false).
Proof.
  destruct (lstrip_split s) as (l & El & Hl).
  destruct (lstrip_split (rev (lstrip s))) as (r & Er & Hr).
  assert (Et : lstrip s = strip s ++ rev r).
  { unfold strip. rewrite <- rev_app_distr, <- Er. now rewrite rev_involutive. }
  exists l, (rev r). split; [now rewrite <- Et|].
  split; [exact Hl|]. split; [now apply Forall_rev|]. split.
  - intros c rest E. rewrite E in Et. cbn [app] in Et.
    exact (lstrip_head _ Et).
  - intros c rest E.
    apply (@lstrip_head (rev (lstrip s)) c (rev rest)).
    apply (f_equal (@rev char)) in E. unfold strip in E.
    rewrite rev_involutive, rev_app_distr in E. exact E.
Qed.

Lemma strip_encodable (s : pystr) :
  utf8_encodable s = true -> utf8_encodable (strip s) = true.
Proof.
  intros Hs. destruct (strip_spec s) as (l & r & E & _).
  rewrite E, !utf8_encodable_app in Hs.
  apply andb_prop in Hs as [_ Hs]. now apply andb_prop in Hs as [Hs _].
Qed.

(** *** The summary *)

Lemma canned_summary_encodable (change : float) :
  utf8_encodable (canned_summary change) = true.
Proof.
  unfold canned_summary.
  destruct (Qltb 0 change); [|destruct (Qltb change 0)];
    vm_compute; reflexivity.
Qed.

(** Every run of [generate_ai_analysis]: it returns a text and prints one
    line. *)
Lemma generate_ai_analysis_shape (m : market_data) (e : env) (w : world) :
  llm_answers_encodable e ->
  exists a line,
    generate_ai_analysis m e w = (Ok a, printed line w) /\
    utf8_encodable a = true.
Proof.
  intros Henc. rewrite generate_ai_analysis_run.
  destruct (battery_grade (md_spot_price m)) as [b|];
    [|eexists _, _; split; [reflexivity | apply canned_summary_encodable]].
  destruct (lc_main (md_futures_price m)) as [f|];
    [|eexists _, _; split; [reflexivity | apply canned_summary_encodable]].
  destruct (llm e _) as [[content|]|x] eqn:Hl.
  - eexists _, _. split; [reflexivity|].
    apply strip_encodable. exact (Henc _ _ Hl).
  - eexists _, _. split; [reflexivity | apply canned_summary_encodable].
  - eexists _, _. split; [reflexivity | apply canned_summary_encodable].
Qed.

(** *** The strings of the report *)

Lemma strftime_Ymd_ascii (d : datetime) :
  Forall (fun c => (c < 128)%N) (Datetime.strftime_Ymd d).
Proof.
  unfold Datetime.strftime_Ymd.
  destruct (Datetime.ord2ymd (toordinal d)) as [[y mo] dd].
  apply Forall_app; split; [apply zero_padded_ascii|].
  apply Forall_cons; [reflexivity|].
  apply Forall_app; split; [apply zero_padded_ascii|].
  apply Forall_cons; [reflexivity|]. apply zero_padded_ascii.
Qed.

Lemma isoformat_ascii (d : datetime) :
  Forall (fun c => (c < 128)%N) (Datetime.isoformat d).
Proof.
  unfold Datetime.isoformat.
  apply Forall_app; split; [apply strftime_Ymd_ascii|].
  apply Forall_cons; [reflexivity|].
  apply Forall_app; split; [apply zero_padded_ascii|].
  apply Forall_cons; [reflexivity|].
  apply Forall_app; split; [apply zero_padded_ascii|].
  apply Forall_cons; [reflexivity|].
  apply Forall_app; split; [apply zero_padded_ascii|].
  destruct (microsecond d =? 0); [apply Forall_nil|].
  apply Forall_cons; [reflexivity | apply zero_padded_ascii].
Qed.

Lemma points_encodable (e : env) (l : list Z) :
  forall n,
    Forall (fun p => utf8_encodable (hp_date p) = true) (points e n l).
Proof.
  induction l as [|i l IH]; intros n; cbn [points]; constructor;
    [|apply IH].
  cbn [hp_date]. apply ascii_encodable, strftime_Ymd_ascii.
Qed.

(** *** What never touches the disk *)

Lemma disk_blind_ret {A : Type} (a : A) : disk_blind (ret a).
Proof. intros e w fs. reflexivity. Qed.

Lemma disk_blind_raise {A : Type} (x : exn) : disk_blind (@raise A x).
Proof. intros e w fs. reflexivity. Qed.

Lemma disk_blind_lift {A : Type} (r : result A) : disk_blind (lift r).
Proof. intros e w fs. reflexivity. Qed.

Lemma disk_blind_print (s : pystr) : disk_blind (print s).
Proof. intros e w fs. reflexivity. Qed.

Lemma disk_blind_now : disk_blind datetime_now.
Proof. intros e w fs. reflexivity. Qed.

Lemma disk_blind_http (url : string) : disk_blind (http_get_text url).
Proof. intros e w fs. reflexivity. Qed.

Lemma disk_blind_llm (p : prompt) : disk_blind (llm_complete p).
Proof. intros e w fs. reflexivity. Qed.

Lemma disk_blind_bind {A B : Type} (m : M A) (f : A -> M B) :
  disk_blind m -> (forall a, disk_blind (f a)) -> disk_blind (bind m f).
Proof.
  intros Hm Hf e w fs. unfold bind. rewrite Hm.
  destruct (m e w) as [[a|x] w']; cbn [fst snd]; [apply Hf | reflexivity].
Qed.

Lemma disk_blind_try {A : Type} (body : M A) (handler : exn -> M A) :
  disk_blind body -> (forall x, disk_blind (handler x)) ->
  disk_blind (try_except body handler).
Proof.
  intros Hm Hf e w fs. unfold try_except. rewrite Hm.
  destruct (body e w) as [[a|x] w']; cbn [fst snd]; [reflexivity | apply Hf].
Qed.

Lemma disk_blind_for_each {A S : Type} (l : list A) (body : A -> S -> M S) :
  (forall x s, disk_blind (body x s)) ->
  forall s, disk_blind (for_each l body s).
Proof.
  intros Hbody. induction l as [|x l IH]; intros s; cbn [for_each].
  - apply disk_blind_ret.
  - apply disk_blind_bind; [apply Hbody | exact IH].
Qed.

Ltac blind :=
  repeat first
    [ apply disk_blind_ret | apply disk_blind_raise | apply disk_blind_lift
    | apply disk_blind_print | apply disk_blind_now | apply disk_blind_http
    | apply disk_blind_llm
    | apply disk_blind_bind; [|intros ?]
    | apply disk_blind_try; [|intros ?]
    | apply disk_blind_for_each; intros ? ?
    | match goal with
      | |- disk_blind (match ?x with _ => _ end) => destruct x
      end
    | progress cbv zeta ].

Lemma disk_blind_fetch_smm_price : disk_blind fetch_smm_price.
Proof. unfold fetch_smm_price, smm_extract. blind. Qed.

Lemma disk_blind_fetch_futures_price : disk_blind fetch_futures_price.
Proof. unfold fetch_futures_price. blind. Qed.

Lemma disk_blind_generate_price_history : disk_blind generate_price_history.
Proof. unfold generate_price_history, history_step. blind. Qed.

Lemma disk_blind_fetch_all_data : disk_blind fetch_all_data.
Proof.
  unfold fetch_all_data.
  apply disk_blind_bind; [apply disk_blind_print | intros _].
  apply disk_blind_bind; [apply disk_blind_fetch_smm_price | intros spot].
  apply disk_blind_bind; [apply disk_blind_fetch_futures_price | intros fut].
  apply disk_blind_bind;
    [apply disk_blind_generate_price_history | intros history].
  blind.
Qed.

Lemma disk_blind_generate_ai_analysis (m : market_data) :
  disk_blind (generate_ai_analysis m).
Proof. unfold generate_ai_analysis, str_strip, format_float. blind. Qed.

(** *** The history before the calendar begins *)

Lemma generate_price_history_overflow (e : env) (w : world) :
  toordinal (clock e (clock_reads w)) <= 30 ->
  generate_price_history e w = (Raise Datetime.overflow_error, tick 1 w).
Proof.
  intros Hord. unfold generate_price_history. rewrite range_30_0.
  cbn [for_each]. unfold bind at 1. unfold history_step at 1.
  unfold bind, datetime_now, lift, Datetime.sub_days.
  replace (1 <=? toordinal (clock e (clock_reads w)) - 30) with false
    by (symmetry; apply Z.leb_gt; lia).
  cbn [andb]. unfold tick. f_equal. f_equal. lia.
Qed.

(** *** The leftmost five digits *)

Lemma first_window (text before d after : pystr) :
  text = before ++ d ++ after ->
  Forall (fun c => isdecimal c = false) before -> five_decimals d ->
  first_five_decimals text before d after.
Proof.
  intros E Hb Hd. split; [exact E|]. split; [exact Hd|].
  intros before1 d1 after1 E1 [L1 D1].
  destruct (Nat.le_gt_cases (List.length before) (List.length before1))
    as [Hle | Hlt]; [exact Hle | exfalso].
  destruct d1 as [|c d1]; [discriminate L1|].
  apply Forall_cons_iff in D1 as [Hc _].
  assert (N1 : nth_error text (List.length before1) = Some c).
  { rewrite E1, nth_error_app2, Nat.sub_diag by lia. reflexivity. }
  rewrite E, nth_error_app1 in N1 by exact Hlt.
  apply nth_error_In in N1.
  rewrite Forall_forall in Hb. specialize (Hb c N1). congruence.
Qed.

End Reports.
(** ** The pipeline, end to end *)

Section EndToEnd.

Context `{UnicodeData}.

Import Json JsonSpec.

(** X8. Whatever the two pages give (an exception, no price, a price),
    when every clock reading is a date from 0001-01-31 on,
    [fetch_all_data] returns without raising.  Its report has the date of
    the first clock reading and the timestamp of the last (the 32nd), a
    battery-grade price between 0 and 99999 with the industrial-grade price
    2200 below and the change -0.5, a futures price between 0 and 99999
    with the change 0.3, the 30 points of the history and no summary yet;
    the banner and at most two more lines are printed and the disk is left
    as it is. *)
Theorem fetch_all_data_total (e : env) (w : world) :
  clock_in_range e ->
  exists report lines,
    fetch_all_data e w
    = (Ok report,
       World (stdout w ++ fetching_banner :: lines) (clock_reads w + 32)
         (disk w)) /\
    (List.length lines <= 2)%nat /\
    md_date report = Datetime.strftime_Ymd (clock e (clock_reads w)) /\
    md_timestamp report = Datetime.isoformat (clock e (clock_reads w + 31)) /\
    (exists battery industrial,
        md_spot_price report
        = SpotRecord (Some battery) (Some industrial) (-1 # 2)%Q /\
        (0 <= battery <= 99999)%Q /\ (industrial == battery - 2200)%Q) /\
    (exists futures,
        md_futures_price report = FuturesRecord (Some futures) (3 # 10)%Q /\
        (0 <= futures <= 99999)%Q) /\
    md_price_history report
    = points e (clock_reads w + 1) (py_range 30 0 (-1)) /\
    List.length (md_price_history report) = 30%nat /\
    md_ai_analysis report = None.
Proof.
  intros Hclock.
  destruct (fetch_all_data_run w Hclock)
    as (b & i & f & lines & Hrun & Hlen & Hb & Hi & Hf & _).
  eexists _, lines. split; [exact Hrun|].
  cbn [md_date md_timestamp md_spot_price md_futures_price md_price_history
       md_ai_analysis].
  split; [exact Hlen|]. split; [reflexivity|]. split; [reflexivity|].
  split; [exists b, i; auto|]. split; [exists f; auto|].
  split; [reflexivity|]. split; [|reflexivity].
  rewrite length_points. reflexivity.
Qed.

(** X9. [generate_price_history] has a failure mode: when the clock reads a
    date before 0001-01-31, the subtraction of 30 days leaves the calendar
    and raises [OverflowError] in the first pass of the loop; nothing
    catches it, so [fetch_all_data] and [main] raise it too, before
    anything is written to the disk. *)
Theorem fetch_all_data_overflow (e : env) (w : world) :
  toordinal (clock e (clock_reads w + 1)) <= 30 ->
  exists w',
    fetch_all_data e w = (Raise Datetime.overflow_error, w') /\
    main e w = (Raise Datetime.overflow_error, w') /\
    disk w' = disk w.
Proof.
  intros Hord.
  destruct (fetch_smm_price_run e (printed fetching_banner w))
    as (b & i & l1 & Hs & _).
  cbn [printed stdout clock_reads disk] in Hs.
  match type of Hs with _ = (_, ?w1) =>
    destruct (fetch_futures_price_run e w1) as (f & l2 & Hf & _)
  end.
  cbn [stdout clock_reads disk] in Hf.
  match type of Hf with _ = (_, ?w2) =>
    pose proof (@generate_price_history_overflow e w2) as Hh
  end.
  cbn [stdout clock_reads disk] in Hh. specialize (Hh Hord).
  match type of Hh with _ = (_, ?w3) =>
    exists w3;
    assert (Hfetch : fetch_all_data e w = (Raise Datetime.overflow_error, w3))
  end.
  { unfold fetch_all_data.
    rewrite bind_ok with (a := tt) (w' := printed fetching_banner w)
      by reflexivity.
    erewrite bind_ok by exact Hs. erewrite bind_ok by exact Hf.
    apply bind_raise. exact Hh. }
  split; [exact Hfetch|]. split; [|reflexivity].
  unfold main, main_report. apply bind_raise, bind_raise. exact Hfetch.
Qed.

(** X10. When both prices are set and the language model answers with a
    text that can be encoded (no surrogate code point, so that it can be
    printed), [generate_ai_analysis] returns the answer without the blanks
    at its two ends (and with nothing else removed), and prints it after
    the banner. *)
Theorem generate_ai_analysis_answer (m : market_data) (e : env) (w : world)
        (battery futures : float) (content : pystr) :
  battery_grade (md_spot_price m) = Some battery ->
  lc_main (md_futures_price m) = Some futures ->
  llm e (Prompt battery (spot_daily_change_percent (md_spot_price m)) futures)
  = Ok (Some content) ->
  utf8_encodable content = true ->
  exists before a after,
    generate_ai_analysis m e w = (Ok a, printed (analysis_banner ++ a) w) /\
    content = before ++ a ++ after /\ spaces before /\ spaces after /\
    (forall c rest, a = c :: rest -> isspace c = false) /\
    (forall c rest, a = rest ++ [c] -> isspace c = false).
Proof.
  intros Hb Hf Hl _.
  destruct (strip_spec content) as (l & r & E & Hl' & Hr' & Hhead & Hlast).
  exists l, (strip content), r.
  split; [|auto].
  rewrite generate_ai_analysis_run, Hb, Hf, Hl. reflexivity.
Qed.

(** X11. A report that lacks the battery-grade price or the futures price
    cannot be formatted into the prompt: the language model is not called,
    the [TypeError] is caught, and the canned sentence for the sign of the
    change is returned after a warning. *)
Theorem generate_ai_analysis_missing_price (m : market_data) (e : env)
        (w : world) :
  battery_grade (md_spot_price m) = None \/
  lc_main (md_futures_price m) = None ->
  generate_ai_analysis m e w
  = (Ok (canned_summary (spot_daily_change_percent (md_spot_price m))),
     printed (analysis_warning format_type_error) w).
Proof.
  intros Hnone. rewrite generate_ai_analysis_run.
  destruct Hnone as [-> | Hf]; [reflexivity|].
  rewrite Hf. destruct (battery_grade (md_spot_price m)); reflexivity.
Qed.

(** X12. Every call of [fetch_futures_price] returns: whatever the page
    gives, the price is set and lies between 0 and 99999, the change is
    0.3, at most one line is printed, the clock is not read and the disk
    is not touched. *)
Theorem fetch_futures_price_total (e : env) (w : world) :
  exists price lines,
    fetch_futures_price e w
    = (Ok (FuturesData (Some price) (3 # 10)%Q),
       World (stdout w ++ lines) (clock_reads w) (disk w)) /\
    (List.length lines <= 1)%nat /\
    (0 <= price <= 99999)%Q.
Proof.
  destruct (fetch_futures_price_run e w)
    as (price & lines & Hrun & Hlen & Hrange & _).
  exists price, lines. auto.
Qed.

(** X13. The pattern has no boundary: the first five decimal digits of
    the page are the futures price, whatever follows them, more digits
    included (of a six-digit number the first five are taken). *)
Theorem fetch_futures_price_first_window (e : env) (w : world)
        (before d after : pystr) :
  http e futures_url = Ok (before ++ d ++ after) ->
  Forall (fun c => isdecimal c = false) before -> five_decimals d ->
  fetch_futures_price e w
  = (Ok (FuturesData (Some (inject_Z (digits_value d))) (3 # 10)%Q), w).
Proof.
  intros Hp Hb Hd.
  pose proof (@first_window _ _ before d after eq_refl Hb Hd) as Hfirst.
  destruct (Re.findall futures_price_pattern (before ++ d ++ after))
    as [|m ms] eqn:Hf.
  - apply findall_futures_nil_iff in Hf. destruct Hf.
    exists before, d, after. auto.
  - destruct (findall_futures_head _ Hf)
      as (before' & d' & after' & Hfirst' & ->).
    destruct (first_five_decimals_unique Hfirst Hfirst') as (_ & <- & _).
    now apply fetch_futures_price_match
      with (text := before ++ d ++ after) (ms := ms).
Qed.

(** Every run of the first three statements of [main] under a clock in
    range, with answers that can be encoded. *)
Lemma main_report_run (e : env) (w : world) :
  clock_in_range e -> llm_answers_encodable e ->
  exists report lines,
    main_report e w
    = (Ok report,
       World (stdout w ++ fetching_banner :: lines) (clock_reads w + 32)
         (disk w)) /\
    (1 <= List.length lines <= 3)%nat /\
    plain_report report /\ report_encodable report.
Proof.
  intros Hclock Henc.
  destruct (fetch_all_data_run w Hclock)
    as (b & i & f & l1 & Hrun & Hlen & _ & _ & _ & Hpb & Hpi & Hpf).
  match type of Hrun with _ = (Ok ?m0, ?w1) =>
    destruct (generate_ai_analysis_shape m0 w1 Henc)
      as (a & line & Ha & Haenc)
  end.
  eexists _, (l1 ++ [line]). split.
  { unfold main_report.
    erewrite bind_ok by exact Hrun. erewrite bind_ok by exact Ha.
    unfold ret, printed. cbn [stdout clock_reads disk].
    rewrite <- app_assoc. reflexivity. }
  split; [rewrite length_app; simpl; lia|].
  split.
  - unfold plain_report, plain_price, set_ai_analysis.
    cbn [md_spot_price md_futures_price battery_grade industrial_grade
         spot_daily_change_percent lc_main futures_daily_change_percent].
    repeat split; first [assumption | reflexivity].
  - unfold report_encodable, set_ai_analysis.
    cbn [md_timestamp md_date md_price_history md_ai_analysis].
    split; [apply ascii_encodable, isoformat_ascii|].
    split; [apply ascii_encodable, strftime_Ymd_ascii|].
    split; [apply points_encodable | exact Haenc].
Qed.

(** X14. End to end, whatever the pages and the language model give: on a
    disk that is ready, with a system that refuses nothing, a clock in
    range and answers that can be encoded, [main] returns.  The data file
    then holds exactly the text that [main] prints last, that text read
    back with [json.loads] is the report, and no other file (the history
    file among them) has changed. *)
Theorem main_saves_what_it_prints (e : env) (w : world) :
  clock_in_range e -> no_faults e -> ready_for_save (disk w) ->
  llm_answers_encodable e ->
  exists report lines fs' j,
    main_report e w
    = (Ok report,
       World (stdout w ++ fetching_banner :: lines) (clock_reads w + 32)
         (disk w)) /\
    main e w
    = (Ok tt,
       World (stdout w ++ fetching_banner :: lines
              ++ [saved_banner; done_banner;
                  Json.dumps (json_of_market_data report)])
         (clock_reads w + 32) fs') /\
    read_file data_path fs' = Some (Json.dumps (json_of_market_data report)) /\
    (forall q, q <> data_path -> read_file q fs' = read_file q (disk w)) /\
    Json.loads (Json.dumps (json_of_market_data report)) = Some j /\
    json_equal j (json_of_market_data report).
Proof.
  intros Hclock Hnf Hready Henc.
  destruct (main_report_run w Hclock Henc)
    as (report & lines & Hreport & _ & Hplain & Hrenc).
  match type of Hreport with _ = (_, ?w1) =>
    destruct (@save_data_run report e w1 (fun p => Hnf _) (Hnf _) (Hnf _)
                Hready (report_text_encodable Hrenc))
      as (fs' & Hsave & _ & Hread & Hother & _)
  end.
  exists report, lines, fs', (normalize (json_of_market_data report)).
  split; [exact Hreport|]. split.
  { unfold main. erewrite bind_ok by exact Hreport.
    erewrite bind_ok by exact Hsave.
    unfold bind, print, printed, with_disk.
    cbn [stdout clock_reads disk].
    repeat rewrite <- app_assoc. reflexivity. }
  split; [exact Hread|]. split; [exact Hother|].
  split; [apply loads_dumps, wf_report, Hplain | apply normalize_equal].
Qed.

(** X15. Nothing is read back from an earlier run: [fetch_all_data] and
    [generate_ai_analysis], and so the report [main] builds, neither read
    nor write the disk.  On any other disk they return the same, print
    the same and leave that disk as it is. *)
Theorem main_report_disk_blind : disk_blind main_report.
Proof.
  unfold main_report.
  apply disk_blind_bind; [apply disk_blind_fetch_all_data | intros m].
  apply disk_blind_bind; [apply disk_blind_generate_ai_analysis | intros a].
  apply disk_blind_ret.
Qed.

End EndToEnd.

(** ** The history across midnight *)

Section Midnight.

Lemma nth_error_points (e : env) (l : list Z) :
  forall (n j : nat) (i : Z),
    nth_error l j = Some i ->
    nth_error (points e n l) j
    = Some (HistoryPoint (date_string (toordinal (clock e (n + j)) - i))
              (price_of i)).
Proof.
  induction l as [|i0 l IH]; intros n j i Hj; destruct j as [|j];
    cbn [nth_error points] in *; try discriminate.
  - injection Hj as ->. now rewrite Nat.add_0_r.
  - rewrite (IH (S n) j i Hj).
    replace (S n + j)%nat with (n + S j)%nat by lia. reflexivity.
Qed.

Lemma str_lt_irrefl (s : pystr) : ~ str_lt s s.
Proof.
  induction s as [|c s IH]; cbn [str_lt]; [auto|].
  intros [Hlt | [_ Hs]]; [lia | auto].
Qed.

Lemma date_string_injective (a b : Z) :
  1 <= a <= Datetime.MAXORDINAL -> 1 <= b <= Datetime.MAXORDINAL ->
  date_string a = date_string b -> a = b.
Proof.
  intros Ha Hb E.
  destruct (Z.lt_trichotomy a b) as [Hlt | [-> | Hgt]]; [|reflexivity|];
    exfalso.
  - apply (@str_lt_irrefl (date_string b)). rewrite <- E at 1.
    apply date_string_increasing; lia.
  - apply (@str_lt_irrefl (date_string a)). rewrite E at 1.
    apply date_string_increasing; lia.
Qed.

(** X16. The loop reads the clock in every pass.  When midnight falls
    between two passes (the first [k] readings on the day [today], the
    others on the next day), the call still returns 30 points, but their
    dates are not the 30 days before one day: the points read before
    midnight count back from [today], the others from the day after, so
    one day of the range (the day [30 - k] days before [today]) has no
    point and the dates end on [today] itself. *)
Theorem generate_price_history_midnight (e : env) (w : world) (today : Z)
        (k : nat) :
  30 < today < Datetime.MAXORDINAL -> (0 < k < 30)%nat ->
  (forall j, (j < k)%nat ->
     toordinal (clock e (clock_reads w + j)) = today) ->
  (forall j, (k <= j < 30)%nat ->
     toordinal (clock e (clock_reads w + j)) = today + 1) ->
  exists history : list history_point,
    generate_price_history e w = (Ok history, tick 30 w) /\
    List.length history = 30%nat /\
    (forall j, (j < 30)%nat ->
       nth_error history j
       = Some (HistoryPoint
                 (date_string
                    (today - 30 + Z.of_nat j
                     + (if (j <? k)%nat then 0 else 1)))
                 (price_of (30 - Z.of_nat j)))) /\
    (forall p, In p history ->
       hp_date p <> date_string (today - 30 + Z.of_nat k)).
Proof.
  intros Htoday Hk Hbefore Hafter.
  assert (Hrun : generate_price_history e w
                 = (Ok (points e (clock_reads w) (py_range 30 0 (-1))),
                    tick 30 w)).
  { apply generate_price_history_run. intros j Hj.
    destruct (Nat.lt_ge_cases j k) as [Hjk | Hjk].
    - rewrite (Hbefore j Hjk). lia.
    - rewrite (Hafter j (conj Hjk Hj)). lia. }
  assert (Hnth : forall j, (j < 30)%nat ->
            nth_error (points e (clock_reads w) (py_range 30 0 (-1))) j
            = Some (HistoryPoint
                      (date_string
                         (today - 30 + Z.of_nat j
                          + (if (j <? k)%nat then 0 else 1)))
                      (price_of (30 - Z.of_nat j)))).
  { intros j Hj.
    rewrite (@nth_error_points e _ (clock_reads w) j _ (nth_error_range_30 Hj)).
    do 2 f_equal.
    destruct (j <? k)%nat eqn:Ejk.
    - apply Nat.ltb_lt in Ejk. rewrite (Hbefore j Ejk). f_equal. lia.
    - apply Nat.ltb_ge in Ejk. rewrite (Hafter j (conj Ejk Hj)).
      f_equal. lia. }
  eexists. split; [exact Hrun|].
  split; [now rewrite length_points|]. split; [exact Hnth|].
  intros p Hin E.
  apply In_nth_error in Hin as [j Hj].
  assert (Hlt : (j < 30)%nat).
  { change 30%nat with (List.length (py_range 30 0 (-1))).
    rewrite <- (length_points e (py_range 30 0 (-1)) (clock_reads w)).
    apply nth_error_Some. congruence. }
  rewrite (Hnth j Hlt) in Hj. injection Hj as <-. cbn [hp_date] in E.
  apply date_string_injective in E.
  - destruct (j <? k)%nat eqn:Ejk.
    + apply Nat.ltb_lt in Ejk. lia.
    + apply Nat.ltb_ge in Ejk. lia.
  - destruct (j <? k)%nat; lia.
  - lia.
Qed.

End Midnight.

(** ** The theorems at sample inputs *)

Lemma generate_price_history_spec_witness :
  (30 < 739195 <= Datetime.MAXORDINAL) /\
  exists history : list history_point,
    generate_price_history Sample.offline Sample.empty_world
    = (Ok history, tick 30 Sample.empty_world) /\
    List.length history = 30%nat /\
    (forall k, (k < 30)%nat ->
       nth_error history k
       = Some (HistoryPoint (date_string (739195 - 30 + Z.of_nat k))
                 (80500 + ((30 - Z.of_nat k) mod 10) * 500 - 2000))) /\
    (year_1000 <= 739195 - 30 ->
     forall j k pj pk, (j < k)%nat ->
       nth_error history j = Some pj -> nth_error history k = Some pk ->
       str_lt (hp_date pj) (hp_date pk)).
Proof.
  split; [unfold Datetime.MAXORDINAL; lia|].
  apply (generate_price_history_spec Sample.offline Sample.empty_world
           (today := 739195)).
  - unfold Datetime.MAXORDINAL; lia.
  - intros k Hk. reflexivity.
Defined.

Lemma generate_price_history_prices_witness :
  exists history : list history_point,
    generate_price_history Sample.offline Sample.empty_world
    = (Ok history, tick 30 Sample.empty_world) /\
    Forall (fun p => 78500 <= hp_price p <= 83000) history /\
    (forall k p, nth_error history k = Some p ->
       hp_price p = price_of (30 - Z.of_nat k)) /\
    (forall i j, i mod 10 = j mod 10 -> price_of i = price_of j) /\
    (forall k p q,
       nth_error history k = Some p ->
       nth_error history (k + 10) = Some q ->
       hp_price p = hp_price q).
Proof.
  apply (generate_price_history_prices Sample.offline Sample.empty_world).
  intros k Hk. simpl. unfold Datetime.MAXORDINAL. lia.
Defined.

Lemma range_page_has_five_decimals :
  has_five_decimals (H := SampleUnicode.ucd) Sample.range_page.
Proof.
  exists (firstn 7 Sample.range_page),
         (firstn 5 (skipn 7 Sample.range_page)),
         (skipn 12 Sample.range_page).
  split; [reflexivity|]. split; [reflexivity|].
  repeat constructor.
Defined.

Lemma fetch_smm_price_success_witness :
  exists before lo after battery,
    first_five_decimals (H := SampleUnicode.ucd) Sample.range_page before lo after /\
    spot_price_from (H := SampleUnicode.ucd) lo after battery /\
    fetch_smm_price (H := SampleUnicode.ucd) Sample.range_env
      Sample.empty_world
    = (Ok (PriceData (today_string Sample.range_env Sample.empty_world)
             (Some battery)
             (Some (battery - 2200)%Q) (-1 # 2)%Q),
       tick 1 Sample.empty_world).
Proof.
  apply (fetch_smm_price_success (H := SampleUnicode.ucd) Sample.range_env
           Sample.empty_world (text := Sample.range_page)).
  - reflexivity.
  - exact range_page_has_five_decimals.
Defined.

Lemma fetch_smm_price_fallback_witness :
  exists line,
    fetch_smm_price (H := SampleUnicode.ucd) Sample.offline Sample.empty_world
    = (Ok (PriceData (today_string Sample.offline Sample.empty_world)
             (Some 80500%Q) (Some 78300%Q) (-1 # 2)%Q),
       World (stdout Sample.empty_world ++ [line])
         (clock_reads Sample.empty_world + 1) (disk Sample.empty_world)) /\
    match http Sample.offline smm_url with
    | Raise x => line = smm_error x
    | Ok _ => line = smm_warning
    end.
Proof.
  apply (fetch_smm_price_fallback (H := SampleUnicode.ucd) Sample.offline
           Sample.empty_world).
  simpl. exact I.
Defined.

Lemma generate_ai_analysis_fallback_witness :
  (exists x,
     snd (generate_ai_analysis (H := SampleUnicode.ucd) Sample.fallback_report
            Sample.offline
            Sample.empty_world)
     = printed (analysis_warning x) Sample.empty_world) /\
  ((0 < -1 # 2)%Q ->
   fst (generate_ai_analysis (H := SampleUnicode.ucd) Sample.fallback_report
            Sample.offline
          Sample.empty_world) = Ok canned_rising) /\
  ((-1 # 2 < 0)%Q ->
   fst (generate_ai_analysis (H := SampleUnicode.ucd) Sample.fallback_report
            Sample.offline
          Sample.empty_world) = Ok canned_falling) /\
  ((-1 # 2 == 0)%Q ->
   fst (generate_ai_analysis (H := SampleUnicode.ucd) Sample.fallback_report
            Sample.offline
          Sample.empty_world) = Ok canned_flat).
Proof.
  apply (generate_ai_analysis_fallback (H := SampleUnicode.ucd)
           Sample.fallback_report (e := Sample.offline) Sample.empty_world).
  intros p. simpl. exact I.
Defined.

Lemma offline_fetchers_fail : both_fetchers_fail Sample.offline.
Proof. split; exists Sample.timeout; reflexivity. Defined.

Lemma offline_clock_in_range : clock_in_range Sample.offline.
Proof. intros n. simpl. unfold Datetime.MAXORDINAL. lia. Defined.

Lemma main_offline_witness :
  exists (report : market_data) (w1 : world) (a : pystr),
    main_report (H := SampleUnicode.ucd) Sample.offline Sample.empty_world
    = (Ok report, w1) /\
    md_timestamp report <> [] /\ md_date report <> [] /\
    md_spot_price report
    = SpotRecord (Some 80500%Q) (Some 78300%Q) (-1 # 2)%Q /\
    md_futures_price report = FuturesRecord (Some 79800%Q) (3 # 10)%Q /\
    List.length (md_price_history report) = 30%nat /\
    md_ai_analysis report = Some a /\
    (llm_answer_not_blank (H := SampleUnicode.ucd) Sample.offline -> a <> []) /\
    (forall w2,
       save_data report Sample.offline w1 = (Ok tt, w2) ->
       main (H := SampleUnicode.ucd) Sample.offline Sample.empty_world
       = (Ok tt,
          printed (Json.dumps (json_of_market_data report))
            (printed done_banner w2))) /\
    (forall x w2,
       save_data report Sample.offline w1 = (Raise x, w2) ->
       main (H := SampleUnicode.ucd) Sample.offline Sample.empty_world = (Raise x, w2)).
Proof.
  apply (main_offline (H := SampleUnicode.ucd) Sample.empty_world).
  - exact offline_fetchers_fail.
  - exact offline_clock_in_range.
Defined.

(** *** Persistence and the whole pipeline at sample inputs *)

Lemma offline_no_faults : no_faults Sample.offline.
Proof. intros c. reflexivity. Defined.

Lemma answering_no_faults : no_faults SampleCases.answering.
Proof. intros c. reflexivity. Defined.

Lemma answering_clock_in_range : clock_in_range SampleCases.answering.
Proof. intros n. simpl. unfold Datetime.MAXORDINAL. lia. Defined.

Lemma answering_encodable : llm_answers_encodable SampleCases.answering.
Proof.
  intros p content Hl. simpl in Hl. injection Hl as <-. reflexivity.
Defined.

Lemma empty_disk_closed : fs_closed (disk Sample.empty_world).
Proof. intros p Hp. destruct p; [reflexivity | discriminate Hp]. Defined.

Lemma empty_disk_clear :
  way_clear (dirname data_path) (disk Sample.empty_world).
Proof. intros q _. reflexivity. Defined.

Lemma empty_disk_ready : ready_for_save (disk Sample.empty_world).
Proof.
  split; [exact empty_disk_closed|].
  split; [exact empty_disk_clear | reflexivity].
Defined.

Lemma fallback_report_plain : plain_report Sample.fallback_report.
Proof. repeat split. Defined.

Lemma summary_report_plain : plain_report SampleCases.summary_report.
Proof. repeat split. Defined.

Lemma save_data_writes_report_witness :
  exists fs',
    save_data Sample.fallback_report Sample.offline Sample.empty_world
    = (Ok tt, printed saved_banner (with_disk fs' Sample.empty_world)) /\
    (forall q, above q (dirname data_path) -> isdir q fs' = true) /\
    read_file data_path fs'
    = Some (Json.dumps (json_of_market_data Sample.fallback_report)) /\
    (forall q, q <> data_path ->
       read_file q fs' = read_file q (disk Sample.empty_world)) /\
    (forall q, isdir q fs' = true ->
       isdir q (disk Sample.empty_world) = true \/
       above q (dirname data_path)).
Proof.
  apply (@save_data_writes_report Sample.fallback_report Sample.offline
           Sample.empty_world).
  - exact offline_no_faults.
  - exact empty_disk_ready.
  - vm_compute. reflexivity.
  - exact fallback_report_plain.
Defined.

Lemma save_data_round_trip_witness :
  exists fs' text j,
    save_data Sample.fallback_report Sample.offline Sample.empty_world
    = (Ok tt, printed saved_banner (with_disk fs' Sample.empty_world)) /\
    read_file data_path fs' = Some text /\
    Json.loads text = Some j /\
    JsonSpec.json_equal j (json_of_market_data Sample.fallback_report).
Proof.
  apply (@save_data_round_trip Sample.fallback_report Sample.offline
           Sample.empty_world).
  - exact offline_no_faults.
  - exact empty_disk_ready.
  - vm_compute. reflexivity.
  - exact fallback_report_plain.
Defined.

Lemma save_data_keeps_summary_witness :
  exists fs' before,
    save_data SampleCases.summary_report Sample.offline Sample.empty_world
    = (Ok tt, printed saved_banner (with_disk fs' Sample.empty_world)) /\
    read_file data_path fs'
    = Some (before ++ summary_member canned_falling ++ [10; 125]%N).
Proof.
  apply (@save_data_keeps_summary SampleCases.summary_report canned_falling
           Sample.offline Sample.empty_world).
  - exact offline_no_faults.
  - exact empty_disk_ready.
  - vm_compute. reflexivity.
  - reflexivity.
  - apply literal_chars. vm_compute. reflexivity.
Defined.

Lemma save_data_mkdir_refused_witness :
  save_data Sample.fallback_report SampleCases.read_only Sample.empty_world
  = (Raise SampleCases.read_only_error, Sample.empty_world).
Proof.
  apply (@save_data_mkdir_refused Sample.fallback_report
           SampleCases.read_only Sample.empty_world
           SampleCases.read_only_error).
  - intros p. reflexivity.
  - reflexivity.
Defined.

Lemma save_data_open_refused_witness :
  exists fs',
    save_data Sample.fallback_report SampleCases.locked Sample.empty_world
    = (Raise SampleCases.permission_error,
       with_disk fs' Sample.empty_world) /\
    fs_files fs' = fs_files (disk Sample.empty_world) /\
    (forall q, above q (dirname data_path) -> isdir q fs' = true).
Proof.
  apply (@save_data_open_refused Sample.fallback_report SampleCases.locked
           Sample.empty_world SampleCases.permission_error).
  - intros p. reflexivity.
  - reflexivity.
  - exact empty_disk_closed.
  - exact empty_disk_clear.
Defined.

Lemma save_data_overwrites_witness :
  exists fs',
    (save_data Sample.fallback_report ;;
     save_data SampleCases.summary_report)%py Sample.offline
      Sample.empty_world
    = (Ok tt,
       printed saved_banner
         (printed saved_banner (with_disk fs' Sample.empty_world))) /\
    read_file data_path fs'
    = Some (Json.dumps (json_of_market_data SampleCases.summary_report)) /\
    (forall q, q <> data_path ->
       read_file q fs' = read_file q (disk Sample.empty_world)).
Proof.
  apply (@save_data_overwrites Sample.fallback_report
           SampleCases.summary_report Sample.offline Sample.empty_world).
  - exact offline_no_faults.
  - exact empty_disk_ready.
  - vm_compute. reflexivity.
  - vm_compute. reflexivity.
  - exact fallback_report_plain.
  - exact summary_report_plain.
Defined.

Lemma fetch_all_data_total_witness :
  exists report lines,
    fetch_all_data (H := SampleUnicode.ucd) SampleCases.answering
      Sample.empty_world
    = (Ok report,
       World (stdout Sample.empty_world ++ fetching_banner :: lines)
         (clock_reads Sample.empty_world + 32) (disk Sample.empty_world)) /\
    (List.length lines <= 2)%nat /\
    md_date report
    = Datetime.strftime_Ymd
        (clock SampleCases.answering (clock_reads Sample.empty_world)) /\
    md_timestamp report
    = Datetime.isoformat
        (clock SampleCases.answering (clock_reads Sample.empty_world + 31)) /\
    (exists battery industrial,
        md_spot_price report
        = SpotRecord (Some battery) (Some industrial) (-1 # 2)%Q /\
        (0 <= battery <= 99999)%Q /\ (industrial == battery - 2200)%Q) /\
    (exists futures,
        md_futures_price report = FuturesRecord (Some futures) (3 # 10)%Q /\
        (0 <= futures <= 99999)%Q) /\
    md_price_history report
    = points SampleCases.answering (clock_reads Sample.empty_world + 1)
        (py_range 30 0 (-1)) /\
    List.length (md_price_history report) = 30%nat /\
    md_ai_analysis report = None.
Proof.
  apply (@fetch_all_data_total SampleUnicode.ucd SampleCases.answering
           Sample.empty_world).
  exact answering_clock_in_range.
Defined.

Lemma fetch_all_data_overflow_witness :
  exists w',
    fetch_all_data (H := SampleUnicode.ucd) SampleCases.year_one
      Sample.empty_world
    = (Raise Datetime.overflow_error, w') /\
    main (H := SampleUnicode.ucd) SampleCases.year_one Sample.empty_world
    = (Raise Datetime.overflow_error, w') /\
    disk w' = disk Sample.empty_world.
Proof.
  apply (@fetch_all_data_overflow SampleUnicode.ucd SampleCases.year_one
           Sample.empty_world).
  simpl. lia.
Defined.

Lemma generate_ai_analysis_answer_witness :
  exists before a after,
    generate_ai_analysis (H := SampleUnicode.ucd) Sample.fallback_report
      SampleCases.answering Sample.empty_world
    = (Ok a, printed (analysis_banner ++ a) Sample.empty_world) /\
    SampleCases.answer = before ++ a ++ after /\
    spaces (H := SampleUnicode.ucd) before /\
    spaces (H := SampleUnicode.ucd) after /\
    (forall c rest, a = c :: rest -> isspace (UnicodeData := SampleUnicode.ucd) c = false) /\
    (forall c rest, a = rest ++ [c] -> isspace (UnicodeData := SampleUnicode.ucd) c = false).
Proof.
  apply (@generate_ai_analysis_answer SampleUnicode.ucd
           Sample.fallback_report SampleCases.answering Sample.empty_world
           80500%Q 79800%Q SampleCases.answer).
  - reflexivity.
  - reflexivity.
  - reflexivity.
  - reflexivity.
Defined.

Lemma generate_ai_analysis_missing_price_witness :
  generate_ai_analysis (H := SampleUnicode.ucd) SampleCases.unpriced_report
    SampleCases.answering Sample.empty_world
  = (Ok (canned_summary
           (spot_daily_change_percent
              (md_spot_price SampleCases.unpriced_report))),
     printed (analysis_warning format_type_error) Sample.empty_world).
Proof.
  apply (@generate_ai_analysis_missing_price SampleUnicode.ucd
           SampleCases.unpriced_report SampleCases.answering
           Sample.empty_world).
  left. reflexivity.
Defined.

Lemma fetch_futures_price_first_window_witness :
  fetch_futures_price (H := SampleUnicode.ucd) SampleCases.long_number_env
    Sample.empty_world
  = (Ok (FuturesData
           (Some (inject_Z
                    (digits_value (H := SampleUnicode.ucd)
                       (firstn 5 (skipn 5 SampleCases.long_number_page)))))
           (3 # 10)%Q),
     Sample.empty_world).
Proof.
  apply (@fetch_futures_price_first_window SampleUnicode.ucd
           SampleCases.long_number_env Sample.empty_world
           (firstn 5 SampleCases.long_number_page)
           (firstn 5 (skipn 5 SampleCases.long_number_page))
           (skipn 10 SampleCases.long_number_page)).
  - reflexivity.
  - repeat constructor.
  - split; [reflexivity | repeat constructor].
Defined.

Lemma main_saves_what_it_prints_witness :
  exists report lines fs' j,
    main_report (H := SampleUnicode.ucd) SampleCases.answering
      Sample.empty_world
    = (Ok report,
       World (stdout Sample.empty_world ++ fetching_banner :: lines)
         (clock_reads Sample.empty_world + 32) (disk Sample.empty_world)) /\
    main (H := SampleUnicode.ucd) SampleCases.answering Sample.empty_world
    = (Ok tt,
       World (stdout Sample.empty_world ++ fetching_banner :: lines
              ++ [saved_banner; done_banner;
                  Json.dumps (json_of_market_data report)])
         (clock_reads Sample.empty_world + 32) fs') /\
    read_file data_path fs' = Some (Json.dumps (json_of_market_data report)) /\
    (forall q, q <> data_path ->
       read_file q fs' = read_file q (disk Sample.empty_world)) /\
    Json.loads (Json.dumps (json_of_market_data report)) = Some j /\
    JsonSpec.json_equal j (json_of_market_data report).
Proof.
  apply (@main_saves_what_it_prints SampleUnicode.ucd SampleCases.answering
           Sample.empty_world).
  - exact answering_clock_in_range.
  - exact answering_no_faults.
  - exact empty_disk_ready.
  - exact answering_encodable.
Defined.

Lemma generate_price_history_midnight_witness :
  exists history : list history_point,
    generate_price_history SampleClocks.midnight Sample.empty_world
    = (Ok history, tick 30 Sample.empty_world) /\
    List.length history = 30%nat /\
    (forall j, (j < 30)%nat ->
       nth_error history j
       = Some (HistoryPoint
                 (date_string
                    (739195 - 30 + Z.of_nat j
                     + (if (j <? 10)%nat then 0 else 1)))
                 (price_of (30 - Z.of_nat j)))) /\
    (forall p, In p history ->
       hp_date p <> date_string (739195 - 30 + Z.of_nat 10)).
Proof.
  apply (@generate_price_history_midnight SampleClocks.midnight
           Sample.empty_world 739195 10).
  - unfold Datetime.MAXORDINAL. lia.
  - lia.
  - intros j Hj. do 10 (destruct j as [|j]; [reflexivity|]). lia.
  - intros j Hj. do 10 (destruct j as [|j]; [lia|]). reflexivity.
Defined.
